(** * filedownloader: task registry, task store, worker pool, progress
      aggregation and recovery, embedded from the Go sources.

    Conventions of the embedding
    - Go [int] and [int64] are 64-bit two's complement integers, written as
      [Z] with the wrap-around of [+=] spelled out ([Int64.add]).
    - [float64] is IEEE 754 binary64, taken from the Standard Library's
      [SpecFloat] with [prec = 53] and [emax = 1024].
    - [*domain.Task] is a location in a heap of task objects and [&files[i]]
      is such a location together with an index.  The registry maps task
      IDs to locations, so a mutation through one pointer is seen through
      all of them.
    - The file system, the clock, the scheduler and the network answer
      through explicit arguments: the fault of a write, the value of the
      nanosecond clock, the case a [select] picks, the response to a HEAD
      request and the outcome of a download. *)

From Stdlib Require Import ZArith Lia Bool String Ascii List.
From Stdlib Require Import SpecFloat.
From stdpp Require Import gmap strings list pretty.
Local Open Scope Z_scope.

(** ** Machine integers *)

Module Int64.

Definition min_int : Z := - 2 ^ 63.
Definition max_int : Z := 2 ^ 63 - 1.

(** Two's complement reduction into [min_int, max_int]. *)
Definition wrap (z : Z) : Z := (z + 2 ^ 63) mod 2 ^ 64 - 2 ^ 63.

(** [a += b] on int64. *)
Definition add (a b : Z) : Z := wrap (a + b).

End Int64.

(** ** IEEE 754 binary64 *)

Module Float64.

Definition prec : Z := 53.
Definition emax : Z := 1024.

Definition float64 := spec_float.

(** [float64(x)] for an integer [x]: exact when |x| < 2^53, otherwise
    rounded to nearest, ties to even. *)
Definition of_int64 (z : Z) : float64 := binary_normalize prec emax z 0 false.

Definition div : float64 -> float64 -> float64 := SFdiv prec emax.
Definition mul : float64 -> float64 -> float64 := SFmul prec emax.

(** The untyped constant [100] of the progress formula, as a float64. *)
Definition hundred : float64 := of_int64 100.

(** Truncation toward zero of a finite value. *)
Definition trunc (f : float64) : option Z :=
  match f with
  | S754_zero _ => Some 0
  | S754_finite s m e => Some (cond_Zopp s (Z.shiftl (Z.pos m) e))
  | S754_infinity _ | S754_nan => None
  end.

(** [int(f)]: truncation.  The language leaves the conversion of a value
    outside the int64 range, of an infinity and of a NaN to the
    implementation; they convert to the minimum int64 here, as on amd64.
    Every theorem below about a progress value is about a quotient that is
    in range. *)
Definition to_int64 (f : float64) : Z :=
  match trunc f with
  | Some z =>
      if (Int64.min_int <=? z) && (z <=? Int64.max_int) then z else Int64.min_int
  | None => Int64.min_int
  end.

(** Vocabulary of the proofs about rounding. *)

(** Right shift by [k] bits of a non-negative integer, rounded to nearest,
    ties to even. *)
Definition rnd_shift (m k : Z) : Z :=
  let q := m / 2 ^ k in
  let r := m mod 2 ^ k in
  let h := 2 ^ (k - 1) in
  if (h <? r) || ((r =? h) && Z.odd q) then q + 1 else q.

(** [z] rounded to 53 significant bits. *)
Definition R53 (z : Z) : Z :=
  let k := Zdigits2 z - 53 in
  if 0 <? k then rnd_shift z k * 2 ^ k else z.

(** Order on positive finite values with full 53-bit mantissas. *)
Definition le53 (ma : positive) (ea : Z) (mb : positive) (eb : Z) : Prop :=
  ea < eb \/ (ea = eb /\ Z.pos ma <= Z.pos mb).

(** A non-negative value that is at most the integer [c]. *)
Definition bounded_by (c : Z) (f : float64) : Prop :=
  match f with
  | S754_zero s => s = false
  | S754_finite s m e =>
      s = false /\
      exists ex, ex <= e /\ ex <= 0 /\ Z.pos m * 2 ^ (e - ex) <= c * 2 ^ (- ex)
  | S754_infinity _ | S754_nan => False
  end.

End Float64.

(** ** internal/domain *)

Module domain.

(** [type Status string] *)
Definition Status := string.
Definition StatusPending : Status := "pending".
Definition StatusDownloading : Status := "downloading".
Definition StatusCompleted : Status := "completed".
Definition StatusFailed : Status := "failed".

End domain.

Module File.

(** [CreatedAt] stands for a [time.Time]; nothing in the code modelled here
    reads or writes it. *)
Record t := mk {
  URL : string;
  Filename : string;
  Status : domain.Status;
  Size : Z;
  Downloaded : Z;
  CreatedAt : Z
}.

Definition with_Status (s : domain.Status) (f : t) : t :=
  mk (URL f) (Filename f) s (Size f) (Downloaded f) (CreatedAt f).
Definition with_Size (n : Z) (f : t) : t :=
  mk (URL f) (Filename f) (Status f) n (Downloaded f) (CreatedAt f).
Definition with_Downloaded (n : Z) (f : t) : t :=
  mk (URL f) (Filename f) (Status f) (Size f) n (CreatedAt f).
Definition with_Filename (s : string) (f : t) : t :=
  mk (URL f) s (Status f) (Size f) (Downloaded f) (CreatedAt f).

End File.

Module Task.

Record t := mk {
  ID : string;
  URLs : list string;
  Status : domain.Status;
  Files : list File.t;
  CreatedAt : Z;
  Progress : Z
}.

Definition with_Status (s : domain.Status) (x : t) : t :=
  mk (ID x) (URLs x) s (Files x) (CreatedAt x) (Progress x).
Definition with_Progress (p : Z) (x : t) : t :=
  mk (ID x) (URLs x) (Status x) (Files x) (CreatedAt x) p.
Definition with_Files (fs : list File.t) (x : t) : t :=
  mk (ID x) (URLs x) (Status x) fs (CreatedAt x) (Progress x).

End Task.

(** ** The world the services run in *)

(** A [*domain.Task]. *)
Definition loc := positive.

Inductive error :=
| ErrCreateStateDir   (* "failed to create state dir" *)
| ErrMarshalTask      (* "failed to marshal task" *)
| ErrWriteTaskFile    (* "failed to write task file" *)
| ErrHeadRequest      (* "failed to create HEAD request", "failed to get file size" *)
| ErrBadStatus (code : Z)  (* "bad status code" *)
| ErrDownload.        (* any failure of DownloadFile *)

(** What the operating system does to one [SaveTask]: [OpenFails] leaves the
    file as it was, [WriteFails] leaves it truncated. *)
Inductive SaveFault := NoFault | MkdirFails | MarshalFails | OpenFails | WriteFails.

(** Contents of a file of the state directory: the JSON document of a task,
    or the remains of an interrupted write. *)
Inductive FileContent := Doc (task : Task.t) | Truncated.

Record FileSystem := {
  dirs : gset string;
  files : gmap string FileContent
}.

(** One call of [TaskStorage.SaveTask]: the pointer it was given, the task as
    it was then, and what the call returned. *)
Record SaveCall := {
  sc_ptr : loc;
  sc_task : Task.t;
  sc_err : option error
}.

Record World := {
  heap : gmap loc Task.t;        (* the task objects *)
  tasks : gmap string loc;       (* TaskManager.tasks *)
  stateDir : string;             (* TaskStorage.stateDir *)
  fs : FileSystem;
  saves : list SaveCall          (* calls of SaveTask so far, newest first *)
}.

Definition with_heap (h : gmap loc Task.t) (w : World) : World :=
  Build_World h (tasks w) (stateDir w) (fs w) (saves w).
Definition with_tasks (m : gmap string loc) (w : World) : World :=
  Build_World (heap w) m (stateDir w) (fs w) (saves w).
Definition with_fs (x : FileSystem) (w : World) : World :=
  Build_World (heap w) (tasks w) (stateDir w) x (saves w).
Definition with_saves (l : list SaveCall) (w : World) : World :=
  Build_World (heap w) (tasks w) (stateDir w) (fs w) l.

(** The part of a parsed [url.URL] the code reads. *)
Record URL := { Path : string }.

(** The part of an [http.Response] the code reads. *)
Record Response := { StatusCode : Z; ContentLength : Z }.

(** Library functions and the network.
    - [filepath_Join] is [path/filepath.Join];
    - [neturl_Parse] is [net/url.Parse], [None] for an error;
    - [http_Head] answers the HEAD request of [GetFileSize], [None] when the
      request cannot be built or sent;
    - [download] is the outcome of [Downloader.DownloadFile(url, filename)]:
      the name the file was saved under, or [None] for any failure. *)
Record Env := {
  filepath_Join : string -> string -> string;
  neturl_Parse : string -> option URL;
  http_Head : string -> option Response;
  download : string -> string -> option string
}.

(** [strings.Split(s, sep)] for a one-byte separator. *)
Fixpoint strings_Split (s : string) (sep : ascii) : list string :=
  match s with
  | EmptyString => [EmptyString]
  | String c s' =>
      if Ascii.eqb c sep then EmptyString :: strings_Split s' sep
      else match strings_Split s' sep with
           | x :: r => String c x :: r
           | [] => [String c EmptyString]
           end
  end.

(** [filepath.Ext(path)]: the suffix that starts at the last dot of the last
    element of [path], empty when that element has no dot.  The library
    walks [path] from its end and stops at the first dot or separator;
    [ext_scan] says where that walk stopped, [None] when it reached the
    start of [path]. *)
Fixpoint ext_scan (path : string) : option string :=
  match path with
  | EmptyString => None
  | String c rest =>
      match ext_scan rest with
      | Some e => Some e
      | None =>
          if Ascii.eqb c "." then Some path
          else if Ascii.eqb c "/" then Some EmptyString
          else None
      end
  end.

Definition filepath_Ext (path : string) : string := default EmptyString (ext_scan path).

(** An [os.DirEntry], and what [os.ReadDir] answers for the state
    directory. *)
Record DirEntry := { Name : string; IsDir : bool }.

Inductive ReadDirResult :=
| DirNotExist
| DirUnreadable
| DirEntries (entries : list DirEntry).

(** What the operating system does to one [os.Remove]. *)
Inductive RemoveFault := RemoveOk | RemoveDenied.

(** ** encoding/json: the strings of a task *)

Module json.

(** [encoding/json] copies the bytes of a string into the document as long
    as they are the UTF-8 encoding of a code point, and writes U+FFFD in the
    place of a byte that starts no such encoding; the decoder reads the
    document back as the string [coerce s].  The byte ranges are those of
    [unicode/utf8]. *)
Definition in_range (lo hi : N) (c : ascii) : bool :=
  ((lo <=? N_of_ascii c) && (N_of_ascii c <=? hi))%N.

Definition cont : ascii -> bool := in_range 128 191.

Definition two (c0 c1 : ascii) : bool := in_range 194 223 c0 && cont c1.

Definition three (c0 c1 c2 : ascii) : bool :=
  (in_range 224 224 c0 && in_range 160 191 c1
   || in_range 225 236 c0 && cont c1
   || in_range 237 237 c0 && in_range 128 159 c1
   || in_range 238 239 c0 && cont c1)
  && cont c2.

Definition four (c0 c1 c2 c3 : ascii) : bool :=
  (in_range 240 240 c0 && in_range 144 191 c1
   || in_range 241 243 c0 && cont c1
   || in_range 244 244 c0 && in_range 128 143 c1)
  && cont c2 && cont c3.

(** The three bytes of U+FFFD. *)
Definition replacement (s : string) : string :=
  String (ascii_of_N 239) (String (ascii_of_N 191) (String (ascii_of_N 189) s)).

Fixpoint coerce (s : string) : string :=
  match s with
  | EmptyString => EmptyString
  | String c0 s1 =>
      if in_range 0 127 c0 then String c0 (coerce s1)
      else
        match s1 with
        | String c1 s2 =>
            if two c0 c1 then String c0 (String c1 (coerce s2))
            else
              match s2 with
              | String c2 s3 =>
                  if three c0 c1 c2 then String c0 (String c1 (String c2 (coerce s3)))
                  else
                    match s3 with
                    | String c3 s4 =>
                        if four c0 c1 c2 c3
                        then String c0 (String c1 (String c2 (String c3 (coerce s4))))
                        else replacement (coerce s1)
                    | EmptyString => replacement (coerce s1)
                    end
              | EmptyString => replacement (coerce s1)
              end
        | EmptyString => replacement (coerce s1)
        end
  end.

(** [utf8.ValidString]: the string is read back as it was written. *)
Definition Valid (s : string) : bool := String.eqb (coerce s) s.

(** What [json.Unmarshal] makes of the document [json.MarshalIndent] writes
    for a file and for a task. *)
Definition decoded_file (f : File.t) : File.t :=
  File.mk (coerce (File.URL f)) (coerce (File.Filename f)) (coerce (File.Status f))
    (File.Size f) (File.Downloaded f) (File.CreatedAt f).

Definition decoded (t : Task.t) : Task.t :=
  Task.mk (coerce (Task.ID t)) (map coerce (Task.URLs t)) (coerce (Task.Status t))
    (map decoded_file (Task.Files t)) (Task.CreatedAt t) (Task.Progress t).

(** Every string of the task is valid UTF-8. *)
Definition round_trips (t : Task.t) : bool :=
  Valid (Task.ID t) && forallb Valid (Task.URLs t) && Valid (Task.Status t)
  && forallb (fun f => Valid (File.URL f) && Valid (File.Filename f) && Valid (File.Status f))
       (Task.Files t).

End json.

(** ** internal/repository: TaskStorage *)

Module TaskStorage.

(** [SaveTask(task)]: create the state directory, marshal, write
    [<stateDir>/<ID>.json].  A pointer that is not in the heap stands for
    nil, which no caller modelled here passes. *)
Definition SaveTask (E : Env) (io : SaveFault) (task : loc) (w : World)
  : World * option error :=
  match heap w !! task with
  | None => (w, None)
  | Some t =>
      let returns (e : option error) (w' : World) :=
        (with_saves (Build_SaveCall task t e :: saves w') w', e) in
      match io with
      | MkdirFails => returns (Some ErrCreateStateDir) w
      | _ =>
          let w1 := with_fs (Build_FileSystem ({[stateDir w]} ∪ dirs (fs w)) (files (fs w))) w in
          let filePath := filepath_Join E (stateDir w) (Task.ID t +:+ ".json") in
          match io with
          | MarshalFails => returns (Some ErrMarshalTask) w1
          | OpenFails => returns (Some ErrWriteTaskFile) w1
          | WriteFails =>
              returns (Some ErrWriteTaskFile)
                (with_fs (Build_FileSystem (dirs (fs w1)) (<[filePath := Truncated]> (files (fs w1)))) w1)
          | _ =>
              returns None
                (with_fs (Build_FileSystem (dirs (fs w1)) (<[filePath := Doc t]> (files (fs w1)))) w1)
          end
      end
  end.

(** [UpdateTask(task)] is [return ts.SaveTask(task)]. *)
Definition UpdateTask (E : Env) (io : SaveFault) (task : loc) (w : World)
  : World * option error :=
  SaveTask E io task w.

(** What [SaveTask] returns under each fault. *)
Definition save_result (io : SaveFault) : option error :=
  match io with
  | NoFault => None
  | MkdirFails => Some ErrCreateStateDir
  | MarshalFails => Some ErrMarshalTask
  | OpenFails | WriteFails => Some ErrWriteTaskFile
  end.

(** Errors of the reading and deleting half of the store. *)
Inductive read_error :=
| ErrReadTaskFile     (* "failed to read task file" *)
| ErrUnmarshalTask    (* "failed to unmarshal task" *)
| ErrReadStateDir     (* "failed to read state dir" *)
| ErrDeleteTaskFile.  (* "failed to delete task file" *)

(** [LoadTask(taskID)]: read [<stateDir>/<taskID>.json] and decode it into a
    new task object.  [unreadable path] says that the operating system
    refuses to read a file that exists.  [Doc t] is a document that decodes
    to [t]; the remains of an interrupted write do not decode. *)
Definition LoadTask (E : Env) (unreadable : string -> bool) (taskID : string) (w : World)
  : World * (loc + read_error) :=
  let filePath := filepath_Join E (stateDir w) (taskID +:+ ".json") in
  match (if unreadable filePath then None else files (fs w) !! filePath) with
  | None => (w, inr ErrReadTaskFile)
  | Some Truncated => (w, inr ErrUnmarshalTask)
  | Some (Doc t) =>
      let task := fresh (dom (heap w)) in
      (with_heap (<[task := t]> (heap w)) w, inl task)
  end.

(** [name[:len(name)-5]]; the slice expression panics when [name] is shorter
    than five bytes: [None]. *)
Definition drop_json (name : string) : option string :=
  if (5 <=? String.length name)%nat
  then Some (substring 0 (String.length name - 5) name)
  else None.

(** The body of the loop of [LoadAllTasks]; [None] is a panic. *)
Definition load_entry (E : Env) (unreadable : string -> bool)
    (acc : option (World * gmap string loc)) (entry : DirEntry)
  : option (World * gmap string loc) :=
  match acc with
  | None => None
  | Some (w, tasks) =>
      if IsDir entry then Some (w, tasks)
      else if negb (String.eqb (filepath_Ext (Name entry)) ".json") then Some (w, tasks)
      else
        match drop_json (Name entry) with
        | None => None
        | Some taskID =>
            match LoadTask E unreadable taskID w with
            | (w', inr _) => Some (w', tasks)
            | (w', inl task) => Some (w', <[taskID := task]> tasks)
            end
        end
  end.

(** [LoadAllTasks()]; [dir] is the answer of [os.ReadDir(ts.stateDir)]. *)
Definition LoadAllTasks (E : Env) (unreadable : string -> bool) (dir : ReadDirResult)
    (w : World) : option (World * (gmap string loc + read_error)) :=
  match dir with
  | DirNotExist => Some (w, inl ∅)
  | DirUnreadable => Some (w, inr ErrReadStateDir)
  | DirEntries entries =>
      match fold_left (load_entry E unreadable) entries (Some (w, ∅)) with
      | Some (w', tasks) => Some (w', inl tasks)
      | None => None
      end
  end.

(** [DeleteTask(taskID)]: a file that is not there is not an error.  A path
    in [files] is a regular file. *)
Definition DeleteTask (E : Env) (io : RemoveFault) (taskID : string) (w : World)
  : World * option read_error :=
  let filePath := filepath_Join E (stateDir w) (taskID +:+ ".json") in
  match io with
  | RemoveDenied => (w, Some ErrDeleteTaskFile)
  | RemoveOk =>
      match files (fs w) !! filePath with
      | None => (w, None)
      | Some _ =>
          (with_fs (Build_FileSystem (dirs (fs w)) (delete filePath (files (fs w)))) w, None)
      end
  end.

End TaskStorage.

(** ** internal/service: TaskManager *)

Module TaskManager.

(** [fmt.Sprintf("task_%d", time.Now().UnixNano())] *)
Definition generateTaskID (now : Z) : string := "task_" +:+ pretty now.

Definition extractFilename (url : string) : string :=
  let parts := strings_Split url "/" in
  if (0 <? length parts)%nat then
    let filename := List.last parts "" in
    if String.eqb filename "" then "unknown_file" else filename
  else "unknown_file".

(** The zero [time.Time]. *)
Definition zero_time : Z := 0.

Definition CreateTask (E : Env) (now : Z) (io : SaveFault) (urls : list string) (w : World)
  : World * (option loc * option error) :=
  let taskID := generateTaskID now in
  let files :=
    map (fun url => File.mk url (extractFilename url) domain.StatusPending 0 0 zero_time) urls in
  let task := Task.mk taskID urls domain.StatusPending files zero_time 0 in
  let p := fresh (dom (heap w)) in
  let w1 := with_tasks (<[taskID := p]> (tasks w)) (with_heap (<[p := task]> (heap w)) w) in
  match TaskStorage.SaveTask E io p w1 with
  | (w2, Some err) => (w2, (None, Some err))
  | (w2, None) => (w2, (Some p, None))
  end.

Definition GetTask (taskID : string) (w : World) : option loc := tasks w !! taskID.

Definition UpdateTask (E : Env) (io : SaveFault) (task : loc) (w : World)
  : World * option error :=
  match heap w !! task with
  | None => (w, None)
  | Some t =>
      TaskStorage.UpdateTask E io task (with_tasks (<[Task.ID t := task]> (tasks w)) w)
  end.

(** A fresh map with the same pointers. *)
Definition GetAllTasks (w : World) : gmap string loc :=
  map_fold (fun k v (result : gmap string loc) => <[k := v]> result) ∅ (tasks w).

Definition incomplete (t : Task.t) : bool :=
  String.eqb (Task.Status t) domain.StatusPending
  || String.eqb (Task.Status t) domain.StatusDownloading.

Definition reset_file (f : File.t) : File.t :=
  if negb (String.eqb (File.Status f) domain.StatusCompleted)
  then File.with_Downloaded 0 (File.with_Status domain.StatusPending f)
  else f.

(** The assignments of the loop body of [RecoverIncompleteTasks]. *)
Definition reset_task (t : Task.t) : Task.t :=
  Task.with_Files (map reset_file (Task.Files t))
    (Task.with_Progress 0 (Task.with_Status domain.StatusPending t)).

(** What recovery does to one task object. *)
Definition after_recovery (t : Task.t) : Task.t := if incomplete t then reset_task t else t.

Definition recover_one (E : Env) (io : string -> SaveFault)
    (acc : World * Z) (entry : string * loc) : World * Z :=
  let '(w, recovered) := acc in
  let '(k, task) := entry in
  match heap w !! task with
  | None => (w, recovered)
  | Some t =>
      if incomplete t then
        let w1 := with_heap (<[task := reset_task t]> (heap w)) w in
        match UpdateTask E (io k) task w1 with
        | (w2, Some _) => (w2, recovered)
        | (w2, None) => (w2, recovered + 1)
        end
      else (w, recovered)
  end.

(** [range] is the order in which the [range] clause yields the entries of
    the map returned by [GetAllTasks]: some permutation of them.  [io k] is
    the fault of the write made for the entry under key [k]. *)
Definition RecoverIncompleteTasks (E : Env) (io : string -> SaveFault)
    (range : list (string * loc) -> list (string * loc)) (w : World) : World * Z :=
  let tasks := GetAllTasks w in
  fold_left (recover_one E io) (range (map_to_list tasks)) (w, 0).

(** [loadExistingTasks()]: the registry becomes the map the store loaded; it
    stays as it was when the store reports an error.  [None] is a panic. *)
Definition loadExistingTasks (E : Env) (unreadable : string -> bool) (dir : ReadDirResult)
    (w : World) : option World :=
  match TaskStorage.LoadAllTasks E unreadable dir w with
  | None => None
  | Some (w', inr _) => Some w'
  | Some (w', inl tasks) => Some (with_tasks tasks w')
  end.

(** [NewTaskManager()] in a process that starts with the state directory
    [stateDir] on the file system [fs]. *)
Definition NewTaskManager (E : Env) (unreadable : string -> bool) (dir : ReadDirResult)
    (stateDir : string) (fs : FileSystem) : option World :=
  loadExistingTasks E unreadable dir
    {| heap := ∅; tasks := ∅; stateDir := stateDir; fs := fs; saves := [] |}.

(** [GetIncompleteTasks()]; [range] is the order in which the registry is
    ranged over. *)
Definition GetIncompleteTasks (range : list (string * loc) -> list (string * loc))
    (w : World) : list loc :=
  fold_left
    (fun (result : list loc) (entry : string * loc) =>
       match heap w !! entry.2 with
       | Some t => if incomplete t then result ++ [entry.2] else result
       | None => result
       end)
    (range (map_to_list (tasks w))) [].

End TaskManager.

(** ** internal/service: Downloader *)

Module Downloader.

(** [fmt.Sprintf("file_%d", len(u))] *)
Definition fallback_name (u : string) : string := "file_" +:+ pretty (String.length u).

Definition ExtractFilename (E : Env) (u : string) : string :=
  match neturl_Parse E u with
  | None => fallback_name u
  | Some parsed =>
      let p := Path parsed in
      if String.eqb p "" || String.eqb p "/" then fallback_name u
      else
        let segs := strings_Split p "/" in
        let name := List.last segs "" in
        if String.eqb name "" then fallback_name u else name
  end.

Definition GetFileSize (E : Env) (url : string) : Z + error :=
  match http_Head E url with
  | None => inr ErrHeadRequest
  | Some resp =>
      if negb (StatusCode resp =? 200) then inr (ErrBadStatus (StatusCode resp))
      else inl (ContentLength resp)
  end.

(** [DownloadFile] is taken by its result: the request, the choice of the
    final name and the write into the downloads directory are the
    environment's. *)
Definition DownloadFile (E : Env) (url filename : string) : string + error :=
  match download E url filename with
  | Some finalName => inl finalName
  | None => inr ErrDownload
  end.

End Downloader.

(** ** internal/service: WorkerPool *)

Module WorkerPool.

(** [File] is [&files[i]]: the object that owns the slice, and [i]. *)
Record DownloadTask := {
  File : loc * nat;
  TaskID : string
}.

(** A buffered channel of download tasks. *)
Record Chan := {
  buf : list DownloadTask;
  cap : nat;
  closed : bool
}.

(** [ctx_done] says that the pool's context is cancelled, [tm] that the
    task manager pointer is not nil, [once] that [once.Do] has run. *)
Record t := {
  workers : Z;
  taskChan : Chan;
  ctx_done : bool;
  tm : bool;
  once : bool
}.

Definition NewWorkerPool (workers : Z) (tm : bool) : t :=
  Build_t workers (Build_Chan [] (Z.to_nat (workers * 2)) false) false tm false.

(** The pool's context is a child of [ctx]: it is cancelled from the start
    when [ctx] is. *)
Definition NewWorkerPoolWithContext (ctx_cancelled : bool) (workers : Z) (tm : bool) : t :=
  Build_t workers (Build_Chan [] (Z.to_nat (workers * 2)) false) ctx_cancelled tm false.

(** The parent context of the pool is cancelled. *)
Definition parent_cancelled (wp : t) : t :=
  Build_t (workers wp) (taskChan wp) true (tm wp) (once wp).

(** [Stop()]: cancel, close the channel once.  (Waiting for the workers is
    not modelled.) *)
Definition Stop (wp : t) : t :=
  let ch := taskChan wp in
  let ch' := if once wp then ch else Build_Chan (buf ch) (cap ch) true in
  Build_t (workers wp) ch' true (tm wp) true.

Inductive select_case := case_send | case_done.

(** A send can proceed when the buffer has room, and also when the channel
    is closed: it then panics. *)
Definition send_ready (ch : Chan) : bool :=
  closed ch || (length (buf ch) <? cap ch)%nat.

Definition ready_cases (wp : t) : list select_case :=
  (if send_ready (taskChan wp) then [case_send] else [])
  ++ (if ctx_done wp then [case_done] else []).

Inductive outcome :=
| Enqueued    (* "Task added to queue" *)
| Rejected    (* "Worker pool stopped, cannot add task" *)
| Dropped     (* "Task queue full, dropping task" *)
| Panicked.   (* send on closed channel *)

(** [AddTask(task)]: a [select] with a send case, a receive from
    [ctx.Done()] and a default.  When several cases can proceed the runtime
    picks one of them at random: [pick] is that choice. *)
Definition AddTask (pick : nat) (task : DownloadTask) (wp : t) : outcome * t :=
  let ready := ready_cases wp in
  match ready !! (pick mod length ready)%nat with
  | None => (Dropped, wp)
  | Some case_done => (Rejected, wp)
  | Some case_send =>
      let ch := taskChan wp in
      if closed ch then (Panicked, wp)
      else
        (Enqueued,
         Build_t (workers wp) (Build_Chan (buf ch ++ [task]) (cap ch) false)
           (ctx_done wp) (tm wp) (once wp))
  end.

(** Reads and writes through [&files[i]]. *)
Definition file_at (p : loc * nat) (w : World) : option File.t :=
  match heap w !! p.1 with
  | Some t => Task.Files t !! p.2
  | None => None
  end.

Definition update_file (p : loc * nat) (g : File.t -> File.t) (w : World) : World :=
  with_heap
    (alter (fun t => Task.with_Files (alter g p.2 (Task.Files t)) t) p.1 (heap w)) w.

(** The owning object after the file at index [i] has been replaced. *)
Definition put_file (i : nat) (f : File.t) (t : Task.t) : Task.t :=
  Task.with_Files (<[i := f]> (Task.Files t)) t.

(** The loop over the files of a task, with its four accumulators. *)
Record scan_state := {
  totalSize : Z;
  downloaded : Z;
  allCompleted : bool;
  anyInProgress : bool
}.

Definition scan_step (a : scan_state) (f : File.t) : scan_state :=
  {| totalSize := Int64.add (totalSize a) (File.Size f);
     downloaded := Int64.add (downloaded a) (File.Downloaded f);
     allCompleted :=
       if negb (String.eqb (File.Status f) domain.StatusCompleted) then false
       else allCompleted a;
     anyInProgress :=
       if String.eqb (File.Status f) domain.StatusDownloading then true
       else anyInProgress a |}.

Definition scan (fs : list File.t) : scan_state :=
  fold_left scan_step fs
    {| totalSize := 0; downloaded := 0; allCompleted := true; anyInProgress := false |}.

Definition count_completed (fs : list File.t) : Z :=
  fold_left
    (fun completed f =>
       if String.eqb (File.Status f) domain.StatusCompleted then completed + 1
       else completed)
    fs 0.

Definition is_completed (f : File.t) : bool :=
  String.eqb (File.Status f) domain.StatusCompleted.
Definition is_downloading (f : File.t) : bool :=
  String.eqb (File.Status f) domain.StatusDownloading.

(** [int(float64(num) / float64(den) * 100)] *)
Definition percent (num den : Z) : Z :=
  Float64.to_int64
    (Float64.mul (Float64.div (Float64.of_int64 num) (Float64.of_int64 den))
       Float64.hundred).

(** What [updateTaskProgress] assigns to the task it found. *)
Definition aggregate (task : Task.t) : Task.t :=
  let a := scan (Task.Files task) in
  let n := Z.of_nat (length (Task.Files task)) in
  let progress :=
    if 0 <? totalSize a then percent (downloaded a) (totalSize a)
    else if 0 <? n then percent (count_completed (Task.Files task)) n
    else Task.Progress task in
  let status :=
    if allCompleted a then domain.StatusCompleted
    else if anyInProgress a then domain.StatusDownloading
    else if 0 <? progress then domain.StatusDownloading
    else domain.StatusPending in
  Task.with_Status status (Task.with_Progress progress task).

Definition updateTaskProgress (E : Env) (io : SaveFault) (wp : t) (taskID : string)
    (w : World) : World :=
  if negb (tm wp) then w
  else
    match TaskManager.GetTask taskID w with
    | None => w
    | Some task =>
        match heap w !! task with
        | None => w
        | Some t =>
            let w1 := with_heap (<[task := aggregate t]> (heap w)) w in
            fst (TaskManager.UpdateTask E io task w1)
        end
    end.

Definition processTask (E : Env) (io : SaveFault) (wp : t) (task : DownloadTask)
    (w : World) : World :=
  let file := File task in
  match file_at file w with
  | None => w
  | Some f =>
      let url := File.URL f in
      let w := update_file file (File.with_Status domain.StatusDownloading) w in
      match Downloader.GetFileSize E url with
      | inr _ => update_file file (File.with_Status domain.StatusFailed) w
      | inl size =>
          let w := update_file file (File.with_Size size) w in
          let filename := Downloader.ExtractFilename E url in
          match Downloader.DownloadFile E url filename with
          | inr _ => update_file file (File.with_Status domain.StatusFailed) w
          | inl savedName =>
              let w :=
                update_file file
                  (fun f =>
                     File.with_Filename savedName
                       (File.with_Downloaded (File.Size f)
                          (File.with_Status domain.StatusCompleted f))) w in
              updateTaskProgress E io wp (TaskID task) w
          end
      end
  end.

(** A loop that calls [AddTask] on each unit in turn; [pick i] is the choice
    of the [select] of the [i]-th call.  A panic ends the loop. *)
Fixpoint add_each (pick : nat -> nat) (i : nat) (units : list DownloadTask) (wp : t)
  : list outcome * t :=
  match units with
  | [] => ([], wp)
  | task :: rest =>
      match AddTask (pick i) task wp with
      | (Panicked, wp') => ([Panicked], wp')
      | (o, wp') =>
          let '(os, wp'') := add_each pick (S i) rest wp' in (o :: os, wp'')
      end
  end.

(** Whether one of the calls panicked. *)
Definition panicked (outcomes : list outcome) : bool :=
  existsb (fun o => match o with Panicked => true | _ => false end) outcomes.

(** The units of [ProcessFiles(taskID, files)], where the slice [files] is
    the [Files] of the object at [files]. *)
Definition files_units (taskID : string) (files : loc) (w : World) : list DownloadTask :=
  match heap w !! files with
  | None => []
  | Some t =>
      map (fun i => {| File := (files, i); TaskID := taskID |})
        (seq 0 (length (Task.Files t)))
  end.

Definition ProcessFiles (pick : nat -> nat) (taskID : string) (files : loc) (w : World)
    (wp : t) : list outcome * t :=
  add_each pick 0 (files_units taskID files w) wp.

(** The units of [ResumeTasks(tasks)]: the files that are not completed, task
    by task. *)
Definition resume_units (tasks : list loc) (w : World) : list DownloadTask :=
  flat_map
    (fun task =>
       match heap w !! task with
       | None => []
       | Some t =>
           flat_map
             (fun i =>
                match Task.Files t !! i with
                | Some f =>
                    if negb (String.eqb (File.Status f) domain.StatusCompleted)
                    then [{| File := (task, i); TaskID := Task.ID t |}]
                    else []
                | None => []
                end)
             (seq 0 (length (Task.Files t)))
       end)
    tasks.

Definition ResumeTasks (pick : nat -> nat) (tasks : list loc) (w : World) (wp : t)
  : list outcome * t :=
  add_each pick 0 (resume_units tasks w) wp.

(** The [select] of [worker]: a receive from the channel and a receive
    from [ctx.Done()], without a default.  A receive can proceed when the
    buffer holds a unit and when the channel is closed. *)
Inductive worker_case := case_receive | case_cancelled.

Definition receive_ready (ch : Chan) : bool :=
  closed ch || (0 <? length (buf ch))%nat.

Definition worker_cases (wp : t) : list worker_case :=
  (if receive_ready (taskChan wp) then [case_receive] else [])
  ++ (if ctx_done wp then [case_cancelled] else []).

Inductive worker_exit :=
| ChannelClosed       (* "Worker channel closed" *)
| ContextCancelled.   (* "Worker context cancelled" *)

(** One turn of the loop of [worker]: the worker waits, returns, or has
    processed the unit at the head of the buffer. *)
Inductive iteration :=
| Waits
| Returns (why : worker_exit)
| Continues (wp' : t) (w' : World).

Definition worker_iteration (E : Env) (io : SaveFault) (pick : nat) (wp : t) (w : World)
  : iteration :=
  let ready := worker_cases wp in
  match ready !! (pick mod length ready)%nat with
  | None => Waits
  | Some case_cancelled => Returns ContextCancelled
  | Some case_receive =>
      let ch := taskChan wp in
      match buf ch with
      | [] => Returns ChannelClosed
      | task :: rest =>
          Continues
            (Build_t (workers wp) (Build_Chan rest (cap ch) (closed ch))
               (ctx_done wp) (tm wp) (once wp))
            (processTask E io wp task w)
      end
  end.

(** A worker that runs alone for at most [fuel] turns, from its [i]-th
    turn on. *)
Inductive run :=
| Exited (why : worker_exit) (wp : t) (w : World)
| Waiting (wp : t) (w : World)
| Running (wp : t) (w : World).

Fixpoint worker (E : Env) (io : nat -> SaveFault) (pick : nat -> nat) (fuel i : nat)
    (wp : t) (w : World) : run :=
  match fuel with
  | O => Running wp w
  | S fuel' =>
      match worker_iteration E (io i) (pick i) wp w with
      | Waits => Waiting wp w
      | Returns why => Exited why wp w
      | Continues wp' w' => worker E io pick fuel' (S i) wp' w'
      end
  end.

(** The units of a list processed one after the other, the [i]-th write
    with the fault [io i]. *)
Fixpoint process_each (E : Env) (io : nat -> SaveFault) (i : nat) (wp : t)
    (units : list DownloadTask) (w : World) : World :=
  match units with
  | [] => w
  | task :: rest => process_each E io (S i) wp rest (processTask E (io i) wp task w)
  end.

(** The pool with another buffer. *)
Definition with_buf (l : list DownloadTask) (wp : t) : t :=
  Build_t (workers wp) (Build_Chan l (cap (taskChan wp)) (closed (taskChan wp)))
    (ctx_done wp) (tm wp) (once wp).

(** [ProcessFiles] beside the workers that [Start] has launched.  Before
    the [i]-th [AddTask] of the loop the workers receive [takes i] units
    from the head of the queue and process them; [takes] is the schedule of
    the run, and a schedule of zeros is a run in which no worker receives
    while the loop runs. *)
Fixpoint add_each_among (E : Env) (io : nat -> SaveFault) (takes pick : nat -> nat) (i : nat)
    (units : list DownloadTask) (wp : t) (w : World) : list outcome * t * World :=
  match units with
  | [] => ([], wp, w)
  | task :: rest =>
      let queue := buf (taskChan wp) in
      let w0 := process_each E io 0 wp (take (takes i) queue) w in
      match AddTask (pick i) task (with_buf (drop (takes i) queue) wp) with
      | (Panicked, wp') => ([Panicked], wp', w0)
      | (o, wp') =>
          let '(os, wp'', w'') := add_each_among E io takes pick (S i) rest wp' w0 in
          (o :: os, wp'', w'')
      end
  end.

Definition ProcessFiles_among (E : Env) (io : nat -> SaveFault) (takes pick : nat -> nat)
    (taskID : string) (files : loc) (w : World) (wp : t) : list outcome * t * World :=
  add_each_among E io takes pick 0 (files_units taskID files w) wp w.

End WorkerPool.

(** ** internal/service: GracefulShutdown *)

Module GracefulShutdown.




End GracefulShutdown.

(** ** internal/handler: TaskHandler *)

Module TaskHandler.

Inductive Body :=
| Text (message : string)                       (* http.Error *)
| CreateTaskResponse (TaskID : string)
| TaskStatusResponse (ID : string) (Status : string) (Progress : Z) (Files : list File.t).

(** What the client gets: a status code and a body, or nothing when the
    handler panics and the server drops the connection. *)
Inductive Reply :=
| Answers (code : Z) (body : Body)
| Aborts.

(** [CreateTask(w, r)]; [req] is the decoded body of the request, [None] when
    it does not decode, and [wp] the pool of the handler, [None] for nil. *)
Definition CreateTask (E : Env) (now : Z) (io : SaveFault) (pick : nat -> nat)
    (req : option (list string)) (wp : option WorkerPool.t) (w : World)
  : World * option WorkerPool.t * Reply :=
  match req with
  | None => (w, wp, Answers 400 (Text "Invalid JSON"))
  | Some urls =>
      if (length urls =? 0)%nat
      then (w, wp, Answers 400 (Text "URLs array cannot be empty"))
      else
        match TaskManager.CreateTask E now io urls w with
        | (w', (_, Some _)) => (w', wp, Answers 500 (Text "Failed to create task"))
        | (w', (None, None)) => (w', wp, Aborts)
        | (w', (Some task, None)) =>
            match heap w' !! task with
            | None => (w', wp, Aborts)
            | Some t =>
                match wp with
                | None => (w', None, Answers 200 (CreateTaskResponse (Task.ID t)))
                | Some pool =>
                    let '(outcomes, pool') :=
                      WorkerPool.ProcessFiles pick (Task.ID t) task w' pool in
                    if WorkerPool.panicked outcomes
                    then (w', Some pool', Aborts)
                    else (w', Some pool', Answers 200 (CreateTaskResponse (Task.ID t)))
                end
            end
        end
  end.

(** [CreateTask(w, r)] beside running workers: the loop of [ProcessFiles]
    runs under the schedule [takes] of [WorkerPool.ProcessFiles_among], and
    [wio] gives the faults of the writes of the workers. *)
Definition CreateTask_among (E : Env) (now : Z) (io : SaveFault) (wio : nat -> SaveFault)
    (takes pick : nat -> nat) (req : option (list string)) (wp : option WorkerPool.t)
    (w : World) : World * option WorkerPool.t * Reply :=
  match req with
  | None => (w, wp, Answers 400 (Text "Invalid JSON"))
  | Some urls =>
      if (length urls =? 0)%nat
      then (w, wp, Answers 400 (Text "URLs array cannot be empty"))
      else
        match TaskManager.CreateTask E now io urls w with
        | (w', (_, Some _)) => (w', wp, Answers 500 (Text "Failed to create task"))
        | (w', (None, None)) => (w', wp, Aborts)
        | (w', (Some task, None)) =>
            match heap w' !! task with
            | None => (w', wp, Aborts)
            | Some t =>
                match wp with
                | None => (w', None, Answers 200 (CreateTaskResponse (Task.ID t)))
                | Some pool =>
                    let '(outcomes, pool', w'') :=
                      WorkerPool.ProcessFiles_among E wio takes pick (Task.ID t) task w' pool in
                    if WorkerPool.panicked outcomes
                    then (w'', Some pool', Aborts)
                    else (w'', Some pool', Answers 200 (CreateTaskResponse (Task.ID t)))
                end
            end
        end
  end.

(** [GetTaskStatus(w, r)] for the request of [/tasks/{taskID}/status]. *)
Definition GetTaskStatus (taskID : string) (w : World) : Reply :=
  match TaskManager.GetTask taskID w with
  | None => Answers 404 (Text "Task not found")
  | Some task =>
      match heap w !! task with
      | None => Aborts
      | Some t =>
          Answers 200
            (TaskStatusResponse (Task.ID t) (Task.Status t) (Task.Progress t) (Task.Files t))
      end
  end.

End TaskHandler.

(** ** internal/config *)

Module config.

Record ServerConfig := { Port : Z }.
Record WorkerConfig := { Count : Z }.
Record LoggingConfig := { Level : string; Format : string; DebugMode : bool }.

Record Config := {
  Server : ServerConfig;
  Worker : WorkerConfig;
  Logging : LoggingConfig
}.

Definition DefaultConfig : Config :=
  {| Server := {| Port := 8080 |};
     Worker := {| Count := 3 |};
     Logging := {| Level := "info"; Format := "json"; DebugMode := false |} |}.

Inductive config_error :=
| ErrLoadYAML                       (* "failed to load config.yaml" *)
| ErrServerPort (port : Z)          (* "invalid server port" *)
| ErrWorkerCount (count : Z)        (* "worker count must be positive" *)
| ErrLogLevel (level : string)      (* "invalid log level" *)
| ErrLogFormat (format : string).   (* "invalid log format" *)

(** What [loadFromYAML] finds: no file, a file that cannot be read or
    parsed, or a document, which overwrites the fields it names. *)
Inductive YamlFile :=
| NoFile
| FileUnreadable
| FileUnparsable
| FileParsed (overlay : Config -> Config).

(** The process environment, [strings.ToLower], and [config.yaml]. *)
Record Host := {
  os_Getenv : string -> string;
  strings_ToLower : string -> string;
  config_yaml : YamlFile
}.

(** [strconv.Atoi]: an optional sign and at least one decimal digit, within
    the range of [int]; [None] for an error. *)
Definition digit_value (c : ascii) : option Z :=
  let n := Z.of_N (N_of_ascii c) - 48 in
  if (0 <=? n) && (n <=? 9) then Some n else None.

Fixpoint parse_digits (s : string) (acc : Z) : option Z :=
  match s with
  | EmptyString => Some acc
  | String c rest =>
      match digit_value c with
      | Some d => parse_digits rest (acc * 10 + d)
      | None => None
      end
  end.

Definition strconv_Atoi (s : string) : option Z :=
  let '(negative, digits) :=
    match s with
    | String "-" rest => (true, rest)
    | String "+" rest => (false, rest)
    | _ => (false, s)
    end in
  match digits with
  | EmptyString => None
  | _ =>
      match parse_digits digits 0 with
      | Some n =>
          let v := if negative : bool then - n else n in
          if (Int64.min_int <=? v) && (v <=? Int64.max_int) then Some v else None
      | None => None
      end
  end.

Definition with_Port (p : Z) (c : Config) : Config :=
  {| Server := {| Port := p |}; Worker := Worker c; Logging := Logging c |}.
Definition with_Count (n : Z) (c : Config) : Config :=
  {| Server := Server c; Worker := {| Count := n |}; Logging := Logging c |}.
Definition with_Level (s : string) (c : Config) : Config :=
  {| Server := Server c; Worker := Worker c;
     Logging := {| Level := s; Format := Format (Logging c);
                   DebugMode := DebugMode (Logging c) |} |}.
Definition with_Format (s : string) (c : Config) : Config :=
  {| Server := Server c; Worker := Worker c;
     Logging := {| Level := Level (Logging c); Format := s;
                   DebugMode := DebugMode (Logging c) |} |}.
Definition with_DebugMode (b : bool) (c : Config) : Config :=
  {| Server := Server c; Worker := Worker c;
     Logging := {| Level := Level (Logging c); Format := Format (Logging c);
                   DebugMode := b |} |}.

Definition loadFromEnv (H : Host) (config : Config) : Config :=
  let config :=
    let port := os_Getenv H "SERVER_PORT" in
    if negb (String.eqb port "") then
      match strconv_Atoi port with
      | Some p => with_Port p config
      | None => config
      end
    else config in
  let config :=
    let count := os_Getenv H "WORKER_COUNT" in
    if negb (String.eqb count "") then
      match strconv_Atoi count with
      | Some c => if 0 <? c then with_Count c config else config
      | None => config
      end
    else config in
  let config :=
    let level := os_Getenv H "LOG_LEVEL" in
    if negb (String.eqb level "") then with_Level (strings_ToLower H level) config
    else config in
  let config :=
    let format := os_Getenv H "LOG_FORMAT" in
    if negb (String.eqb format "") then with_Format (strings_ToLower H format) config
    else config in
  let debug := os_Getenv H "DEBUG" in
  if negb (String.eqb debug "")
  then with_DebugMode (String.eqb debug "true" || String.eqb debug "1") config
  else config.

Definition validLogLevels : list string := ["debug"; "info"; "warn"; "error"].
Definition validLogFormats : list string := ["json"; "text"].

Definition validateConfig (config : Config) : option config_error :=
  if (Port (Server config) <=? 0) || (65535 <? Port (Server config))
  then Some (ErrServerPort (Port (Server config)))
  else if Count (Worker config) <=? 0
  then Some (ErrWorkerCount (Count (Worker config)))
  else if negb (existsb (String.eqb (Level (Logging config))) validLogLevels)
  then Some (ErrLogLevel (Level (Logging config)))
  else if negb (existsb (String.eqb (Format (Logging config))) validLogFormats)
  then Some (ErrLogFormat (Format (Logging config)))
  else None.

Definition LoadConfig (H : Host) : Config + config_error :=
  match
    match config_yaml H with
    | NoFile => Some DefaultConfig
    | FileParsed overlay => Some (overlay DefaultConfig)
    | FileUnreadable | FileUnparsable => None
    end
  with
  | None => inr ErrLoadYAML
  | Some config =>
      let config := loadFromEnv H config in
      match validateConfig config with
      | Some err => inr err
      | None => inl config
      end
  end.

(** [fmt.Sprintf(":%d", c.Server.Port)] *)
Definition GetServerAddr (c : Config) : string := ":" +:+ pretty (Port (Server c)).

Definition IsDebugMode (c : Config) : bool :=
  DebugMode (Logging c) || String.eqb (Level (Logging c)) "debug".

End config.

(** ** Vocabulary of the properties of the registry *)

Module Registry.

(** The pointer [p] is registered under some key. *)
Definition registered (p : loc) (w : World) : Prop := exists k, tasks w !! k = Some p.

(** Every task is registered under its own ID, as in a registry filled by
    [CreateTask] and [UpdateTask]. *)
Definition keys_are_IDs (w : World) : Prop :=
  forall k p t, tasks w !! k = Some p -> heap w !! p = Some t -> Task.ID t = k.

(** Distinct IDs are saved under distinct paths of the state directory. *)
Definition paths_apart (E : Env) (w : World) : Prop :=
  forall a b,
    filepath_Join E (stateDir w) (a +:+ ".json") = filepath_Join E (stateDir w) (b +:+ ".json") ->
    a = b.

End Registry.

(** ** Vocabulary of the specification *)

Module Claims.

(** C1 as the specification words it: a failed save leaves no trace of the
    task in the registry. *)
Definition C1_as_stated : Prop :=
  forall E now io urls w,
    io <> NoFault ->
    let '(w', (_, err)) := TaskManager.CreateTask E now io urls w in
    err <> None /\
    TaskManager.GetTask (TaskManager.generateTaskID now) w' = None /\
    TaskManager.GetAllTasks w' !! TaskManager.generateTaskID now = None.

(** C2 as the specification words it: whatever the files hold, the progress
    after a pass is a percentage. *)
Definition C2_as_stated : Prop :=
  forall E io wp taskID w p t,
    WorkerPool.tm wp = true ->
    TaskManager.GetTask taskID w = Some p ->
    heap w !! p = Some t ->
    exists t', heap (WorkerPool.updateTaskProgress E io wp taskID w) !! p = Some t' /\
               0 <= Task.Progress t' <= 100.

(** C3 as the specification words it: a task without files stays pending. *)
Definition C3_as_stated : Prop :=
  forall E io wp taskID w p t,
    WorkerPool.tm wp = true ->
    TaskManager.GetTask taskID w = Some p ->
    heap w !! p = Some t ->
    Task.Files t = [] -> Task.Progress t = 0 -> Task.Status t = domain.StatusPending ->
    exists t', heap (WorkerPool.updateTaskProgress E io wp taskID w) !! p = Some t' /\
               Task.Progress t' = 0 /\ Task.Status t' = domain.StatusPending.

(** The sum of the sizes of the files, as a mathematical integer. *)
Definition sum_Size (fs : list File.t) : Z := foldr (fun f acc => File.Size f + acc) 0 fs.

(** The status derivation of the specification, in its priority order. *)
Definition status_by_priority (files : list File.t) (progress : Z) : domain.Status :=
  if forallb WorkerPool.is_completed files then domain.StatusCompleted
  else if existsb WorkerPool.is_downloading files then domain.StatusDownloading
  else if 0 <? progress then domain.StatusDownloading
  else domain.StatusPending.

(** The state the concrete scenario of C5 ends in, for the task at [p]. *)
Definition scenario_outcome (p : loc) (w : World) : Prop :=
  exists t f0 f1,
    heap w !! p = Some t /\ Task.Files t = [f0; f1] /\
    File.Status f0 = domain.StatusCompleted /\ File.Size f0 = 2 /\
    File.Status f1 = domain.StatusFailed /\
    Task.Status t = domain.StatusDownloading.

(** C5 as the specification words it: the status follows the priority
    rule, and in particular a task of two files, file 0 completed with its
    two bytes and file 1 failed, is downloading after the pass. *)
Definition C5_as_stated : Prop :=
  forall E io wp taskID w p t,
    WorkerPool.tm wp = true ->
    TaskManager.GetTask taskID w = Some p ->
    heap w !! p = Some t ->
    exists t',
      heap (WorkerPool.updateTaskProgress E io wp taskID w) !! p = Some t' /\
      Task.Files t' = Task.Files t /\
      Task.Status t' = status_by_priority (Task.Files t) (Task.Progress t') /\
      forall f0 f1,
        Task.Files t = [f0; f1] ->
        File.Status f0 = domain.StatusCompleted ->
        File.Size f0 = 2 -> File.Downloaded f0 = 2 ->
        File.Status f1 = domain.StatusFailed -> File.Downloaded f1 = 0 ->
        Task.Status t' = domain.StatusDownloading.

(** C7 as the specification words it: every incomplete task of the
    registry is reset and persisted, and of a completed task nothing
    changes: not its object, not what the registry holds under its key, not
    its file, and the store is not called for it. *)
Definition C7_as_stated : Prop :=
  forall E io range w k p t,
    (forall l, range l ≡ₚ l) ->
    TaskManager.GetTask k w = Some p ->
    heap w !! p = Some t ->
    let w' := (TaskManager.RecoverIncompleteTasks E io range w).1 in
    let path := filepath_Join E (stateDir w) (Task.ID t +:+ ".json") in
    (TaskManager.incomplete t = true ->
     heap w' !! p = Some (TaskManager.reset_task t) /\
     (io k = NoFault -> files (fs w') !! path = Some (Doc (TaskManager.reset_task t)))) /\
    (Task.Status t = domain.StatusCompleted ->
     heap w' !! p = Some t /\
     TaskManager.GetTask k w' = Some p /\
     files (fs w') !! path = files (fs w) !! path /\
     forall c, c ∈ saves w' -> sc_ptr c = p -> c ∈ saves w).

End Claims.

Module Paths.

Definition last_segment (p : string) : string := List.last (strings_Split p "/") "".

Fixpoint ends_in_slash (p : string) : bool :=
  match p with
  | EmptyString => false
  | String c EmptyString => Ascii.eqb c "/"
  | String _ p' => ends_in_slash p'
  end.

(** Whether the byte [c] occurs in [s]. *)
Fixpoint contains_byte (c : ascii) (s : string) : bool :=
  match s with
  | EmptyString => false
  | String x s' => Ascii.eqb x c || contains_byte c s'
  end.

End Paths.

(** ** Concrete environments and worlds, for examples *)

Module Fixtures.

Definition join (dir name : string) : string := dir +:+ "/" +:+ name.

(** The path of a plain [scheme://host/path?query#fragment] URL. *)
Fixpoint upto_query (s : string) : string :=
  match s with
  | EmptyString => EmptyString
  | String c s' =>
      if Ascii.eqb c "?" || Ascii.eqb c "#" then EmptyString
      else String c (upto_query s')
  end.

Fixpoint from_slash (s : string) : string :=
  match s with
  | EmptyString => EmptyString
  | String c s' => if Ascii.eqb c "/" then s else from_slash s'
  end.

Definition plain_path (u : string) : string :=
  let rest :=
    match index 0 "://" u with
    | Some i => substring (i + 3) (String.length u - (i + 3)) u
    | None => u
    end in
  upto_query (from_slash rest).

Definition urlA : string := "http://a.test/hi.txt".
Definition urlB : string := "http://b.test/missing".

(** [urlA] answers 200 with a two-byte body, every other URL answers 404. *)
Definition env : Env :=
  {| filepath_Join := join;
     neturl_Parse := fun u => Some {| Path := plain_path u |};
     http_Head := fun u =>
       if String.eqb u urlA then Some {| StatusCode := 200; ContentLength := 2 |}
       else Some {| StatusCode := 404; ContentLength := 0 |};
     download := fun u filename => if String.eqb u urlA then Some filename else None |}.

Definition empty_world : World :=
  {| heap := ∅; tasks := ∅; stateDir := "state";
     fs := {| dirs := ∅; files := ∅ |}; saves := [] |}.

Definition file (url : string) (status : domain.Status) (size downloaded : Z) : File.t :=
  File.mk url (TaskManager.extractFilename url) status size downloaded 0.

(** A world whose registry holds the one task [t] under its ID. *)
Definition world_with (t : Task.t) : World :=
  {| heap := {[ 1%positive := t ]}; tasks := {[ Task.ID t := 1%positive ]};
     stateDir := "state"; fs := {| dirs := ∅; files := ∅ |}; saves := [] |}.

(** One file completed with a known size, one failed after a probe that
    reported an unknown length. *)
Definition task_mixed : Task.t :=
  Task.mk "task_1" [urlA; urlB] domain.StatusDownloading
    [file urlA domain.StatusCompleted 10 10; file urlB domain.StatusFailed (-1) 0]
    0 0.

(** One file completed, one not started yet, both with known sizes. *)
Definition task_quarter : Task.t :=
  Task.mk "task_1" [urlA; urlB] domain.StatusDownloading
    [file urlA domain.StatusCompleted 10 10; file urlB domain.StatusPending 30 0]
    0 0.

(** Every file completed, one of them of unknown size. *)
Definition task_done : Task.t :=
  Task.mk "task_1" [urlA; urlB] domain.StatusDownloading
    [file urlA domain.StatusCompleted 10 10; file urlB domain.StatusCompleted (-1) (-1)]
    0 0.

Definition task_no_files : Task.t :=
  Task.mk "task_2" [] domain.StatusPending [] 0 0.

(** A registry after a restart: one task interrupted while downloading, with
    a completed, a failed and a downloading file, and one completed task. *)
Definition task_interrupted : Task.t :=
  Task.mk "task_7" [urlA; urlB; urlB] domain.StatusDownloading
    [file urlA domain.StatusCompleted 2 2; file urlB domain.StatusFailed 0 0;
     file urlB domain.StatusDownloading 5 0]
    0 100.

Definition task_finished : Task.t :=
  Task.mk "task_8" [urlA] domain.StatusCompleted
    [file urlA domain.StatusCompleted 2 2] 0 100.

Definition world_restarted : World :=
  {| heap := {[ 1%positive := task_interrupted; 2%positive := task_finished ]};
     tasks := {[ "task_7" := 1%positive; "task_8" := 2%positive ]};
     stateDir := "state"; fs := {| dirs := ∅; files := ∅ |}; saves := [] |}.

Definition pool : WorkerPool.t := WorkerPool.NewWorkerPool 1 true.

Definition unit_A : WorkerPool.DownloadTask :=
  {| WorkerPool.File := (1%positive, 0%nat); WorkerPool.TaskID := "task_1" |}.

(** The world after [task_done] has been saved into an empty state
    directory, and a listing of that directory beside other entries. *)
Definition world_saved : World :=
  (TaskStorage.SaveTask env NoFault 1%positive (world_with task_done)).1.

Definition listing : list DirEntry :=
  [ {| Name := "archive"; IsDir := true |};
    {| Name := "notes.txt"; IsDir := false |};
    {| Name := "task_1.json"; IsDir := false |} ].

(** No file of the state directory refuses to be read. *)
Definition all_readable : string -> bool := fun _ => false.

(** A host without [config.yaml] whose environment sets the port, a worker
    count that is not positive, and the log level in capitals. *)
Definition ascii_lower (c : ascii) : ascii :=
  let n := N_of_ascii c in
  if (65 <=? n)%N && (n <=? 90)%N then ascii_of_N (n + 32) else c.

Fixpoint lower (s : string) : string :=
  match s with
  | EmptyString => EmptyString
  | String c s' => String (ascii_lower c) (lower s')
  end.

Definition host : config.Host :=
  {| config.os_Getenv := fun k =>
       if String.eqb k "SERVER_PORT" then "9090"
       else if String.eqb k "WORKER_COUNT" then "0"
       else if String.eqb k "LOG_LEVEL" then "WARN"
       else "";
     config.strings_ToLower := lower;
     config.config_yaml := config.NoFile |}.

(** One file completed with its two bytes, one failed after a probe that
    reported 1000 bytes. *)
Definition task_large_failure : Task.t :=
  Task.mk "task_1" [urlA; urlB] domain.StatusDownloading
    [file urlA domain.StatusCompleted 2 2; file urlB domain.StatusFailed 1000 0]
    0 0.

(** [urlA] answers 200 with a two-byte body; every other URL answers its
    probe with 200 and 1000 bytes, and its download fails. *)
Definition env_download_fails : Env :=
  {| filepath_Join := join;
     neturl_Parse := fun u => Some {| Path := plain_path u |};
     http_Head := fun u =>
       if String.eqb u urlA then Some {| StatusCode := 200; ContentLength := 2 |}
       else Some {| StatusCode := 200; ContentLength := 1000 |};
     download := fun u filename => if String.eqb u urlA then Some filename else None |}.

(** A registry loaded from a state directory in which the file [copy.json]
    holds an interrupted task with the ID of the finished task of
    [task_8.json]. *)
Definition task_copy : Task.t :=
  Task.mk "task_8" [urlB] domain.StatusDownloading
    [file urlB domain.StatusDownloading 5 1] 0 20.

Definition fs_shared_ID : FileSystem :=
  {| dirs := {[ "state" ]};
     files := {[ "state/task_8.json" := Doc task_finished;
                 "state/copy.json" := Doc task_copy ]} |}.

Definition listing_shared_ID : list DirEntry :=
  [ {| Name := "copy.json"; IsDir := false |};
    {| Name := "task_8.json"; IsDir := false |} ].

Definition world_shared_ID : World :=
  {| heap := {[ 1%positive := task_copy; 2%positive := task_finished ]};
     tasks := {[ "copy" := 1%positive; "task_8" := 2%positive ]};
     stateDir := "state";
     fs := fs_shared_ID;
     saves := [] |}.

End Fixtures.

(** * Facts *)

(** ** Facts about binary64 rounding *)

Module Float64Facts.
Import Float64.

Lemma iter_pos_nat {A} (f : A -> A) (p : positive) (x : A) :
  SpecFloat.iter_pos f p x = Nat.iter (Pos.to_nat p) f x.
Proof.
  revert x. induction p as [p IH|p IH|]; intros x; cbn [SpecFloat.iter_pos].
  - rewrite !IH, Pos2Nat.inj_xI.
    replace (S (2 * Pos.to_nat p))%nat with (Pos.to_nat p + (Pos.to_nat p + 1))%nat by lia.
    rewrite !Nat.iter_add. reflexivity.
  - rewrite !IH, Pos2Nat.inj_xO.
    replace (2 * Pos.to_nat p)%nat with (Pos.to_nat p + Pos.to_nat p)%nat by lia.
    rewrite Nat.iter_add. reflexivity.
  - reflexivity.
Qed.

Lemma shr_1_nonneg m r s :
  0 <= m ->
  shr_1 (Build_shr_record m r s) = Build_shr_record (m / 2) (Z.odd m) (r || s).
Proof.
  intros Hm. rewrite <- Z.div2_div.
  destruct m as [|[p|p|]|]; try lia; reflexivity.
Qed.

Lemma mod_pow2_succ m n :
  0 <= n ->
  m mod 2 ^ (n + 1) = m mod 2 ^ n + 2 ^ n * Z.b2z (Z.testbit m n).
Proof.
  intros Hn. rewrite Z.pow_add_r by lia. change (2 ^ 1) with 2.
  rewrite Z.rem_mul_r by lia.
  rewrite Z.testbit_spec' by lia. reflexivity.
Qed.

(** [n] one-bit right shifts: the quotient, the last bit shifted out, and
    whether anything before it was not zero. *)
Lemma shr_n_spec m r s (n : nat) :
  0 <= m -> (1 <= n)%nat ->
  Nat.iter n shr_1 (Build_shr_record m r s) =
  Build_shr_record (m / 2 ^ Z.of_nat n) (Z.testbit m (Z.of_nat n - 1))
                   (r || s || negb (m mod 2 ^ (Z.of_nat n - 1) =? 0)).
Proof.
  intros Hm Hn. induction n as [|n IH]; [lia|].
  destruct (Nat.eq_dec n 0%nat) as [->|Hn0].
  - change (Nat.iter 1 shr_1 ?x) with (shr_1 x). rewrite shr_1_nonneg by lia.
    change (Z.of_nat 1 - 1) with 0. change (2 ^ 0) with 1.
    rewrite Z.mod_1_r, Z.bit0_odd. simpl. rewrite orb_false_r. reflexivity.
  - rewrite Nat.iter_succ, IH by lia.
    assert (0 < 2 ^ Z.of_nat n) by (apply Z.pow_pos_nonneg; lia).
    rewrite shr_1_nonneg by (apply Z.div_pos; lia).
    replace (Z.of_nat (S n) - 1) with (Z.of_nat n) by lia.
    replace (Z.of_nat (S n)) with (Z.of_nat n + 1) by lia.
    f_equal.
    + rewrite Z.pow_add_r by lia. rewrite Z.div_div by lia. reflexivity.
    + rewrite Z.testbit_odd, Z.shiftr_div_pow2 by lia. reflexivity.
    + pose proof (mod_pow2_succ m (Z.of_nat n - 1) ltac:(lia)) as E.
      replace (Z.of_nat n - 1 + 1) with (Z.of_nat n) in E by lia.
      rewrite E.
      pose proof (Z.mod_pos_bound m (2 ^ (Z.of_nat n - 1)) ltac:(apply Z.pow_pos_nonneg; lia)).
      assert (0 < 2 ^ (Z.of_nat n - 1)) by (apply Z.pow_pos_nonneg; lia).
      destruct (Z.testbit m (Z.of_nat n - 1)); simpl Z.b2z;
        destruct r, s; simpl;
        destruct (Z.eqb_spec (m mod 2 ^ (Z.of_nat n - 1)) 0);
        try reflexivity;
        match goal with |- context [?a =? 0] => destruct (Z.eqb_spec a 0) end;
        try reflexivity; lia.
Qed.

Lemma shr_pos mrs e k :
  0 <= shr_m mrs -> 0 < k ->
  shr mrs e k =
  (Build_shr_record (shr_m mrs / 2 ^ k) (Z.testbit (shr_m mrs) (k - 1))
     (shr_r mrs || shr_s mrs || negb (shr_m mrs mod 2 ^ (k - 1) =? 0)), e + k).
Proof.
  intros Hm Hk. destruct k as [|p|p]; try lia.
  destruct mrs as [m r s]. cbn [shr shr_m shr_r shr_s] in *.
  rewrite iter_pos_nat, shr_n_spec by lia.
  rewrite positive_nat_Z. reflexivity.
Qed.

Lemma shr_nonpos mrs e k : k <= 0 -> shr mrs e k = (mrs, e).
Proof. destruct k; try lia; reflexivity. Qed.

Lemma loc_of_record_of_loc m l :
  loc_of_shr_record (shr_record_of_loc m l) = l.
Proof. destruct l as [|[]]; reflexivity. Qed.

Lemma shr_m_record_of_loc m l : shr_m (shr_record_of_loc m l) = m.
Proof. destruct l as [|[]]; reflexivity. Qed.

Lemma round_nearest_even_bounds m l :
  m <= round_nearest_even m l <= m + 1.
Proof. destruct l as [|[]]; simpl; try destruct (Z.even m); lia. Qed.

Lemma shr_exact_round m e k :
  0 <= m -> 0 < k ->
  let mrs := fst (shr (shr_record_of_loc m loc_Exact) e k) in
  round_nearest_even (shr_m mrs) (loc_of_shr_record mrs) = rnd_shift m k.
Proof.
  intros Hm Hk. rewrite shr_pos by (simpl; lia).
  cbn [fst shr_record_of_loc shr_m shr_r shr_s orb].
  unfold rnd_shift.
  pose proof (mod_pow2_succ m (k - 1) ltac:(lia)) as E.
  replace (k - 1 + 1) with k in E by lia. rewrite E.
  assert (0 < 2 ^ (k - 1)) by (apply Z.pow_pos_nonneg; lia).
  pose proof (Z.mod_pos_bound m (2 ^ (k - 1)) ltac:(lia)).
  rewrite <- Z.negb_even.
  destruct (Z.testbit m (k - 1)); simpl Z.b2z;
    destruct (Z.eqb_spec (m mod 2 ^ (k - 1)) 0); cbn [negb loc_of_shr_record round_nearest_even].
  - replace (2 ^ (k - 1) <? _) with false by (symmetry; apply Z.ltb_ge; lia).
    replace (_ =? 2 ^ (k - 1)) with true by (symmetry; apply Z.eqb_eq; lia).
    simpl. destruct (Z.even _); reflexivity.
  - replace (2 ^ (k - 1) <? _) with true by (symmetry; apply Z.ltb_lt; lia).
    reflexivity.
  - replace (2 ^ (k - 1) <? _) with false by (symmetry; apply Z.ltb_ge; lia).
    replace (_ =? 2 ^ (k - 1)) with false by (symmetry; apply Z.eqb_neq; lia).
    reflexivity.
  - replace (2 ^ (k - 1) <? _) with false by (symmetry; apply Z.ltb_ge; lia).
    replace (_ =? 2 ^ (k - 1)) with false by (symmetry; apply Z.eqb_neq; lia).
    reflexivity.
Qed.

Lemma rnd_shift_bounds m k : m / 2 ^ k <= rnd_shift m k <= m / 2 ^ k + 1.
Proof. unfold rnd_shift. destruct (_ || _); lia. Qed.

Lemma rnd_shift_exact m k : 0 < k -> m mod 2 ^ k = 0 -> rnd_shift m k = m / 2 ^ k.
Proof.
  intros Hk E. unfold rnd_shift. rewrite E.
  assert (0 < 2 ^ (k - 1)) by (apply Z.pow_pos_nonneg; lia).
  replace (2 ^ (k - 1) <? 0) with false by (symmetry; apply Z.ltb_ge; lia).
  replace (0 =? 2 ^ (k - 1)) with false by (symmetry; apply Z.eqb_neq; lia).
  reflexivity.
Qed.

Lemma rnd_shift_mono a b k :
  0 < k -> a <= b -> rnd_shift a k <= rnd_shift b k.
Proof.
  intros Hk Hab.
  assert (H2 : 0 < 2 ^ k) by (apply Z.pow_pos_nonneg; lia).
  pose proof (Z.div_le_mono a b (2 ^ k) H2 Hab) as Hq.
  destruct (Z.eq_dec (a / 2 ^ k) (b / 2 ^ k)) as [Eq|Ne].
  - unfold rnd_shift. rewrite <- Eq.
    assert (a mod 2 ^ k <= b mod 2 ^ k).
    { rewrite !Z.mod_eq by lia. rewrite Eq. lia. }
    set (h := 2 ^ (k - 1)) in *. set (ra := a mod 2 ^ k) in *. set (rb := b mod 2 ^ k) in *.
    destruct (Z.ltb_spec h ra), (Z.ltb_spec h rb), (Z.eqb_spec ra h), (Z.eqb_spec rb h),
      (Z.odd (a / 2 ^ k)); simpl; lia.
  - pose proof (rnd_shift_bounds a k). pose proof (rnd_shift_bounds b k). lia.
Qed.

Lemma digits2_pos_size p : digits2_pos p = Pos.size p.
Proof. induction p; simpl; congruence. Qed.

Lemma Zdigits2_bounds m :
  0 < m -> 2 ^ (Zdigits2 m - 1) <= m < 2 ^ Zdigits2 m.
Proof.
  intros Hm. destruct m as [|p|p]; try lia. cbn [Zdigits2].
  rewrite digits2_pos_size.
  pose proof (Pos.size_gt p) as Hgt. pose proof (Pos.size_le p) as Hle.
  apply Pos2Z.pos_lt_pos in Hgt. apply Pos2Z.pos_le_pos in Hle.
  rewrite Pos2Z.inj_pow in Hgt, Hle.
  replace (Z.pos (Pos.size p)) with (Z.pos (Pos.size p) - 1 + 1) in Hle at 1 by lia.
  rewrite Z.pow_add_r in Hle by lia. lia.
Qed.

Lemma Zdigits2_unique m d :
  2 ^ (d - 1) <= m < 2 ^ d -> 0 < d -> Zdigits2 m = d.
Proof.
  intros [Hlo Hhi] Hd.
  assert (0 < m) by (pose proof (Z.pow_pos_nonneg 2 (d - 1)); lia).
  pose proof (Zdigits2_bounds m H) as [Hlo' Hhi'].
  assert (0 < Zdigits2 m) by (destruct m; simpl; lia).
  destruct (Z.lt_trichotomy (Zdigits2 m) d) as [Hlt|[Heq|Hgt]]; [|exact Heq|].
  - assert (2 ^ Zdigits2 m <= 2 ^ (d - 1)) by (apply Z.pow_le_mono_r; lia). lia.
  - assert (2 ^ d <= 2 ^ (Zdigits2 m - 1)) by (apply Z.pow_le_mono_r; lia). lia.
Qed.

Lemma Zdigits2_pos m : 0 < m -> 0 < Zdigits2 m.
Proof. destruct m; simpl; lia. Qed.

(** What [shr_fexp] does to a non-negative mantissa, whatever the location
    it starts from. *)
Lemma shr_fexp_cases m e l :
  0 <= m ->
  let k := fexp prec emax (Zdigits2 m + e) - e in
  (k <= 0 /\ shr_fexp prec emax m e l = (shr_record_of_loc m l, e)) \/
  (0 < k /\ exists mrs, shr_fexp prec emax m e l = (mrs, e + k) /\
      shr_m mrs = m / 2 ^ k /\
      (l = loc_Exact ->
       round_nearest_even (shr_m mrs) (loc_of_shr_record mrs) = rnd_shift m k)).
Proof.
  intros Hm k. unfold shr_fexp. fold k.
  destruct (Z.ltb_spec 0 k) as [Hk|Hk].
  - right. split; [exact Hk|].
    eexists. split; [apply shr_pos; rewrite ?shr_m_record_of_loc; lia|].
    cbn [shr_m]. rewrite shr_m_record_of_loc. split; [reflexivity|].
    intros ->. pose proof (shr_exact_round m e k Hm Hk) as E.
    rewrite shr_pos in E by (simpl; lia). exact E.
  - left. split; [exact Hk|]. apply shr_nonpos. exact Hk.
Qed.

(** Upper bound carried through rounding: the mantissa [mx] (plus one when
    the location says the real value lies strictly above it) is at most
    [B], in units of [2^ex], and [B] is a multiple of the unit the
    rounding rounds to. *)
Lemma binary_round_aux_upper sx mx ex lx B :
  0 < mx ->
  (if lx is loc_Exact then mx <= B else mx + 1 <= B) ->
  (let k := fexp prec emax (Zdigits2 mx + ex) - ex in 0 < k -> (2 ^ k | B)) ->
  B < 2 ^ (emax - prec - ex + 1) ->
  match binary_round_aux prec emax sx mx ex lx with
  | S754_zero s => s = sx
  | S754_finite s m e => s = sx /\ ex <= e /\ Z.pos m * 2 ^ (e - ex) <= B
  | _ => False
  end.
Proof.
  intros Hmx HB Hdiv Hfin. unfold binary_round_aux.
  assert (Hstage1 : exists mrs1 e1, shr_fexp prec emax mx ex lx = (mrs1, e1) /\
            ex <= e1 /\
            0 <= round_nearest_even (shr_m mrs1) (loc_of_shr_record mrs1) /\
            round_nearest_even (shr_m mrs1) (loc_of_shr_record mrs1) * 2 ^ (e1 - ex) <= B).
  { destruct (shr_fexp_cases mx ex lx ltac:(lia)) as [[Hk E]|[Hk [mrs [E [Em Er]]]]].
    - eexists _, _. split; [exact E|]. rewrite loc_of_record_of_loc, shr_m_record_of_loc.
      replace (ex - ex) with 0 by lia. change (2 ^ 0) with 1.
      pose proof (round_nearest_even_bounds mx lx).
      repeat split; try lia.
      destruct lx as [|c]; [simpl; lia|].
      lia.
    - specialize (Hdiv Hk). set (k := fexp prec emax (Zdigits2 mx + ex) - ex) in *.
      eexists _, _. split; [exact E|].
      replace (ex + k - ex) with k by lia.
      assert (H2 : 0 < 2 ^ k) by (apply Z.pow_pos_nonneg; lia).
      pose proof (round_nearest_even_bounds (shr_m mrs) (loc_of_shr_record mrs)) as Hb.
      rewrite Em in *.
      assert (0 <= mx / 2 ^ k) by (apply Z.div_pos; lia).
      repeat split; try lia.
      destruct Hdiv as [c Hc].
      destruct (Z.eq_dec (mx mod 2 ^ k) 0) as [E0|N0].
      + destruct lx as [|cmp].
        * rewrite (Er eq_refl), rnd_shift_exact by lia.
          pose proof (Z.div_mod mx (2 ^ k) ltac:(lia)). lia.
        * assert (mx / 2 ^ k < c).
          { apply Z.div_lt_upper_bound; lia. }
          nia.
      + assert (mx < B).
        { destruct lx; [|lia].
          assert (mx <> B); [|lia]. intros ->. apply N0. rewrite Hc. apply Z.mod_mul. lia. }
        assert (mx / 2 ^ k < c).
        { apply Z.div_lt_upper_bound; lia. }
        nia. }
  destruct Hstage1 as (mrs1 & e1 & E1 & He1 & HM1 & HB1). rewrite E1.
  set (M1 := round_nearest_even (shr_m mrs1) (loc_of_shr_record mrs1)) in *.
  assert (Hstage2 : exists mrs2 e2, shr_fexp prec emax M1 e1 loc_Exact = (mrs2, e2) /\
            e1 <= e2 /\ 0 <= shr_m mrs2 /\ shr_m mrs2 * 2 ^ (e2 - e1) <= M1).
  { destruct (shr_fexp_cases M1 e1 loc_Exact HM1) as [[Hk E]|[Hk [mrs [E [Em Er]]]]].
    - eexists _, _. split; [exact E|]. cbn [shr_record_of_loc shr_m].
      replace (e1 - e1) with 0 by lia. change (2 ^ 0) with 1. lia.
    - set (k := fexp prec emax (Zdigits2 M1 + e1) - e1) in *.
      eexists _, _. split; [exact E|]. rewrite Em.
      replace (e1 + k - e1) with k by lia.
      assert (H2 : 0 < 2 ^ k) by (apply Z.pow_pos_nonneg; lia).
      assert (0 <= M1 / 2 ^ k) by (apply Z.div_pos; lia).
      pose proof (Z.mul_div_le M1 (2 ^ k) H2).
      repeat split; lia. }
  destruct Hstage2 as (mrs2 & e2 & E2 & He2 & HM2 & HB2). rewrite E2.
  assert (Hall : shr_m mrs2 * 2 ^ (e2 - ex) <= B).
  { replace (e2 - ex) with ((e2 - e1) + (e1 - ex)) by lia.
    rewrite Z.pow_add_r by lia.
    assert (0 < 2 ^ (e1 - ex)) by (apply Z.pow_pos_nonneg; lia).
    nia. }
  destruct (shr_m mrs2) as [|m2|m2] eqn:Em2; [reflexivity| |lia].
  destruct (Z.leb_spec e2 (emax - prec)) as [Hle|Hgt].
  - repeat split; lia.
  - assert (2 ^ (emax - prec - ex + 1) <= 2 ^ (e2 - ex)) by (apply Z.pow_le_mono_r; lia).
    assert (0 < 2 ^ (e2 - ex)) by (apply Z.pow_pos_nonneg; lia).
    nia.
Qed.

Lemma pos_iter_xO p d : Z.pos (Pos.iter xO p d) = Z.pos p * 2 ^ Z.pos d.
Proof.
  induction d as [|d IH] using Pos.peano_ind.
  - simpl. lia.
  - rewrite Pos.iter_succ, Pos2Z.inj_succ, Z.pow_succ_r by lia.
    rewrite Pos2Z.inj_xO, IH. lia.
Qed.

Lemma fexp_small d : -1021 <= d -> fexp prec emax d = d - 53.
Proof. intros. unfold fexp, emin, prec, emax. lia. Qed.

(** The conversion of a positive int64: a positive finite value with a full
    53-bit mantissa, equal to [z] rounded to 53 significant bits. *)
Lemma of_int64_pos z :
  0 < z < 2 ^ 63 ->
  exists m e, of_int64 z = S754_finite false m e /\
    Zdigits2 (Z.pos m) = 53 /\ -52 <= e <= 11 /\
    Z.pos m * 2 ^ (e + 52) = R53 z * 2 ^ 52.
Proof.
  intros [Hz0 Hz63]. destruct z as [|p|p]; try lia.
  unfold of_int64, binary_normalize, binary_round.
  pose proof (Zdigits2_bounds (Z.pos p) ltac:(lia)) as [Hlo Hhi].
  pose proof (Zdigits2_pos (Z.pos p) ltac:(lia)) as HD.
  assert (HD63 : Zdigits2 (Z.pos p) <= 63).
  { destruct (Z.le_gt_cases (Zdigits2 (Z.pos p)) 63) as [|Hgt]; [assumption|].
    assert (2 ^ 63 <= 2 ^ (Zdigits2 (Z.pos p) - 1)) by (apply Z.pow_le_mono_r; lia). lia. }
  change (Z.pos (digits2_pos p)) with (Zdigits2 (Z.pos p)).
  set (D := Zdigits2 (Z.pos p)) in *.
  rewrite Z.add_0_r, fexp_small by lia.
  unfold shl_align. rewrite Z.sub_0_r. unfold R53. fold D.
  destruct (D - 53) as [|d|d] eqn:Ek.
  - (* exactly 53 digits: nothing to round *)
    unfold binary_round_aux.
    destruct (shr_fexp_cases (Z.pos p) 0 loc_Exact ltac:(lia)) as [[Hk E]|[Hk _]];
      [|fold D in Hk; rewrite Z.add_0_r, fexp_small in Hk by lia; lia].
    rewrite E. cbn [shr_record_of_loc shr_m loc_of_shr_record round_nearest_even].
    rewrite E. cbn [shr_record_of_loc shr_m].
    exists p, 0. repeat split; try (unfold prec, emax; lia).
  - (* more than 53 digits: round, then renormalise if the mantissa carried *)
    set (k := Z.pos d) in *.
    unfold binary_round_aux.
    destruct (shr_fexp_cases (Z.pos p) 0 loc_Exact ltac:(lia)) as [[Hk _]|[Hk [mrs [E [Em Er]]]]];
      [fold D in Hk; rewrite Z.add_0_r, fexp_small in Hk by lia; lia|].
    fold D in Hk, E, Em, Er. rewrite Z.add_0_r, fexp_small, Z.sub_0_r in Hk, E, Em, Er by lia.
    assert (HDk : D = k + 53) by lia.
    replace (D - 53) with k in * by lia.
    rewrite E, (Er eq_refl). clear E Er Em mrs.
    replace (0 <? k) with true by (symmetry; apply Z.ltb_lt; lia).
    assert (H2k : 0 < 2 ^ k) by (apply Z.pow_pos_nonneg; lia).
    pose proof (rnd_shift_bounds (Z.pos p) k) as [HRlo HRhi].
    assert (Hq_lo : 2 ^ 52 <= Z.pos p / 2 ^ k).
    { apply Z.div_le_lower_bound; [lia|].
      replace (D - 1) with (k + 52) in Hlo by lia.
      rewrite Z.pow_add_r in Hlo by lia. lia. }
    assert (Hq_hi : Z.pos p / 2 ^ k < 2 ^ 53).
    { apply Z.div_lt_upper_bound; [lia|].
      replace D with (k + 53) in Hhi by lia.
      rewrite Z.pow_add_r in Hhi by lia. lia. }
    set (M1 := rnd_shift (Z.pos p) k) in *.
    destruct (Z.eq_dec M1 (2 ^ 53)) as [Ecarry|Ncarry].
    + destruct (shr_fexp_cases M1 (0 + k) loc_Exact ltac:(lia)) as [[Hk2 _]|[Hk2 [mrs [E [Em _]]]]].
      * rewrite Ecarry in Hk2. change (Zdigits2 (2 ^ 53)) with 54 in Hk2.
        rewrite fexp_small in Hk2 by lia. lia.
      * rewrite Ecarry in Hk2, E, Em. change (Zdigits2 (2 ^ 53)) with 54 in Hk2, E, Em.
        rewrite fexp_small in Hk2, E, Em by lia.
        replace (54 + (0 + k) - 53 - (0 + k)) with 1 in E, Em by lia.
        rewrite Ecarry, E, Em. change (2 ^ 53 / 2 ^ 1) with (Z.pos (2 ^ 52)).
        cbn match. replace (0 + k + 1 <=? emax - prec) with true
          by (symmetry; apply Z.leb_le; unfold emax, prec; lia).
        exists (2 ^ 52)%positive, (0 + k + 1). repeat split; try lia.
        replace (0 + k + 1 + 52) with (k + 53) by lia.
        rewrite Z.pow_add_r by lia. change (Z.pos (2 ^ 52)) with (2 ^ 52).
        change (2 ^ 53) with (2 ^ 52 * 2). lia.
    + assert (HM1 : 2 ^ 52 <= M1 < 2 ^ 53) by lia.
      assert (HdM1 : Zdigits2 M1 = 53) by (apply Zdigits2_unique; [exact HM1|lia]).
      destruct (shr_fexp_cases M1 (0 + k) loc_Exact ltac:(lia)) as [[Hk2 E]|[Hk2 _]];
        [|rewrite HdM1, fexp_small in Hk2 by lia; lia].
      rewrite E. cbn [shr_record_of_loc shr_m].
      destruct M1 as [|m1|m1] eqn:EM1; try lia.
      replace (0 + k <=? emax - prec) with true
        by (symmetry; apply Z.leb_le; unfold emax, prec; lia).
      exists m1, (0 + k). repeat split; try lia.
      replace (0 + k + 52) with (k + 52) by lia.
      rewrite (Z.pow_add_r 2 k 52) by lia. lia.
  - (* fewer than 53 digits: the mantissa is shifted left, exactly *)
    set (k := Z.pos d) in *.
    assert (Hm : Z.pos (Pos.iter xO p d) = Z.pos p * 2 ^ k) by apply pos_iter_xO.
    assert (H2k : 0 < 2 ^ k) by (apply Z.pow_pos_nonneg; lia).
    assert (Hdig : Zdigits2 (Z.pos (Pos.iter xO p d)) = 53).
    { apply Zdigits2_unique; [|lia]. rewrite Hm. split.
      - replace (53 - 1) with ((D - 1) + k) by lia. rewrite Z.pow_add_r by lia. nia.
      - replace 53 with (D + k) by lia. rewrite Z.pow_add_r by lia. nia. }
    unfold binary_round_aux.
    destruct (shr_fexp_cases (Z.pos (Pos.iter xO p d)) (Z.neg d) loc_Exact ltac:(lia))
      as [[Hk E]|[Hk _]]; [|rewrite Hdig, fexp_small in Hk by lia; lia].
    rewrite E. cbn [shr_record_of_loc shr_m loc_of_shr_record round_nearest_even].
    rewrite E. cbn [shr_record_of_loc shr_m].
    replace (Z.neg d <=? emax - prec) with true
      by (symmetry; apply Z.leb_le; unfold emax, prec; lia).
    exists (Pos.iter xO p d), (Z.neg d). repeat split; try lia.
    replace (0 <? Z.neg d) with false by (symmetry; apply Z.ltb_ge; lia).
    rewrite Hm.
    assert (E52 : 2 ^ 52 = 2 ^ k * 2 ^ (Z.neg d + 52))
      by (rewrite <- Z.pow_add_r by lia; f_equal; lia).
    rewrite E52. ring.
Qed.

Lemma Zdigits2_mono a b : 0 < a <= b -> Zdigits2 a <= Zdigits2 b.
Proof.
  intros [Ha Hab].
  pose proof (Zdigits2_bounds a Ha) as [Hlo _].
  pose proof (Zdigits2_bounds b ltac:(lia)) as [_ Hhi].
  destruct (Z.le_gt_cases (Zdigits2 a) (Zdigits2 b)) as [|Hgt]; [assumption|].
  assert (2 ^ Zdigits2 b <= 2 ^ (Zdigits2 a - 1)).
  { apply Z.pow_le_mono_r; [lia|]. pose proof (Zdigits2_pos b); lia. }
  lia.
Qed.

Lemma R53_upper z : 0 < z -> R53 z <= 2 ^ Zdigits2 z.
Proof.
  intros Hz. unfold R53.
  pose proof (Zdigits2_bounds z Hz) as [_ Hhi].
  destruct (Z.ltb_spec 0 (Zdigits2 z - 53)) as [Hk|Hk]; [|lia].
  set (k := Zdigits2 z - 53) in *.
  assert (H2k : 0 < 2 ^ k) by (apply Z.pow_pos_nonneg; lia).
  replace (Zdigits2 z) with (53 + k) in * by lia.
  rewrite Z.pow_add_r in * by lia.
  pose proof (rnd_shift_bounds z k) as [_ Hr].
  assert (z / 2 ^ k < 2 ^ 53) by (apply Z.div_lt_upper_bound; lia).
  nia.
Qed.

Lemma R53_lower z : 0 < z -> 2 ^ (Zdigits2 z - 1) <= R53 z.
Proof.
  intros Hz. unfold R53.
  pose proof (Zdigits2_bounds z Hz) as [Hlo _].
  destruct (Z.ltb_spec 0 (Zdigits2 z - 53)) as [Hk|Hk]; [|lia].
  set (k := Zdigits2 z - 53) in *.
  assert (H2k : 0 < 2 ^ k) by (apply Z.pow_pos_nonneg; lia).
  replace (Zdigits2 z - 1) with (52 + k) in * by lia.
  rewrite Z.pow_add_r in * by lia.
  pose proof (rnd_shift_bounds z k) as [Hr _].
  assert (2 ^ 52 <= z / 2 ^ k) by (apply Z.div_le_lower_bound; lia).
  nia.
Qed.

Lemma R53_mono a b : 0 < a <= b -> R53 a <= R53 b.
Proof.
  intros [Ha Hab].
  pose proof (Zdigits2_mono a b ltac:(lia)) as Hd.
  destruct (Z.eq_dec (Zdigits2 a) (Zdigits2 b)) as [Ed|Nd].
  - unfold R53. rewrite Ed.
    destruct (Z.ltb_spec 0 (Zdigits2 b - 53)) as [Hk|Hk]; [|lia].
    pose proof (rnd_shift_mono a b (Zdigits2 b - 53) Hk Hab).
    assert (0 < 2 ^ (Zdigits2 b - 53)) by (apply Z.pow_pos_nonneg; lia).
    nia.
  - pose proof (R53_upper a Ha). pose proof (R53_lower b ltac:(lia)).
    assert (2 ^ Zdigits2 a <= 2 ^ (Zdigits2 b - 1)) by (apply Z.pow_le_mono_r; lia).
    lia.
Qed.

(** The conversion is monotone. *)
Lemma of_int64_mono a b ma ea mb eb :
  0 < a <= b -> b < 2 ^ 63 ->
  of_int64 a = S754_finite false ma ea ->
  of_int64 b = S754_finite false mb eb ->
  le53 ma ea mb eb.
Proof.
  intros [Ha Hab] Hb Ea Eb.
  destruct (of_int64_pos a ltac:(lia)) as (ma' & ea' & Ea' & Hda & Hea & Hva).
  destruct (of_int64_pos b ltac:(lia)) as (mb' & eb' & Eb' & Hdb & Heb & Hvb).
  rewrite Ea in Ea'. rewrite Eb in Eb'.
  injection Ea' as <- <-. injection Eb' as <- <-.
  pose proof (R53_mono a b ltac:(lia)) as HR.
  pose proof (Zdigits2_bounds (Z.pos ma) ltac:(lia)) as [Hma_lo Hma_hi].
  pose proof (Zdigits2_bounds (Z.pos mb) ltac:(lia)) as [Hmb_lo Hmb_hi].
  rewrite Hda in *. rewrite Hdb in *.
  assert (Hle : Z.pos ma * 2 ^ (ea + 52) <= Z.pos mb * 2 ^ (eb + 52)) by nia.
  unfold le53.
  destruct (Z.lt_trichotomy ea eb) as [Hlt|[Heq|Hgt]]; [left; exact Hlt| |exfalso].
  - right. split; [exact Heq|]. subst eb.
    assert (0 < 2 ^ (ea + 52)) by (apply Z.pow_pos_nonneg; lia). nia.
  - assert (E2 : 2 ^ (ea + 52) = 2 ^ (ea - eb) * 2 ^ (eb + 52))
      by (rewrite <- Z.pow_add_r by lia; f_equal; lia).
    assert (2 ^ 1 <= 2 ^ (ea - eb)) by (apply Z.pow_le_mono_r; lia).
    assert (0 < 2 ^ (eb + 52)) by (apply Z.pow_pos_nonneg; lia).
    change (2 ^ 1) with 2 in *. change (2 ^ (53 - 1)) with 4503599627370496 in *.
    change (2 ^ 53) with 9007199254740992 in *.
    rewrite E2 in Hle. nia.
Qed.

Lemma new_location_exact n r : new_location n r = loc_Exact <-> r = 0.
Proof.
  unfold new_location, new_location_even, new_location_odd.
  destruct (Z.even n), (Z.eqb_spec r 0); split; intros; try congruence; try reflexivity.
Qed.

Lemma div_core_53 ma ea mb eb :
  Zdigits2 (Z.pos ma) = Zdigits2 (Z.pos mb) -> -900 <= ea - eb ->
  SFdiv_core_binary prec emax (Z.pos ma) ea (Z.pos mb) eb =
  ((Z.pos ma * 2 ^ 53) / Z.pos mb, ea - eb - 53,
   new_location (Z.pos mb) ((Z.pos ma * 2 ^ 53) mod Z.pos mb)).
Proof.
  intros Hd He. unfold SFdiv_core_binary. rewrite Hd.
  replace (Zdigits2 (Z.pos mb) + ea - (Zdigits2 (Z.pos mb) + eb)) with (ea - eb) by lia.
  rewrite fexp_small by lia.
  replace (Z.min (ea - eb - 53) (ea - eb)) with (ea - eb - 53) by lia.
  replace (ea - eb - (ea - eb - 53)) with 53 by lia.
  rewrite Z.shiftl_mul_pow2 by lia.
  unfold Z.div, Z.modulo.
  destruct (Z.div_eucl (Z.pos ma * 2 ^ 53) (Z.pos mb)). reflexivity.
Qed.

(** x / x = 1, exactly, for every finite non-zero x. *)
Lemma div_self s m e :
  div (S754_finite s m e) (S754_finite s m e) = of_int64 1.
Proof.
  unfold div, SFdiv. rewrite div_core_53 by lia.
  rewrite Z.mul_comm, Z.div_mul, Z.mod_mul by lia.
  replace (new_location (Z.pos m) 0) with loc_Exact
    by (symmetry; apply new_location_exact; reflexivity).
  replace (e - e - 53) with (-53) by lia.
  destruct s; reflexivity.
Qed.

(** a / b <= 1 for converted integers 0 < a <= b. *)
Lemma div_le_one ma ea mb eb :
  Zdigits2 (Z.pos ma) = 53 -> Zdigits2 (Z.pos mb) = 53 ->
  -52 <= ea <= 11 -> -52 <= eb <= 11 ->
  le53 ma ea mb eb ->
  bounded_by 1 (div (S754_finite false ma ea) (S754_finite false mb eb)).
Proof.
  intros Hda Hdb Hea Heb Hle. unfold div, SFdiv. unfold le53 in Hle.
  rewrite div_core_53 by lia.
  pose proof (Zdigits2_bounds (Z.pos ma) ltac:(lia)) as [Hma_lo Hma_hi].
  pose proof (Zdigits2_bounds (Z.pos mb) ltac:(lia)) as [Hmb_lo Hmb_hi].
  rewrite Hda in *. rewrite Hdb in *.
  change (2 ^ (53 - 1)) with 4503599627370496 in *.
  change (2 ^ 53) with 9007199254740992 in *.
  set (n := Z.pos ma * 9007199254740992).
  set (q := n / Z.pos mb). set (r := n mod Z.pos mb).
  pose proof (Z.div_mod n (Z.pos mb) ltac:(lia)) as Hdm. fold q r in Hdm.
  pose proof (Z.mod_pos_bound n (Z.pos mb) ltac:(lia)) as Hr. fold r in Hr.
  assert (Hq_lo : 4503599627370496 <= q) by (apply Z.div_le_lower_bound; lia).
  assert (Hq_hi : q < 2 ^ 54).
  { apply Z.div_lt_upper_bound; [lia|]. change (2 ^ 54) with 18014398509481984. lia. }
  assert (Hdq : Zdigits2 q <= 54).
  { pose proof (Zdigits2_bounds q ltac:(lia)) as [Hlo _].
    destruct (Z.le_gt_cases (Zdigits2 q) 54) as [|Hgt]; [assumption|].
    assert (2 ^ 54 <= 2 ^ (Zdigits2 q - 1)) by (apply Z.pow_le_mono_r; lia). lia. }
  set (ex := ea - eb - 53).
  assert (Hpow : 2 ^ 54 <= 2 ^ (- ex) \/ (ea = eb /\ 2 ^ (- ex) = 9007199254740992)).
  { destruct Hle as [Hlt|[-> _]].
    - left. apply Z.pow_le_mono_r; lia.
    - right. split; [reflexivity|]. unfold ex. replace (- (eb - eb - 53)) with 53 by lia.
      reflexivity. }
  pose proof (binary_round_aux_upper (xorb false false) q ex
                (new_location (Z.pos mb) r) (2 ^ (- ex))) as U.
  lapply U; [clear U; intros U|lia].
  lapply U; [clear U; intros U|].
  2:{ destruct (new_location (Z.pos mb) r) as [|c] eqn:El.
      - destruct Hpow as [?|[-> ->]]; [lia|].
        destruct Hle as [?|[_ Hm]]; [lia|]. nia.
      - assert (r <> 0).
        { intros E0. pose proof (proj2 (new_location_exact (Z.pos mb) r) E0). congruence. }
        destruct Hpow as [?|[-> ->]]; [lia|].
        destruct Hle as [?|[_ Hm]]; [lia|]. nia. }
  lapply U; [clear U; intros U|].
  2:{ intros k Hk. exists (2 ^ (- ex - k)).
      rewrite <- Z.pow_add_r; [f_equal; lia| |lia].
      clear U Hpow.
      unfold k, ex, fexp, emin, prec, emax in *. lia. }
  lapply U; [clear U; intros U|].
  2:{ apply Z.pow_lt_mono_r; unfold emax, prec, ex; lia. }
  simpl xorb in U |- *.
  destruct (binary_round_aux prec emax false q ex (new_location (Z.pos mb) r))
    as [s|s| |s m e]; cbn [bounded_by]; try assumption.
  destruct U as (-> & He & Hm). split; [reflexivity|].
  exists ex. repeat split; try lia; unfold ex; lia.
Qed.

(** x * 100 <= 100 for 0 <= x <= 1. *)
Lemma mul_hundred_bounded f :
  bounded_by 1 f -> bounded_by 100 (mul f hundred).
Proof.
  destruct f as [s|s| |s m e]; cbn [bounded_by]; try contradiction.
  - intros ->. reflexivity.
  - intros (-> & ex & Hex & Hex0 & Hm).
    change hundred with (S754_finite false 7036874417766400 (-46)).
    unfold mul, SFmul.
    assert (H2 : 0 < 2 ^ (e - ex)) by (apply Z.pow_pos_nonneg; lia).
    assert (He0 : e <= 0).
    { destruct (Z.le_gt_cases e 0) as [|Hgt]; [assumption|].
      assert (2 ^ (- ex + 1) <= 2 ^ (e - ex)) by (apply Z.pow_le_mono_r; lia).
      rewrite Z.pow_add_r in H by lia. change (2 ^ 1) with 2 in H.
      assert (0 < 2 ^ (- ex)) by (apply Z.pow_pos_nonneg; lia). nia. }
    assert (Hm' : Z.pos m <= 2 ^ (- e)).
    { assert (E2 : 2 ^ (- ex) = 2 ^ (- e) * 2 ^ (e - ex))
        by (rewrite <- Z.pow_add_r by lia; f_equal; lia).
      rewrite E2 in Hm. nia. }
    set (ex' := e + -46).
    pose proof (binary_round_aux_upper (xorb false false)
                  (Z.pos (m * 7036874417766400)) ex' loc_Exact
                  (100 * 2 ^ (- ex'))) as U.
    assert (E100 : 100 * 2 ^ (- ex') = 7036874417766400 * 2 ^ (- e)).
    { unfold ex'. replace (- (e + -46)) with (46 + - e) by lia.
      rewrite Z.pow_add_r by lia. change (2 ^ 46) with 70368744177664. lia. }
    assert (H2e : 0 < 2 ^ (- e)) by (apply Z.pow_pos_nonneg; lia).
    lapply U; [clear U; intros U|lia].
    lapply U; [clear U; intros U|rewrite E100, Pos2Z.inj_mul; nia].
    lapply U; [clear U; intros U|].
    2:{ intros k Hk. exists (25 * 2 ^ (48 - e - k)).
        assert (Hd : Zdigits2 (Z.pos (m * 7036874417766400)) <= 53 - e).
        { pose proof (Zdigits2_bounds (Z.pos (m * 7036874417766400)) ltac:(lia)) as [Hlo _].
          set (d := Zdigits2 (Z.pos (m * 7036874417766400))) in *.
          destruct (Z.le_gt_cases d (53 - e)) as [|Hgt]; [assumption|].
          assert (2 ^ (53 - e) <= 2 ^ (d - 1)) by (apply Z.pow_le_mono_r; lia).
          replace (53 - e) with (53 + - e) in H by lia.
          rewrite Z.pow_add_r in H by lia. change (2 ^ 53) with 9007199254740992 in H.
          rewrite Pos2Z.inj_mul in Hlo. nia. }
        assert (Hk48 : k <= 48 - e).
        { unfold k, ex', fexp, emin, prec, emax in *. lia. }
        rewrite <- Z.mul_assoc, <- Z.pow_add_r by lia.
        replace (48 - e - k + k) with (48 + - ex' - 46) by (unfold ex'; lia).
        replace (48 + - ex' - 46) with (2 + - ex') by lia.
        rewrite Z.pow_add_r by (unfold ex'; lia). change (2 ^ 2) with 4. lia. }
    lapply U; [clear U; intros U|].
    2:{ rewrite E100.
        assert (2 ^ (- e + 53) <= 2 ^ (emax - prec - ex' + 1))
          by (apply Z.pow_le_mono_r; unfold emax, prec, ex'; lia).
        rewrite Z.pow_add_r in H by lia. change (2 ^ 53) with 9007199254740992 in H.
        lia. }
    simpl xorb in U |- *.
    destruct (binary_round_aux prec emax false (Z.pos (m * 7036874417766400)) ex' loc_Exact)
      as [s|s| |s m' e']; cbn [bounded_by]; try assumption.
    destruct U as (-> & He' & Hm''). split; [reflexivity|].
    exists ex'. repeat split; try lia; unfold ex'; lia.
Qed.

(** Truncation keeps an integer bound. *)
Lemma to_int64_bounded c f :
  0 <= c <= Int64.max_int -> bounded_by c f -> 0 <= to_int64 f <= c.
Proof.
  intros Hc. unfold to_int64, Int64.max_int, Int64.min_int in *.
  destruct f as [s|s| |s m e]; cbn [bounded_by trunc]; try contradiction.
  - intros _. simpl. lia.
  - intros (-> & ex & Hex & Hex0 & Hm). cbn [cond_Zopp].
    assert (Hv : 0 <= Z.shiftl (Z.pos m) e <= c).
    { split; [apply Z.shiftl_nonneg; lia|].
      assert (H2 : 0 < 2 ^ (- ex)) by (apply Z.pow_pos_nonneg; lia).
      destruct (Z.le_gt_cases 0 e) as [He|He].
      - rewrite Z.shiftl_mul_pow2 by lia.
        replace (e - ex) with (e + - ex) in Hm by lia.
        rewrite Z.pow_add_r in Hm by lia. nia.
      - rewrite Z.shiftl_div_pow2 by lia.
        assert (H2e : 0 < 2 ^ (- e)) by (apply Z.pow_pos_nonneg; lia).
        assert (H2x : 0 < 2 ^ (e - ex)) by (apply Z.pow_pos_nonneg; lia).
        assert (E2 : 2 ^ (- ex) = 2 ^ (- e) * 2 ^ (e - ex))
          by (rewrite <- Z.pow_add_r by lia; f_equal; lia).
        rewrite E2 in Hm.
        assert (Z.pos m <= c * 2 ^ (- e)) by nia.
        apply Z.div_le_upper_bound; lia. }
    destruct (Z.leb_spec (- 2 ^ 63) (Z.shiftl (Z.pos m) e)),
             (Z.leb_spec (Z.shiftl (Z.pos m) e) (2 ^ 63 - 1)); simpl; lia.
Qed.

End Float64Facts.

(** ** The progress formula *)

Module PercentFacts.
Import Float64 Float64Facts.

Lemma percent_bounds d t :
  0 <= d <= t -> 0 < t <= Int64.max_int ->
  0 <= WorkerPool.percent d t <= 100.
Proof.
  intros [Hd Hdt] [Ht Htmax]. unfold WorkerPool.percent.
  assert (Ht63 : t < 2 ^ 63) by (unfold Int64.max_int in Htmax; lia).
  apply to_int64_bounded; [unfold Int64.max_int; lia|].
  apply mul_hundred_bounded.
  destruct (of_int64_pos t ltac:(lia)) as (mt & et & Et & Hdt' & Het & _).
  destruct (Z.eq_dec d 0) as [->|Hd0].
  - rewrite Et. reflexivity.
  - destruct (of_int64_pos d ltac:(lia)) as (md & ed & Ed & Hdd & Hed & _).
    pose proof (of_int64_mono d t md ed mt et ltac:(lia) Ht63 Ed Et) as Hle.
    rewrite Ed, Et. apply div_le_one; assumption.
Qed.

Lemma percent_full t :
  0 < t <= Int64.max_int -> WorkerPool.percent t t = 100.
Proof.
  intros [Ht Htmax]. unfold WorkerPool.percent.
  assert (Ht63 : t < 2 ^ 63) by (unfold Int64.max_int in Htmax; lia).
  destruct (of_int64_pos t ltac:(lia)) as (mt & et & Et & _).
  rewrite Et, div_self. reflexivity.
Qed.

End PercentFacts.

(** ** The scan over the files of a task *)

Module ScanFacts.
Import WorkerPool.

Lemma wrap_range z : Int64.min_int <= Int64.wrap z <= Int64.max_int.
Proof.
  unfold Int64.wrap, Int64.min_int, Int64.max_int.
  pose proof (Z.mod_pos_bound (z + 2 ^ 63) (2 ^ 64) ltac:(lia)).
  change (2 ^ 64) with (2 * 2 ^ 63) in *. lia.
Qed.

Lemma fold_scan_allCompleted fs a :
  allCompleted (fold_left scan_step fs a) = allCompleted a && forallb is_completed fs.
Proof.
  revert a. induction fs as [|f fs IH]; intros a; cbn [fold_left forallb].
  - now rewrite andb_true_r.
  - rewrite IH. unfold scan_step, is_completed. cbn [allCompleted].
    destruct (String.eqb (File.Status f) domain.StatusCompleted); simpl.
    + reflexivity.
    + now rewrite andb_false_r.
Qed.

Lemma fold_scan_anyInProgress fs a :
  anyInProgress (fold_left scan_step fs a) = anyInProgress a || existsb is_downloading fs.
Proof.
  revert a. induction fs as [|f fs IH]; intros a; cbn [fold_left existsb].
  - now rewrite orb_false_r.
  - rewrite IH. unfold scan_step, is_downloading. cbn [anyInProgress].
    destruct (String.eqb (File.Status f) domain.StatusDownloading); simpl.
    + now rewrite orb_true_r.
    + reflexivity.
Qed.

Lemma scan_allCompleted fs : allCompleted (scan fs) = forallb is_completed fs.
Proof. unfold scan. now rewrite fold_scan_allCompleted. Qed.

Lemma scan_anyInProgress fs : anyInProgress (scan fs) = existsb is_downloading fs.
Proof. unfold scan. now rewrite fold_scan_anyInProgress. Qed.

Lemma fold_scan_sizes fs a :
  Forall (fun f => File.Downloaded f = File.Size f) fs ->
  downloaded a = totalSize a ->
  downloaded (fold_left scan_step fs a) = totalSize (fold_left scan_step fs a).
Proof.
  intros Hfs. revert a. induction Hfs as [|f fs Hf _ IH]; intros a Ha; cbn [fold_left].
  - exact Ha.
  - apply IH. unfold scan_step. cbn [downloaded totalSize]. now rewrite Ha, Hf.
Qed.

Lemma fold_scan_totalSize_range fs a :
  Int64.min_int <= totalSize a <= Int64.max_int ->
  Int64.min_int <= totalSize (fold_left scan_step fs a) <= Int64.max_int.
Proof.
  revert a. induction fs as [|f fs IH]; intros a Ha; cbn [fold_left].
  - exact Ha.
  - apply IH. unfold scan_step. cbn [totalSize]. apply wrap_range.
Qed.

Lemma scan_totalSize_range fs :
  Int64.min_int <= totalSize (scan fs) <= Int64.max_int.
Proof.
  apply fold_scan_totalSize_range. unfold Int64.min_int, Int64.max_int. simpl. lia.
Qed.

Lemma fold_count_completed fs c :
  fold_left
    (fun completed f =>
       if String.eqb (File.Status f) domain.StatusCompleted then completed + 1
       else completed) fs c
  = c + Z.of_nat (length (filter (fun f => is_completed f = true) fs)).
Proof.
  revert c. induction fs as [|f fs IH]; intros c; cbn [fold_left].
  - simpl. lia.
  - rewrite IH. destruct (String.eqb (File.Status f) domain.StatusCompleted) eqn:E.
    + rewrite filter_cons_True by exact E. cbn [length]. lia.
    + rewrite filter_cons_False by (unfold is_completed; rewrite E; discriminate). lia.
Qed.

Lemma count_completed_bounds fs :
  0 <= count_completed fs <= Z.of_nat (length fs).
Proof.
  unfold count_completed. rewrite fold_count_completed.
  pose proof (length_filter (fun f => is_completed f = true) fs). lia.
Qed.

Lemma count_completed_all fs :
  forallb is_completed fs = true -> count_completed fs = Z.of_nat (length fs).
Proof.
  intros H. unfold count_completed. rewrite fold_count_completed.
  induction fs as [|f fs IH]; [reflexivity|].
  simpl in H. apply andb_true_iff in H as [Hf Hfs].
  rewrite filter_cons_True by exact Hf. cbn [length]. specialize (IH Hfs). lia.
Qed.

Lemma wrap_small z : Int64.min_int <= z <= Int64.max_int -> Int64.wrap z = z.
Proof.
  unfold Int64.wrap, Int64.min_int, Int64.max_int. intros H.
  rewrite Z.mod_small; [lia|]. change (2 ^ 64) with (2 * 2 ^ 63). lia.
Qed.

Lemma fold_scan_exact fs a :
  Forall (fun f => 0 <= File.Downloaded f <= File.Size f) fs ->
  0 <= downloaded a <= totalSize a ->
  totalSize a + Claims.sum_Size fs <= Int64.max_int ->
  0 <= downloaded (fold_left scan_step fs a) <= totalSize (fold_left scan_step fs a).
Proof.
  intros Hfs. revert a. induction Hfs as [|f fs Hf Hrest IH]; intros a Ha Hsum; cbn [fold_left].
  - exact Ha.
  - cbn [Claims.sum_Size foldr] in Hsum.
    assert (Hnn : 0 <= Claims.sum_Size fs).
    { clear -Hrest. induction Hrest as [|g gs Hg _ IHg]; cbn [Claims.sum_Size foldr]; [lia|].
      unfold Claims.sum_Size in IHg. lia. }
    unfold Claims.sum_Size in Hnn, Hsum.
    apply IH; unfold scan_step; cbn [downloaded totalSize]; unfold Int64.add.
    + rewrite !wrap_small by (unfold Int64.min_int, Int64.max_int in *; lia). lia.
    + rewrite wrap_small by (unfold Int64.min_int, Int64.max_int in *; lia).
      unfold Claims.sum_Size. lia.
Qed.

(** Files with 0 <= Downloaded <= Size whose sizes do not overflow meet the
    precondition on the byte totals. *)
Lemma bounded_files_totals fs :
  Forall (fun f => 0 <= File.Downloaded f <= File.Size f) fs ->
  Claims.sum_Size fs <= Int64.max_int ->
  0 <= downloaded (scan fs) <= totalSize (scan fs).
Proof.
  intros Hfs Hsum. apply fold_scan_exact; cbn [downloaded totalSize]; [exact Hfs|lia|lia].
Qed.

End ScanFacts.

(** ** The store and the registry *)

Module WorldFacts.
Lemma SaveTask_heap E io p w : heap (TaskStorage.SaveTask E io p w).1 = heap w.
Proof.
  unfold TaskStorage.SaveTask. destruct (heap w !! p); [|reflexivity].
  destruct io; reflexivity.
Qed.

Lemma SaveTask_tasks E io p w : tasks (TaskStorage.SaveTask E io p w).1 = tasks w.
Proof.
  unfold TaskStorage.SaveTask. destruct (heap w !! p); [|reflexivity].
  destruct io; reflexivity.
Qed.

Lemma SaveTask_returns E io p w t :
  heap w !! p = Some t ->
  (TaskStorage.SaveTask E io p w).2 = TaskStorage.save_result io.
Proof.
  intros H. unfold TaskStorage.SaveTask. rewrite H. destruct io; reflexivity.
Qed.

Lemma SaveTask_saves E io p w t :
  heap w !! p = Some t ->
  saves (TaskStorage.SaveTask E io p w).1 = Build_SaveCall p t (TaskStorage.save_result io) :: saves w.
Proof.
  intros H. unfold TaskStorage.SaveTask. rewrite H. destruct io; reflexivity.
Qed.

Lemma SaveTask_written E p w t :
  heap w !! p = Some t ->
  files (fs (TaskStorage.SaveTask E NoFault p w).1)
    !! filepath_Join E (stateDir w) (Task.ID t +:+ ".json") = Some (Doc t).
Proof.
  intros H. unfold TaskStorage.SaveTask. rewrite H. cbn. apply lookup_insert_eq.
Qed.

Lemma UpdateTask_heap E io p w : heap (TaskManager.UpdateTask E io p w).1 = heap w.
Proof.
  unfold TaskManager.UpdateTask, TaskStorage.UpdateTask.
  destruct (heap w !! p); [|reflexivity]. now rewrite SaveTask_heap.
Qed.

Lemma UpdateTask_tasks E io p w t :
  heap w !! p = Some t ->
  tasks (TaskManager.UpdateTask E io p w).1 = <[Task.ID t := p]> (tasks w).
Proof.
  intros H. unfold TaskManager.UpdateTask, TaskStorage.UpdateTask. rewrite H.
  now rewrite SaveTask_tasks.
Qed.

Lemma UpdateTask_saves E io p w t :
  heap w !! p = Some t ->
  saves (TaskManager.UpdateTask E io p w).1 = Build_SaveCall p t (TaskStorage.save_result io) :: saves w.
Proof.
  intros H. unfold TaskManager.UpdateTask, TaskStorage.UpdateTask. rewrite H.
  now rewrite (SaveTask_saves _ _ _ _ t).
Qed.

Lemma UpdateTask_returns E io p w t :
  heap w !! p = Some t ->
  (TaskManager.UpdateTask E io p w).2 = TaskStorage.save_result io.
Proof.
  intros H. unfold TaskManager.UpdateTask, TaskStorage.UpdateTask. rewrite H.
  now rewrite (SaveTask_returns _ _ _ _ t).
Qed.

(** The copy made by [GetAllTasks] has the entries of the registry. *)
Lemma GetAllTasks_copy w : TaskManager.GetAllTasks w = tasks w.
Proof.
  unfold TaskManager.GetAllTasks.
  apply (map_fold_weak_ind (fun r (m : gmap string loc) => r = m)).
  - reflexivity.
  - intros i x m r _ ->. reflexivity.
Qed.

Lemma updateTaskProgress_heap E io wp taskID w p t :
  WorkerPool.tm wp = true ->
  TaskManager.GetTask taskID w = Some p ->
  heap w !! p = Some t ->
  heap (WorkerPool.updateTaskProgress E io wp taskID w)
  = <[p := WorkerPool.aggregate t]> (heap w).
Proof.
  intros Htm Hget Hp. unfold WorkerPool.updateTaskProgress.
  rewrite Htm, Hget, Hp. cbn [negb]. now rewrite UpdateTask_heap.
Qed.

Lemma CreateTask_ok E now io urls w w1 p :
  TaskManager.CreateTask E now io urls w = (w1, (Some p, None)) ->
  heap w1 !! p
  = Some (Task.mk (TaskManager.generateTaskID now) urls domain.StatusPending
            (map (fun url => File.mk url (TaskManager.extractFilename url)
                               domain.StatusPending 0 0 TaskManager.zero_time) urls)
            TaskManager.zero_time 0) /\
  tasks w1 !! TaskManager.generateTaskID now = Some p.
Proof.
  unfold TaskManager.CreateTask.
  set (q := fresh (dom (heap w))). set (w0 := with_tasks _ _).
  pose proof (SaveTask_heap E io q w0) as Hheap.
  pose proof (SaveTask_tasks E io q w0) as Htasks.
  destruct (TaskStorage.SaveTask E io q w0) as [w2 [e|]]; [discriminate|].
  intros [= <- <-]. cbn [fst] in *. rewrite Hheap, Htasks.
  split; apply lookup_insert_eq.
Qed.

End WorldFacts.

(** ** Writes through a file pointer *)

Module PointerFacts.
Import WorkerPool WorldFacts.

Lemma list_alter_lookup {A} (g : A -> A) (l : list A) i x :
  l !! i = Some x -> alter g i l = <[i := g x]> l.
Proof.
  revert i. induction l as [|a l IH]; intros [|i] H; simpl in *; try discriminate.
  - now injection H as ->.
  - f_equal. now apply IH.
Qed.

Lemma update_file_eq p g w t f :
  heap w !! p.1 = Some t -> Task.Files t !! p.2 = Some f ->
  update_file p g w = with_heap (<[p.1 := put_file p.2 (g f) t]> (heap w)) w.
Proof.
  intros Ht Hf. unfold update_file. f_equal.
  apply map_eq. intros q. rewrite lookup_alter, lookup_insert.
  destruct (decide (p.1 = q)) as [<-|Hne].
  - rewrite Ht. cbn. unfold put_file. now rewrite (list_alter_lookup g _ _ f Hf).
  - reflexivity.
Qed.

Lemma file_at_eq p w t :
  heap w !! p.1 = Some t -> file_at p w = Task.Files t !! p.2.
Proof. intros H. unfold file_at. now rewrite H. Qed.

Lemma put_file_put_file i f g t :
  put_file i g (put_file i f t) = put_file i g t.
Proof.
  unfold put_file, Task.with_Files. cbn. f_equal.
  apply list_insert_insert_eq.
Qed.

Lemma put_file_lookup i f t x :
  Task.Files t !! i = Some x -> Task.Files (put_file i f t) !! i = Some f.
Proof.
  intros H. unfold put_file. cbn. apply list_lookup_insert_eq.
  now apply lookup_lt_Some in H.
Qed.

Lemma probe_ok E url n :
  http_Head E url = Some {| StatusCode := 200; ContentLength := n |} ->
  Downloader.GetFileSize E url = inl n.
Proof. intros H. unfold Downloader.GetFileSize. rewrite H. reflexivity. Qed.

Lemma probe_bad_status E url :
  (forall r, http_Head E url = Some r -> StatusCode r <> 200) ->
  exists e, Downloader.GetFileSize E url = inr e.
Proof.
  intros H. unfold Downloader.GetFileSize.
  destruct (http_Head E url) as [r|] eqn:Er; [|eauto].
  specialize (H r eq_refl).
  destruct (Z.eqb_spec (StatusCode r) 200); [contradiction|]. cbn. eauto.
Qed.

(** [processTask] when the size probe fails. *)
Lemma processTask_probe_fails E io wp task w t f e :
  heap w !! (File task).1 = Some t ->
  Task.Files t !! (File task).2 = Some f ->
  Downloader.GetFileSize E (File.URL f) = inr e ->
  processTask E io wp task w
  = with_heap
      (<[(File task).1 := put_file (File task).2 (File.with_Status domain.StatusFailed f) t]>
         (heap w)) w.
Proof.
  intros Ht Hf Hprobe. unfold processTask.
  rewrite (file_at_eq _ _ t Ht), Hf, Hprobe.
  rewrite (update_file_eq _ _ _ t f Ht Hf).
  erewrite update_file_eq;
    [|cbn; apply lookup_insert_eq|eapply put_file_lookup; exact Hf].
  cbn [heap with_heap]. rewrite insert_insert_eq, put_file_put_file. reflexivity.
Qed.

(** [processTask] when the probe and the download succeed. *)
Lemma processTask_succeeds E io wp task w t f size savedName :
  heap w !! (File task).1 = Some t ->
  Task.Files t !! (File task).2 = Some f ->
  Downloader.GetFileSize E (File.URL f) = inl size ->
  Downloader.DownloadFile E (File.URL f) (Downloader.ExtractFilename E (File.URL f))
  = inl savedName ->
  processTask E io wp task w
  = updateTaskProgress E io wp (TaskID task)
      (with_heap
         (<[(File task).1 :=
              put_file (File task).2
                (File.mk (File.URL f) savedName domain.StatusCompleted size size
                   (File.CreatedAt f)) t]> (heap w)) w).
Proof.
  intros Ht Hf Hprobe Hdl. unfold processTask.
  rewrite (file_at_eq _ _ t Ht), Hf, Hprobe, Hdl.
  set (p := File task) in *.
  rewrite (update_file_eq p _ w t f Ht Hf).
  set (f1 := File.with_Status domain.StatusDownloading f).
  set (w1 := with_heap (<[p.1 := put_file p.2 f1 t]> (heap w)) w).
  assert (Ht1 : heap w1 !! p.1 = Some (put_file p.2 f1 t)) by apply lookup_insert_eq.
  assert (Hf1 : Task.Files (put_file p.2 f1 t) !! p.2 = Some f1)
    by (eapply put_file_lookup; exact Hf).
  rewrite (update_file_eq p _ w1 _ f1 Ht1 Hf1).
  set (f2 := File.with_Size size f1).
  set (w2 := with_heap (<[p.1 := put_file p.2 f2 (put_file p.2 f1 t)]> (heap w1)) w1).
  assert (Ht2 : heap w2 !! p.1 = Some (put_file p.2 f2 (put_file p.2 f1 t)))
    by apply lookup_insert_eq.
  assert (Hf2 : Task.Files (put_file p.2 f2 (put_file p.2 f1 t)) !! p.2 = Some f2)
    by (eapply put_file_lookup; exact Hf1).
  rewrite (update_file_eq p _ w2 _ f2 Ht2 Hf2).
  unfold w2, w1. cbn [heap with_heap].
  rewrite !insert_insert_eq, !put_file_put_file. reflexivity.
Qed.

End PointerFacts.

(** ** The aggregation pass on one task *)

Module AggregateFacts.
Import WorkerPool ScanFacts PercentFacts.

Lemma aggregate_progress_range t :
  Z.of_nat (length (Task.Files t)) <= Int64.max_int ->
  0 <= Task.Progress t <= 100 ->
  (0 < WorkerPool.totalSize (WorkerPool.scan (Task.Files t)) ->
   0 <= WorkerPool.downloaded (WorkerPool.scan (Task.Files t))
     <= WorkerPool.totalSize (WorkerPool.scan (Task.Files t))) ->
  0 <= Task.Progress (WorkerPool.aggregate t) <= 100.
Proof.
  intros Hlen Hold Hsums. unfold WorkerPool.aggregate. cbn [Task.Progress Task.with_Status Task.with_Progress].
  destruct (Z.ltb_spec 0 (WorkerPool.totalSize (WorkerPool.scan (Task.Files t)))) as [Hpos|Hnonpos].
  - apply percent_bounds; [exact (Hsums Hpos)|].
    split; [exact Hpos|]. apply scan_totalSize_range.
  - destruct (Z.ltb_spec 0 (Z.of_nat (length (Task.Files t)))) as [Hn|Hn].
    + apply percent_bounds; [apply count_completed_bounds|lia].
    + exact Hold.
Qed.

Lemma aggregate_all_completed t :
  Task.Files t <> [] ->
  Z.of_nat (length (Task.Files t)) <= Int64.max_int ->
  Forall (fun f => File.Status f = domain.StatusCompleted /\
                   File.Downloaded f = File.Size f) (Task.Files t) ->
  Task.Progress (WorkerPool.aggregate t) = 100 /\
  Task.Status (WorkerPool.aggregate t) = domain.StatusCompleted.
Proof.
  intros Hne Hlen Hall.
  assert (Hc : forallb WorkerPool.is_completed (Task.Files t) = true).
  { apply forallb_forall. intros f Hin. rewrite Forall_forall in Hall.
    destruct (Hall f ltac:(apply list_elem_of_In; exact Hin)) as [Hs _].
    unfold WorkerPool.is_completed. rewrite Hs. reflexivity. }
  assert (Hd : WorkerPool.downloaded (WorkerPool.scan (Task.Files t))
               = WorkerPool.totalSize (WorkerPool.scan (Task.Files t))).
  { apply fold_scan_sizes; [|reflexivity].
    eapply Forall_impl; [exact Hall|]. intros f [_ H]. exact H. }
  unfold WorkerPool.aggregate.
  cbn [Task.Progress Task.Status Task.with_Status Task.with_Progress].
  rewrite scan_allCompleted, Hc. split; [|reflexivity].
  destruct (Z.ltb_spec 0 (WorkerPool.totalSize (WorkerPool.scan (Task.Files t)))) as [Hpos|_].
  - rewrite Hd. apply percent_full. split; [exact Hpos|apply scan_totalSize_range].
  - assert (Hn : 0 < Z.of_nat (length (Task.Files t))).
    { destruct (Task.Files t); [congruence|simpl; lia]. }
    replace (0 <? Z.of_nat (length (Task.Files t))) with true
      by (symmetry; apply Z.ltb_lt; exact Hn).
    rewrite count_completed_all by exact Hc. apply percent_full. lia.
Qed.

Lemma aggregate_status t :
  Task.Status (WorkerPool.aggregate t)
  = Claims.status_by_priority (Task.Files t) (Task.Progress (WorkerPool.aggregate t)).
Proof.
  unfold WorkerPool.aggregate, Claims.status_by_priority.
  cbn [Task.Status Task.Progress Task.with_Status Task.with_Progress].
  now rewrite scan_allCompleted, scan_anyInProgress.
Qed.

(** Two bytes of two, the other file without a size and not completed. *)
Lemma aggregate_two_of_two t f0 f1 :
  Task.Files t = [f0; f1] ->
  File.Status f0 = domain.StatusCompleted -> File.Size f0 = 2 -> File.Downloaded f0 = 2 ->
  File.Size f1 = 0 -> File.Downloaded f1 = 0 ->
  File.Status f1 = domain.StatusPending \/ File.Status f1 = domain.StatusFailed ->
  Task.Status (WorkerPool.aggregate t) = domain.StatusDownloading.
Proof.
  intros Hfs Hs0 Hz0 Hd0 Hz1 Hd1 Hs1.
  unfold WorkerPool.aggregate. rewrite Hfs.
  unfold WorkerPool.scan, WorkerPool.scan_step. cbn [fold_left].
  cbn [WorkerPool.totalSize WorkerPool.downloaded WorkerPool.allCompleted
       WorkerPool.anyInProgress Task.Status Task.with_Status].
  rewrite Hs0, Hz0, Hd0, Hz1, Hd1.
  destruct Hs1 as [-> | ->]; vm_compute; reflexivity.
Qed.

(** The three ways in which the pass chooses the progress. *)
Lemma aggregate_progress_cases t :
  (0 < WorkerPool.totalSize (WorkerPool.scan (Task.Files t)) ->
   Task.Progress (WorkerPool.aggregate t)
   = WorkerPool.percent (WorkerPool.downloaded (WorkerPool.scan (Task.Files t)))
       (WorkerPool.totalSize (WorkerPool.scan (Task.Files t)))) /\
  (WorkerPool.totalSize (WorkerPool.scan (Task.Files t)) <= 0 ->
   Task.Files t <> [] ->
   Task.Progress (WorkerPool.aggregate t)
   = WorkerPool.percent (WorkerPool.count_completed (Task.Files t))
       (Z.of_nat (length (Task.Files t)))) /\
  (Task.Files t = [] -> Task.Progress (WorkerPool.aggregate t) = Task.Progress t).
Proof.
  unfold WorkerPool.aggregate. cbn [Task.Progress Task.with_Status Task.with_Progress].
  split; [|split].
  - intros Hpos. now apply Z.ltb_lt in Hpos as ->.
  - intros Hnonpos Hne.
    replace (0 <? WorkerPool.totalSize (WorkerPool.scan (Task.Files t))) with false
      by (symmetry; apply Z.ltb_ge; exact Hnonpos).
    replace (0 <? Z.of_nat (length (Task.Files t))) with true; [reflexivity|].
    symmetry. apply Z.ltb_lt. destruct (Task.Files t); [congruence|cbn [length]; lia].
  - intros ->. reflexivity.
Qed.

(** Two bytes of two bytes are at least one percent of every total from 1
    to 200. *)
Lemma percent_two_positive total :
  1 <= total <= 200 -> 0 < WorkerPool.percent 2 total.
Proof.
  intros Ht.
  assert (Hall : forallb (fun k => 0 <? WorkerPool.percent 2 (Z.of_nat k + 1)) (seq 0 200)
                 = true) by (vm_compute; reflexivity).
  rewrite forallb_forall in Hall.
  specialize (Hall (Z.to_nat (total - 1))).
  replace (Z.of_nat (Z.to_nat (total - 1)) + 1) with total in Hall by lia.
  apply Z.ltb_lt, Hall, in_seq. lia.
Qed.

(** Two bytes of two, the other file failed with nothing downloaded and a
    recorded size of at most 198. *)
Lemma aggregate_two_and_failed t f0 f1 :
  Task.Files t = [f0; f1] ->
  File.Status f0 = domain.StatusCompleted -> File.Size f0 = 2 -> File.Downloaded f0 = 2 ->
  File.Status f1 = domain.StatusFailed -> File.Downloaded f1 = 0 ->
  Int64.min_int <= File.Size f1 <= 198 ->
  Task.Status (WorkerPool.aggregate t) = domain.StatusDownloading.
Proof.
  intros Hfs Hs0 Hz0 Hd0 Hs1 Hd1 Hz1.
  rewrite aggregate_status. unfold Claims.status_by_priority. rewrite Hfs.
  cbn [forallb existsb]. unfold WorkerPool.is_completed, WorkerPool.is_downloading.
  rewrite Hs0, Hs1.
  replace (String.eqb domain.StatusCompleted domain.StatusCompleted) with true by reflexivity.
  replace (String.eqb domain.StatusFailed domain.StatusCompleted) with false by reflexivity.
  replace (String.eqb domain.StatusCompleted domain.StatusDownloading) with false
    by reflexivity.
  replace (String.eqb domain.StatusFailed domain.StatusDownloading) with false by reflexivity.
  cbn [andb orb].
  assert (Htot : WorkerPool.totalSize (WorkerPool.scan (Task.Files t)) = 2 + File.Size f1).
  { rewrite Hfs. unfold WorkerPool.scan. cbn [fold_left WorkerPool.scan_step WorkerPool.totalSize].
    rewrite Hz0. change (Int64.add 0 2) with 2. unfold Int64.add.
    apply wrap_small. unfold Int64.min_int, Int64.max_int in *. lia. }
  assert (Hdl : WorkerPool.downloaded (WorkerPool.scan (Task.Files t)) = 2).
  { rewrite Hfs. unfold WorkerPool.scan. cbn [fold_left WorkerPool.scan_step WorkerPool.downloaded].
    rewrite Hd0, Hd1. reflexivity. }
  destruct (aggregate_progress_cases t) as (Hbytes & Hcount & _).
  replace (0 <? Task.Progress (WorkerPool.aggregate t)) with true; [reflexivity|].
  symmetry. apply Z.ltb_lt.
  destruct (Z.ltb_spec 0 (WorkerPool.totalSize (WorkerPool.scan (Task.Files t))))
    as [Hpos|Hnonpos].
  - rewrite (Hbytes Hpos), Hdl, Htot. apply percent_two_positive. lia.
  - rewrite (Hcount Hnonpos) by (rewrite Hfs; discriminate).
    rewrite Hfs. unfold WorkerPool.count_completed. cbn [fold_left length].
    rewrite Hs0, Hs1.
    replace (String.eqb domain.StatusCompleted domain.StatusCompleted) with true by reflexivity.
    replace (String.eqb domain.StatusFailed domain.StatusCompleted) with false by reflexivity.
    vm_compute. reflexivity.
Qed.

End AggregateFacts.

(** ** Recovery *)

Module RecoveryFacts.
Import TaskManager WorldFacts.

Lemma reset_file_idem f : reset_file (reset_file f) = reset_file f.
Proof.
  unfold reset_file.
  destruct (String.eqb (File.Status f) domain.StatusCompleted) eqn:E; cbn [negb].
  - now rewrite E.
  - reflexivity.
Qed.

Lemma incomplete_reset t : incomplete (reset_task t) = true.
Proof. reflexivity. Qed.

Lemma reset_task_idem t : reset_task (reset_task t) = reset_task t.
Proof.
  unfold reset_task, Task.with_Files, Task.with_Progress, Task.with_Status. cbn.
  f_equal. rewrite <- list_fmap_compose. apply list_fmap_ext.
  intros i f _. apply reset_file_idem.
Qed.

Lemma completed_not_incomplete t :
  Task.Status t = domain.StatusCompleted -> incomplete t = false.
Proof. intros H. unfold incomplete. now rewrite H. Qed.

Lemma alter_lookup_Some {A} (g : A -> A) (m : gmap loc A) p x :
  m !! p = Some x -> alter g p m = <[p := g x]> m.
Proof.
  intros H. apply map_eq. intros q. rewrite lookup_alter, lookup_insert.
  destruct (decide (p = q)); [now rewrite H|reflexivity].
Qed.

Lemma alter_lookup_None {A} (g : A -> A) (m : gmap loc A) p :
  m !! p = None -> alter g p m = m.
Proof.
  intros H. apply map_eq. intros q. rewrite lookup_alter.
  destruct (decide (p = q)) as [<-|]; [now rewrite H|reflexivity].
Qed.

Lemma recover_one_heap E io w n k p :
  heap (recover_one E io (w, n) (k, p)).1 = alter after_recovery p (heap w).
Proof.
  unfold recover_one.
  destruct (heap w !! p) as [t|] eqn:Ht.
  - rewrite (alter_lookup_Some _ _ _ _ Ht). unfold after_recovery.
    destruct (incomplete t) eqn:Hi.
    + set (w1 := with_heap _ w).
      pose proof (UpdateTask_heap E (io k) p w1) as Hh.
      destruct (UpdateTask E (io k) p w1) as [w2 [e|]]; cbn [fst] in *; exact Hh.
    + cbn [fst]. symmetry. now apply insert_id.
  - rewrite alter_lookup_None by exact Ht. reflexivity.
Qed.

Lemma recover_one_saves E io w n k p :
  saves (recover_one E io (w, n) (k, p)).1
  = match heap w !! p with
    | Some t =>
        if incomplete t
        then Build_SaveCall p (reset_task t) (TaskStorage.save_result (io k)) :: saves w
        else saves w
    | None => saves w
    end.
Proof.
  unfold recover_one.
  destruct (heap w !! p) as [t|] eqn:Ht; [|reflexivity].
  destruct (incomplete t) eqn:Hi; [|reflexivity].
  set (w1 := with_heap _ w).
  assert (H1 : heap w1 !! p = Some (reset_task t)) by apply lookup_insert_eq.
  pose proof (UpdateTask_saves E (io k) p w1 _ H1) as Hs.
  destruct (UpdateTask E (io k) p w1) as [w2 [e|]]; cbn [fst] in *; exact Hs.
Qed.

(** An object whose status is completed is not touched, and no call of
    [SaveTask] is made for it. *)
Lemma recover_completed_untouched E io order w n p t :
  heap w !! p = Some t -> Task.Status t = domain.StatusCompleted ->
  let w' := (fold_left (recover_one E io) order (w, n)).1 in
  heap w' !! p = Some t /\
  forall c, c ∈ saves w' -> sc_ptr c = p -> c ∈ saves w.
Proof.
  revert w n. induction order as [|[k q] order IH]; intros w n Hp Hst; cbn [fold_left].
  - split; [exact Hp|auto].
  - destruct (recover_one E io (w, n) (k, q)) as [w1 n1] eqn:E1.
    pose proof (recover_one_heap E io w n k q) as Hh.
    pose proof (recover_one_saves E io w n k q) as Hs.
    rewrite E1 in Hh, Hs. cbn [fst] in Hh, Hs.
    assert (Hp1 : heap w1 !! p = Some t).
    { rewrite Hh, lookup_alter. destruct (decide (q = p)) as [->|]; [|exact Hp].
      rewrite Hp. change (Some (after_recovery t) = Some t).
      unfold after_recovery. now rewrite completed_not_incomplete. }
    destruct (IH w1 n1 Hp1 Hst) as [IH1 IH2]. split; [exact IH1|].
    intros c Hc Hptr. specialize (IH2 c Hc Hptr). rewrite Hs in IH2.
    destruct (heap w !! q) as [tq|] eqn:Hq; [|exact IH2].
    destruct (incomplete tq) eqn:Hi; [|exact IH2].
    apply elem_of_cons in IH2 as [->|]; [|assumption].
    cbn in Hptr. subst q. rewrite Hp in Hq. injection Hq as <-.
    rewrite completed_not_incomplete in Hi by exact Hst. discriminate.
Qed.

Lemma recover_saves_grow E io order w n c :
  c ∈ saves w -> c ∈ saves (fold_left (recover_one E io) order (w, n)).1.
Proof.
  revert w n. induction order as [|[k q] order IH]; intros w n Hc; cbn [fold_left].
  - exact Hc.
  - destruct (recover_one E io (w, n) (k, q)) as [w1 n1] eqn:E1.
    apply IH. replace w1 with (recover_one E io (w, n) (k, q)).1 by now rewrite E1.
    rewrite recover_one_saves.
    destruct (heap w !! q) as [tq|]; [|exact Hc].
    destruct (incomplete tq); [|exact Hc]. now apply elem_of_cons; right.
Qed.

(** An incomplete object that the iteration reaches is reset, and
    [SaveTask] is called on it as reset. *)
Lemma recover_incomplete_reset E io order w n k p t :
  (k, p) ∈ order ->
  heap w !! p = Some t -> incomplete t = true ->
  let w' := (fold_left (recover_one E io) order (w, n)).1 in
  heap w' !! p = Some (reset_task t) /\
  Build_SaveCall p (reset_task t) (TaskStorage.save_result (io k)) ∈ saves w'.
Proof.
  revert w n t.
  assert (Hkeep : forall order w n t, heap w !! p = Some (reset_task t) ->
            heap (fold_left (recover_one E io) order (w, n)).1 !! p = Some (reset_task t)).
  { clear. induction order as [|[k q] order IH]; intros w n t Hp; cbn [fold_left]; [exact Hp|].
    destruct (recover_one E io (w, n) (k, q)) as [w1 n1] eqn:E1.
    apply IH. replace w1 with (recover_one E io (w, n) (k, q)).1 by now rewrite E1.
    rewrite recover_one_heap, lookup_alter.
    destruct (decide (q = p)) as [->|]; [|exact Hp].
    rewrite Hp. change (Some (after_recovery (reset_task t)) = Some (reset_task t)).
    unfold after_recovery. rewrite incomplete_reset. now rewrite reset_task_idem. }
  induction order as [|[k' q] order IH]; intros w n t Hin Hp Hi; [now apply elem_of_nil in Hin|].
  cbn [fold_left].
  destruct (recover_one E io (w, n) (k', q)) as [w1 n1] eqn:E1.
  pose proof (recover_one_heap E io w n k' q) as Hh.
  pose proof (recover_one_saves E io w n k' q) as Hs.
  rewrite E1 in Hh, Hs. cbn [fst] in Hh, Hs.
  destruct (decide (q = p)) as [->|Hne].
  - assert (Hp1 : heap w1 !! p = Some (reset_task t)).
    { rewrite Hh, lookup_alter, decide_True by reflexivity. rewrite Hp.
      change (Some (after_recovery t) = Some (reset_task t)).
      unfold after_recovery. now rewrite Hi. }
    rewrite Hp, Hi in Hs.
    apply elem_of_cons in Hin as [[= <-]|Hin].
    + split; [now apply Hkeep|].
      apply recover_saves_grow. rewrite Hs. now apply elem_of_cons; left.
    + destruct (IH w1 n1 (reset_task t) Hin Hp1 (incomplete_reset t)) as [IH1 IH2].
      rewrite reset_task_idem in IH1, IH2. split; assumption.
  - apply elem_of_cons in Hin as [[= _ Heq]|Hin]; [congruence|].
    apply (IH w1 n1 t Hin); [|exact Hi].
    rewrite Hh, lookup_alter, decide_False by exact Hne. exact Hp.
Qed.

(** Recovery keeps the ID of a task and whether it is incomplete. *)
Lemma after_recovery_keeps_ID t : Task.ID (after_recovery t) = Task.ID t.
Proof. unfold after_recovery. now destruct (incomplete t). Qed.

Lemma after_recovery_keeps_incomplete t : incomplete (after_recovery t) = incomplete t.
Proof.
  unfold after_recovery. destruct (incomplete t) eqn:Ei; [|exact Ei].
  apply incomplete_reset.
Qed.

Lemma recover_one_heap_inv E io w n k q q' t' :
  heap (recover_one E io (w, n) (k, q)).1 !! q' = Some t' ->
  exists t0, heap w !! q' = Some t0 /\ Task.ID t' = Task.ID t0 /\
             incomplete t' = incomplete t0.
Proof.
  rewrite recover_one_heap, lookup_alter.
  destruct (decide (q = q')) as [->|_].
  - destruct (heap w !! q') as [t0|]; [|discriminate]. cbn. intros [= <-].
    exists t0. split; [reflexivity|].
    now rewrite after_recovery_keeps_ID, after_recovery_keeps_incomplete.
  - intros H. exists t'. auto.
Qed.

(** What one [SaveTask] does to the files. *)
Lemma SaveTask_stateDir E io p w : stateDir (TaskStorage.SaveTask E io p w).1 = stateDir w.
Proof.
  unfold TaskStorage.SaveTask. destruct (heap w !! p); [|reflexivity]. now destruct io.
Qed.

Lemma SaveTask_files_frame E io p w t path :
  heap w !! p = Some t ->
  filepath_Join E (stateDir w) (Task.ID t +:+ ".json") <> path ->
  files (fs (TaskStorage.SaveTask E io p w).1) !! path = files (fs w) !! path.
Proof.
  intros Hp Hne. unfold TaskStorage.SaveTask. rewrite Hp.
  destruct io; cbn; try reflexivity; now rewrite lookup_insert_ne.
Qed.

(** What one turn of the loop of recovery does outside the heap. *)
Lemma recover_one_world E io w n k q tq :
  heap w !! q = Some tq -> incomplete tq = true ->
  (recover_one E io (w, n) (k, q)).1
  = (TaskStorage.SaveTask E (io k) q
       (with_tasks (<[Task.ID tq := q]> (tasks w))
          (with_heap (<[q := reset_task tq]> (heap w)) w))).1.
Proof.
  intros Hq Hi. unfold recover_one. rewrite Hq, Hi.
  unfold UpdateTask. cbn [heap with_heap]. rewrite lookup_insert_eq.
  unfold TaskStorage.UpdateTask. cbn [Task.ID reset_task Task.with_Files Task.with_Progress
                                      Task.with_Status].
  now destruct (TaskStorage.SaveTask E (io k) q _) as [w2 [e|]].
Qed.

Lemma recover_one_skips E io w n k q :
  (forall tq, heap w !! q = Some tq -> incomplete tq = false) ->
  recover_one E io (w, n) (k, q) = (w, n).
Proof.
  intros H. unfold recover_one. destruct (heap w !! q) as [tq|]; [|reflexivity].
  now rewrite (H tq eq_refl).
Qed.

Lemma recover_one_stateDir E io w n k q :
  stateDir (recover_one E io (w, n) (k, q)).1 = stateDir w.
Proof.
  destruct (heap w !! q) as [tq|] eqn:Hq.
  - destruct (incomplete tq) eqn:Hi.
    + rewrite (recover_one_world E io w n k q tq Hq Hi). now rewrite SaveTask_stateDir.
    + rewrite recover_one_skips; [reflexivity|]. intros t0. rewrite Hq. now intros [= <-].
  - rewrite recover_one_skips; [reflexivity|]. intros t0. rewrite Hq. discriminate.
Qed.

Lemma recover_one_files_frame E io w n k q path :
  (forall tq, heap w !! q = Some tq -> incomplete tq = true ->
     filepath_Join E (stateDir w) (Task.ID tq +:+ ".json") <> path) ->
  files (fs (recover_one E io (w, n) (k, q)).1) !! path = files (fs w) !! path.
Proof.
  intros H. destruct (heap w !! q) as [tq|] eqn:Hq.
  - destruct (incomplete tq) eqn:Hi.
    + rewrite (recover_one_world E io w n k q tq Hq Hi).
      erewrite SaveTask_files_frame; [reflexivity|cbn; apply lookup_insert_eq|].
      cbn [Task.ID reset_task Task.with_Files Task.with_Progress Task.with_Status stateDir
           with_tasks with_heap].
      now apply H.
    + rewrite recover_one_skips; [reflexivity|]. intros t0. rewrite Hq. now intros [= <-].
  - rewrite recover_one_skips; [reflexivity|]. intros t0. rewrite Hq. discriminate.
Qed.

Lemma recover_one_files_written E io w n k q tq :
  heap w !! q = Some tq -> incomplete tq = true -> io k = NoFault ->
  files (fs (recover_one E io (w, n) (k, q)).1)
    !! filepath_Join E (stateDir w) (Task.ID tq +:+ ".json")
  = Some (Doc (reset_task tq)).
Proof.
  intros Hq Hi Hio. rewrite (recover_one_world E io w n k q tq Hq Hi), Hio.
  set (w0 := with_tasks _ _).
  assert (H0 : heap w0 !! q = Some (reset_task tq)) by (cbn; apply lookup_insert_eq).
  exact (SaveTask_written E q w0 (reset_task tq) H0).
Qed.

Lemma recover_one_registry E io w n k q key :
  (forall tq, heap w !! q = Some tq -> incomplete tq = true -> Task.ID tq <> key) ->
  tasks (recover_one E io (w, n) (k, q)).1 !! key = tasks w !! key.
Proof.
  intros H. destruct (heap w !! q) as [tq|] eqn:Hq.
  - destruct (incomplete tq) eqn:Hi.
    + rewrite (recover_one_world E io w n k q tq Hq Hi), SaveTask_tasks. cbn.
      apply lookup_insert_ne. now apply H.
    + rewrite recover_one_skips; [reflexivity|]. intros t0. rewrite Hq. now intros [= <-].
  - rewrite recover_one_skips; [reflexivity|]. intros t0. rewrite Hq. discriminate.
Qed.

(** The loop leaves alone the file of a path that no incomplete task of the
    iteration is saved under, and the registry entry of a key that is the
    ID of no incomplete task of the iteration. *)
Lemma recover_fold_files_frame E io order w n path :
  (forall k q tq, (k, q) ∈ order -> heap w !! q = Some tq -> incomplete tq = true ->
     filepath_Join E (stateDir w) (Task.ID tq +:+ ".json") <> path) ->
  files (fs (fold_left (recover_one E io) order (w, n)).1) !! path = files (fs w) !! path.
Proof.
  revert w n. induction order as [|[k q] order IH]; intros w n H; [reflexivity|].
  cbn [fold_left].
  pose proof (recover_one_files_frame E io w n k q path) as Hf.
  pose proof (recover_one_stateDir E io w n k q) as Hsd.
  pose proof (fun q' t' => recover_one_heap_inv E io w n k q q' t') as Hinv.
  destruct (recover_one E io (w, n) (k, q)) as [w1 n1]. cbn [fst] in Hf, Hsd, Hinv.
  rewrite IH.
  - apply Hf. intros tq Hq Hi. apply (H k q tq); [apply list_elem_of_here|exact Hq|exact Hi].
  - intros k' q' t' Hin Hq' Hi'. destruct (Hinv q' t' Hq') as (t0 & Hq0 & Hid & Hinc).
    rewrite Hsd, Hid. apply (H k' q' t0); [now apply list_elem_of_further|exact Hq0|].
    now rewrite <- Hinc.
Qed.

Lemma recover_fold_registry E io order w n key :
  (forall k q tq, (k, q) ∈ order -> heap w !! q = Some tq -> incomplete tq = true ->
     Task.ID tq <> key) ->
  tasks (fold_left (recover_one E io) order (w, n)).1 !! key = tasks w !! key.
Proof.
  revert w n. induction order as [|[k q] order IH]; intros w n H; [reflexivity|].
  cbn [fold_left].
  pose proof (recover_one_registry E io w n k q key) as Hf.
  pose proof (fun q' t' => recover_one_heap_inv E io w n k q q' t') as Hinv.
  destruct (recover_one E io (w, n) (k, q)) as [w1 n1]. cbn [fst] in Hf, Hinv.
  rewrite IH.
  - apply Hf. intros tq Hq Hi. apply (H k q tq); [apply list_elem_of_here|exact Hq|exact Hi].
  - intros k' q' t' Hin Hq' Hi'. destruct (Hinv q' t' Hq') as (t0 & Hq0 & Hid & Hinc).
    rewrite Hid. apply (H k' q' t0); [now apply list_elem_of_further|exact Hq0|].
    now rewrite <- Hinc.
Qed.

(** The file of a task that has been reset and written stays as written,
    when the later writes of the task succeed and no other incomplete task
    of the iteration is saved under its path. *)
Lemma recover_fold_files_kept E io order w n p t :
  heap w !! p = Some (reset_task t) ->
  files (fs w) !! filepath_Join E (stateDir w) (Task.ID t +:+ ".json")
  = Some (Doc (reset_task t)) ->
  (forall k, (k, p) ∈ order -> io k = NoFault) ->
  (forall k q tq, (k, q) ∈ order -> q <> p -> heap w !! q = Some tq ->
     incomplete tq = true ->
     filepath_Join E (stateDir w) (Task.ID tq +:+ ".json")
     <> filepath_Join E (stateDir w) (Task.ID t +:+ ".json")) ->
  files (fs (fold_left (recover_one E io) order (w, n)).1)
    !! filepath_Join E (stateDir w) (Task.ID t +:+ ".json")
  = Some (Doc (reset_task t)).
Proof.
  revert w n. induction order as [|[k q] order IH]; intros w n Hp Hf Hio Hother;
    [exact Hf|].
  cbn [fold_left].
  pose proof (recover_one_stateDir E io w n k q) as Hsd.
  pose proof (fun q' t' => recover_one_heap_inv E io w n k q q' t') as Hinv.
  pose proof (recover_one_heap E io w n k q) as Hh.
  assert (Hf1 : files (fs (recover_one E io (w, n) (k, q)).1)
                  !! filepath_Join E (stateDir w) (Task.ID t +:+ ".json")
                = Some (Doc (reset_task t))).
  { destruct (decide (q = p)) as [->|Hne].
    - pose proof (recover_one_files_written E io w n k p (reset_task t) Hp
                    (incomplete_reset t) (Hio k ltac:(apply list_elem_of_here))) as Hw.
      now rewrite reset_task_idem in Hw.
    - rewrite recover_one_files_frame; [exact Hf|].
      intros tq Hq Hi. apply (Hother k q tq); [apply list_elem_of_here|exact Hne|exact Hq|exact Hi]. }
  assert (Hp1 : heap (recover_one E io (w, n) (k, q)).1 !! p = Some (reset_task t)).
  { rewrite Hh, lookup_alter. destruct (decide (q = p)) as [->|_]; [|exact Hp].
    rewrite Hp. change (Some (after_recovery (reset_task t)) = Some (reset_task t)).
    f_equal. unfold after_recovery. rewrite incomplete_reset. apply reset_task_idem. }
  destruct (recover_one E io (w, n) (k, q)) as [w1 n1]. cbn [fst] in *.
  rewrite <- Hsd. apply IH.
  - exact Hp1.
  - now rewrite Hsd.
  - intros k' Hin. apply Hio. now apply list_elem_of_further.
  - intros k' q' t' Hin Hne Hq' Hi'. destruct (Hinv q' t' Hq') as (t0 & Hq0 & Hid & Hinc).
    rewrite Hsd, Hid. apply (Hother k' q' t0); [now apply list_elem_of_further|exact Hne|exact Hq0|].
    now rewrite <- Hinc.
Qed.

Lemma recover_fold_files_written E io order w n k p t :
  (k, p) ∈ order -> heap w !! p = Some t -> incomplete t = true ->
  (forall k', (k', p) ∈ order -> io k' = NoFault) ->
  (forall k' q tq, (k', q) ∈ order -> q <> p -> heap w !! q = Some tq ->
     incomplete tq = true ->
     filepath_Join E (stateDir w) (Task.ID tq +:+ ".json")
     <> filepath_Join E (stateDir w) (Task.ID t +:+ ".json")) ->
  files (fs (fold_left (recover_one E io) order (w, n)).1)
    !! filepath_Join E (stateDir w) (Task.ID t +:+ ".json")
  = Some (Doc (reset_task t)).
Proof.
  revert w n. induction order as [|[k0 q] order IH]; intros w n Hin Hp Hi Hio Hother;
    [now apply elem_of_nil in Hin|].
  cbn [fold_left].
  pose proof (recover_one_stateDir E io w n k0 q) as Hsd.
  pose proof (fun q' t' => recover_one_heap_inv E io w n k0 q q' t') as Hinv.
  pose proof (recover_one_heap E io w n k0 q) as Hh.
  assert (Hrest : forall k' q' t', (k', q') ∈ order -> q' <> p ->
            heap (recover_one E io (w, n) (k0, q)).1 !! q' = Some t' ->
            incomplete t' = true ->
            filepath_Join E (stateDir w) (Task.ID t' +:+ ".json")
            <> filepath_Join E (stateDir w) (Task.ID t +:+ ".json")).
  { intros k' q' t' Hin' Hne Hq' Hi'. destruct (Hinv q' t' Hq') as (t0 & Hq0 & Hid & Hinc).
    rewrite Hid. apply (Hother k' q' t0); [now apply list_elem_of_further|exact Hne|exact Hq0|].
    now rewrite <- Hinc. }
  destruct (decide (q = p)) as [->|Hne].
  - pose proof (recover_one_files_written E io w n k0 p t Hp Hi
                  (Hio k0 ltac:(apply list_elem_of_here))) as Hw.
    assert (Hp1 : heap (recover_one E io (w, n) (k0, p)).1 !! p = Some (reset_task t)).
    { rewrite Hh, lookup_alter. destruct (decide (p = p)) as [_|?]; [|congruence].
      rewrite Hp.
      change (Some (after_recovery t) = Some (reset_task t)).
      f_equal. unfold after_recovery. now rewrite Hi. }
    destruct (recover_one E io (w, n) (k0, p)) as [w1 n1]. cbn [fst] in *.
    rewrite <- Hsd. apply (recover_fold_files_kept E io order w1 n1 p t).
    + exact Hp1.
    + now rewrite Hsd.
    + intros k' Hin'. apply Hio. now apply list_elem_of_further.
    + intros k' q' t' Hin' Hne' Hq' Hi'. rewrite Hsd. now apply (Hrest k' q' t').
  - apply elem_of_cons in Hin as [Heq|Hin]; [congruence|].
    assert (Hp1 : heap (recover_one E io (w, n) (k0, q)).1 !! p = Some t).
    { rewrite Hh, lookup_alter. destruct (decide (q = p)) as [?|_]; [congruence|exact Hp]. }
    destruct (recover_one E io (w, n) (k0, q)) as [w1 n1]. cbn [fst] in *.
    rewrite <- Hsd. apply IH.
    + exact Hin.
    + exact Hp1.
    + exact Hi.
    + intros k' Hin'. apply Hio. now apply list_elem_of_further.
    + intros k' q' t' Hin' Hne' Hq' Hi'. rewrite Hsd. now apply (Hrest k' q' t').
Qed.

End RecoveryFacts.

(** ** Path segments *)

Module PathFacts.
Import Paths.

Lemma strings_Split_nonempty s sep : strings_Split s sep <> [].
Proof.
  destruct s as [|c s]; cbn; [discriminate|].
  destruct (Ascii.eqb c sep); [discriminate|].
  destruct (strings_Split s sep); discriminate.
Qed.

Lemma last_cons_nonempty {A} (x : A) l d : l <> [] -> List.last (x :: l) d = List.last l d.
Proof. destruct l; [congruence|reflexivity]. Qed.

(** The last segment is empty exactly for the empty path and for a path
    that ends in a slash. *)
Lemma last_segment_empty p :
  String.eqb (last_segment p) "" = String.eqb p "" || ends_in_slash p.
Proof.
  unfold last_segment.
  induction p as [|c p IH]; [reflexivity|].
  change (String.eqb (String c p) "") with false. cbn [orb].
  cbn [strings_Split].
  destruct (Ascii.eqb c "/") eqn:Ec.
  - rewrite last_cons_nonempty by apply strings_Split_nonempty. rewrite IH.
    destruct p as [|c' p'].
    + cbn. now rewrite Ec.
    + reflexivity.
  - destruct (strings_Split p "/") as [|x r] eqn:Es;
      [exfalso; eapply strings_Split_nonempty; exact Es|].
    destruct r as [|y r].
    + (* one segment: the path has no slash *)
      cbn [List.last] in *.
      change (String.eqb (String c x) "") with false.
      destruct p as [|c' p'].
      * cbn. now rewrite Ec.
      * change (ends_in_slash (String c (String c' p'))) with (ends_in_slash (String c' p')).
        change (String.eqb (String c' p') "") with false in IH. cbn [orb] in IH.
        rewrite <- IH.
        cbn [strings_Split] in Es.
        destruct (Ascii.eqb c' "/");
          [injection Es as _ Hnil; exfalso; exact (strings_Split_nonempty _ _ Hnil)|].
        destruct (strings_Split p' "/"); simplify_eq; reflexivity.
    + change (List.last (String c x :: y :: r) "") with (List.last (y :: r) "").
      change (List.last (x :: y :: r) "") with (List.last (y :: r) "") in IH.
      rewrite IH. destruct p as [|c' p']; [discriminate|]. reflexivity.
Qed.

End PathFacts.

(** ** Submitting a unit *)

Module AddTaskFacts.
Import WorkerPool.

(** While the pool is neither cancelled nor stopped, a unit is enqueued
    when the buffer has room and dropped otherwise, whatever the runtime
    would pick. *)
Lemma AddTask_running pick task wp :
  ctx_done wp = false -> closed (taskChan wp) = false ->
  AddTask pick task wp
  = if (length (buf (taskChan wp)) <? cap (taskChan wp))%nat
    then (Enqueued,
          Build_t (workers wp)
            (Build_Chan (buf (taskChan wp) ++ [task]) (cap (taskChan wp)) false)
            (ctx_done wp) (tm wp) (once wp))
    else (Dropped, wp).
Proof.
  intros Hd Hc. unfold AddTask, ready_cases, send_ready. rewrite Hd, Hc. cbn [orb].
  destruct (length (buf (taskChan wp)) <? cap (taskChan wp))%nat; cbn [app length].
  - rewrite Nat.mod_1_r. reflexivity.
  - reflexivity.
Qed.

(** A cancelled pool whose buffer is full rejects the unit. *)
Lemma AddTask_cancelled_full pick task wp :
  ctx_done wp = true -> send_ready (taskChan wp) = false ->
  AddTask pick task wp = (Rejected, wp).
Proof.
  intros Hd Hs. unfold AddTask, ready_cases. rewrite Hd, Hs. cbn [app length].
  rewrite Nat.mod_1_r. reflexivity.
Qed.

End AddTaskFacts.

(** ** The model on the inputs of the unit tests *)

Module Examples.
(** The table of [TestDownloaderExtractFilename], with the parser of the
    fixtures. *)
Lemma ExtractFilename_test_table :
  map (Downloader.ExtractFilename Fixtures.env)
    ["http://example.com/file.txt"; "http://example.com/path/to/file.pdf";
     "http://example.com/file.zip?version=1.0"; "http://example.com/file.doc#section1";
     "http://example.com/"; "http://example.com"; "http://x/y/z.txt"]
  = ["file.txt"; "file.pdf"; "file.zip"; "file.doc"; "file_19"; "file_18"; "z.txt"].
Proof. reflexivity. Qed.

(** The quotient is a binary64 quotient: 29 of 100 bytes is 28 percent,
    because 29/100 rounds below 0.29. *)
Lemma percent_29_of_100 : WorkerPool.percent 29 100 = 28.
Proof. reflexivity. Qed.

End Examples.

(** * The claims *)

Import WorldFacts PointerFacts AggregateFacts.

(** ** C1: creation when the save fails *)

(** C1 (as stated) fails: after [CreateTask] with a write fault the registry
    still answers for the generated ID. *)
Lemma C1_counterexample : ~ Claims.C1_as_stated.
Proof.
  intros H.
  specialize (H Fixtures.env 5 WriteFails [Fixtures.urlA] Fixtures.empty_world
                ltac:(discriminate)).
  vm_compute in H. destruct H as (_ & H & _). discriminate H.
Qed.

(** C1 (amended): when the save fails, [CreateTask] returns a nil task and
    the error of the store, and the task it built stays registered under
    the generated ID, pending, with one pending file per URL; [GetTask] and
    [GetAllTasks] both find it. *)
Theorem C1_failed_save_returns_error_task_stays E now io urls w :
  io <> NoFault ->
  let '(w', (created, err)) := TaskManager.CreateTask E now io urls w in
  created = None /\ err = TaskStorage.save_result io /\ err <> None /\
  exists p t,
    TaskManager.GetTask (TaskManager.generateTaskID now) w' = Some p /\
    TaskManager.GetAllTasks w' !! TaskManager.generateTaskID now = Some p /\
    heap w' !! p = Some t /\
    Task.ID t = TaskManager.generateTaskID now /\
    Task.Status t = domain.StatusPending /\
    Task.URLs t = urls /\
    length (Task.Files t) = length urls.
Proof.
  intros Hio. unfold TaskManager.CreateTask.
  set (taskID := TaskManager.generateTaskID now).
  set (p := fresh (dom (heap w))).
  set (task := Task.mk taskID urls domain.StatusPending _ TaskManager.zero_time 0).
  set (w1 := with_tasks _ _).
  assert (Hp : heap w1 !! p = Some task) by apply lookup_insert_eq.
  pose proof (SaveTask_returns E io p w1 task Hp) as Hret.
  pose proof (SaveTask_heap E io p w1) as Hheap.
  pose proof (SaveTask_tasks E io p w1) as Htasks.
  destruct (TaskStorage.SaveTask E io p w1) as [w2 r]. cbn [fst snd] in *.
  assert (Hr : r <> None) by (rewrite Hret; destruct io; [congruence|discriminate..]).
  destruct r as [e|]; [|congruence].
  repeat split; try assumption.
  exists p, task. unfold TaskManager.GetTask. rewrite GetAllTasks_copy, Htasks, Hheap.
  repeat split; try assumption; try apply lookup_insert_eq.
  cbn. now rewrite length_map.
Qed.

(** C1 (amended) at a concrete input: one URL, a state directory that cannot
    be created. *)
Lemma C1_failed_save_witness :
  MkdirFails <> NoFault /\
  let '(w', (created, err)) :=
    TaskManager.CreateTask Fixtures.env 5 MkdirFails [Fixtures.urlA] Fixtures.empty_world in
  created = None /\ err = TaskStorage.save_result MkdirFails /\ err <> None /\
  exists p t,
    TaskManager.GetTask (TaskManager.generateTaskID 5) w' = Some p /\
    TaskManager.GetAllTasks w' !! TaskManager.generateTaskID 5 = Some p /\
    heap w' !! p = Some t /\
    Task.ID t = TaskManager.generateTaskID 5 /\
    Task.Status t = domain.StatusPending /\
    Task.URLs t = [Fixtures.urlA] /\
    length (Task.Files t) = length [Fixtures.urlA].
Proof.
  split; [discriminate|].
  apply (C1_failed_save_returns_error_task_stays Fixtures.env 5 MkdirFails
           [Fixtures.urlA] Fixtures.empty_world).
  discriminate.
Defined.

(** ** C2: the range of the progress *)

(** C2 (as stated) fails: one file completed with 10 of 10 bytes and one
    failed file whose probe reported length -1 give 10 of 9 bytes, and the
    pass stores progress 111. *)
Lemma C2_counterexample : ~ Claims.C2_as_stated.
Proof.
  intros H.
  destruct (H Fixtures.env NoFault Fixtures.pool "task_1"
              (Fixtures.world_with Fixtures.task_mixed) 1%positive Fixtures.task_mixed
              eq_refl eq_refl eq_refl) as (t' & Ht' & Hrange).
  vm_compute in Ht'. injection Ht' as <-. vm_compute in Hrange.
  destruct Hrange as [_ Hle]. apply Hle. reflexivity.
Qed.

(** C2 (amended): if the byte totals the pass computes satisfy
    0 <= sum of Downloaded <= sum of Size whenever the sum of Size is
    positive, then the progress stored by the pass is within [0,100]; of the
    progress before the pass nothing is asked, except of a task without
    files, which keeps it.  The stored progress is the quotient of the byte
    totals when the sum of Size is positive, the percentage of completed
    files when it is not and the task has files, and the progress before
    the pass when the task has no files.  The number of files fits a Go
    int. *)
Theorem C2_progress_in_range E io wp taskID w p t :
  WorkerPool.tm wp = true ->
  TaskManager.GetTask taskID w = Some p ->
  heap w !! p = Some t ->
  Z.of_nat (length (Task.Files t)) <= Int64.max_int ->
  (Task.Files t = [] -> 0 <= Task.Progress t <= 100) ->
  (0 < WorkerPool.totalSize (WorkerPool.scan (Task.Files t)) ->
   0 <= WorkerPool.downloaded (WorkerPool.scan (Task.Files t))
     <= WorkerPool.totalSize (WorkerPool.scan (Task.Files t))) ->
  exists t', heap (WorkerPool.updateTaskProgress E io wp taskID w) !! p = Some t' /\
             0 <= Task.Progress t' <= 100 /\
             (0 < WorkerPool.totalSize (WorkerPool.scan (Task.Files t)) ->
              Task.Progress t'
              = WorkerPool.percent (WorkerPool.downloaded (WorkerPool.scan (Task.Files t)))
                  (WorkerPool.totalSize (WorkerPool.scan (Task.Files t)))) /\
             (WorkerPool.totalSize (WorkerPool.scan (Task.Files t)) <= 0 ->
              Task.Files t <> [] ->
              Task.Progress t'
              = WorkerPool.percent (WorkerPool.count_completed (Task.Files t))
                  (Z.of_nat (length (Task.Files t)))) /\
             (Task.Files t = [] -> Task.Progress t' = Task.Progress t).
Proof.
  intros Htm Hget Hp Hlen Hold Hsums.
  exists (WorkerPool.aggregate t). split.
  { rewrite (updateTaskProgress_heap E io wp taskID w p t Htm Hget Hp).
    apply lookup_insert_eq. }
  destruct (AggregateFacts.aggregate_progress_cases t) as (Hbytes & Hcount & Hnone).
  split; [|split; [exact Hbytes|split; [exact Hcount|exact Hnone]]].
  destruct (Z.ltb_spec 0 (WorkerPool.totalSize (WorkerPool.scan (Task.Files t))))
    as [Hpos|Hnonpos].
  - rewrite (Hbytes Hpos). apply PercentFacts.percent_bounds; [exact (Hsums Hpos)|].
    split; [exact Hpos|]. apply ScanFacts.scan_totalSize_range.
  - destruct (Task.Files t) as [|f fs] eqn:Hfs.
    + rewrite (Hnone eq_refl). now apply Hold.
    + rewrite (Hcount Hnonpos ltac:(discriminate)).
      apply PercentFacts.percent_bounds; [apply ScanFacts.count_completed_bounds|].
      split; [cbn [length]; lia|exact Hlen].
Qed.

(** C2 (amended) at a concrete input: 10 of 40 bytes downloaded, in a task
    whose progress was 111 before the pass. *)
Lemma C2_progress_in_range_witness :
  let t := Task.with_Progress 111 Fixtures.task_quarter in
  WorkerPool.tm Fixtures.pool = true /\
  Z.of_nat (length (Task.Files t)) <= Int64.max_int /\
  (Task.Files t = [] -> 0 <= Task.Progress t <= 100) /\
  (0 < WorkerPool.totalSize (WorkerPool.scan (Task.Files t)) ->
   0 <= WorkerPool.downloaded (WorkerPool.scan (Task.Files t))
     <= WorkerPool.totalSize (WorkerPool.scan (Task.Files t))) /\
  exists t',
    heap (WorkerPool.updateTaskProgress Fixtures.env NoFault Fixtures.pool "task_1"
            (Fixtures.world_with t)) !! 1%positive = Some t' /\
    0 <= Task.Progress t' <= 100.
Proof.
  intros t.
  assert (H1 : Z.of_nat (length (Task.Files t)) <= Int64.max_int)
    by (vm_compute; discriminate).
  assert (H2 : Task.Files t = [] -> 0 <= Task.Progress t <= 100) by discriminate.
  assert (H3 : 0 < WorkerPool.totalSize (WorkerPool.scan (Task.Files t)) ->
               0 <= WorkerPool.downloaded (WorkerPool.scan (Task.Files t))
                 <= WorkerPool.totalSize (WorkerPool.scan (Task.Files t)))
    by (intros _; vm_compute; split; discriminate).
  split; [reflexivity|]. split; [exact H1|]. split; [exact H2|]. split; [exact H3|].
  destruct (C2_progress_in_range Fixtures.env NoFault Fixtures.pool "task_1"
              (Fixtures.world_with t) 1%positive t eq_refl eq_refl eq_refl H1 H2 H3)
    as (t' & Ht' & Hrange & _).
  exists t'. split; [exact Ht'|exact Hrange].
Defined.

(** ** C3: a task without files *)

(** C3 (as stated) fails: the pass makes a pending task without files
    completed. *)
Lemma C3_counterexample : ~ Claims.C3_as_stated.
Proof.
  intros H.
  destruct (H Fixtures.env NoFault Fixtures.pool "task_2"
              (Fixtures.world_with Fixtures.task_no_files) 1%positive Fixtures.task_no_files
              eq_refl eq_refl eq_refl eq_refl eq_refl eq_refl) as (t' & Ht' & _ & Hst).
  vm_compute in Ht'. injection Ht' as <-. discriminate Hst.
Qed.

(** C3 (amended): for a task without files the pass leaves the progress as
    it was (0 for a task that was never aggregated), computes no quotient,
    and sets the status to completed: "all files completed" holds of an
    empty list.  Nothing else of the task changes. *)
Theorem C3_no_files_progress_kept_status_completed E io wp taskID w p t :
  WorkerPool.tm wp = true ->
  TaskManager.GetTask taskID w = Some p ->
  heap w !! p = Some t ->
  Task.Files t = [] ->
  heap (WorkerPool.updateTaskProgress E io wp taskID w) !! p
  = Some (Task.with_Status domain.StatusCompleted t) /\
  Task.Progress (Task.with_Status domain.StatusCompleted t) = Task.Progress t.
Proof.
  intros Htm Hget Hp Hfiles. split; [|reflexivity].
  rewrite (updateTaskProgress_heap E io wp taskID w p t Htm Hget Hp).
  rewrite lookup_insert_eq. f_equal.
  unfold WorkerPool.aggregate. rewrite Hfiles. cbn.
  destruct t; reflexivity.
Qed.

(** C3 (amended) at a concrete input: a pending task without files. *)
Lemma C3_no_files_witness :
  Task.Files Fixtures.task_no_files = [] /\
  heap (WorkerPool.updateTaskProgress Fixtures.env NoFault Fixtures.pool "task_2"
          (Fixtures.world_with Fixtures.task_no_files)) !! 1%positive
  = Some (Task.with_Status domain.StatusCompleted Fixtures.task_no_files).
Proof.
  split; [reflexivity|].
  apply (C3_no_files_progress_kept_status_completed Fixtures.env NoFault Fixtures.pool
           "task_2" (Fixtures.world_with Fixtures.task_no_files) 1%positive
           Fixtures.task_no_files eq_refl eq_refl eq_refl eq_refl).
Defined.

(** ** C4: submitting a unit after cancellation *)

(** C4 at the inputs where the code departs from it.  With the pool's
    context cancelled and room in the buffer the [select] has two cases that
    can proceed, and the unit is enqueued when the runtime picks the send;
    after [Stop] the channel is closed, and the send, when picked, panics. *)
Theorem C4_AddTask_after_cancellation :
  let cancelled := WorkerPool.parent_cancelled Fixtures.pool in
  let stopped := WorkerPool.Stop Fixtures.pool in
  WorkerPool.ctx_done cancelled = true /\
  (WorkerPool.AddTask 0 Fixtures.unit_A cancelled).1 = WorkerPool.Enqueued /\
  WorkerPool.buf (WorkerPool.taskChan (WorkerPool.AddTask 0 Fixtures.unit_A cancelled).2)
  = [Fixtures.unit_A] /\
  (WorkerPool.AddTask 1 Fixtures.unit_A cancelled).1 = WorkerPool.Rejected /\
  WorkerPool.ctx_done stopped = true /\
  (WorkerPool.AddTask 0 Fixtures.unit_A stopped).1 = WorkerPool.Panicked /\
  (WorkerPool.AddTask 1 Fixtures.unit_A stopped).1 = WorkerPool.Rejected.
Proof. cbv zeta. repeat split; reflexivity. Qed.

(** ** C5: the derivation of the task status *)

(** C5 (as stated) fails in its particular case: when file 1 failed at the
    download, after a probe that recorded 1000 bytes, the pass computes
    2 of 1002 bytes, progress 0, and the status is pending. *)
Lemma C5_counterexample : ~ Claims.C5_as_stated.
Proof.
  intros H.
  destruct (H Fixtures.env NoFault Fixtures.pool "task_1"
              (Fixtures.world_with Fixtures.task_large_failure) 1%positive
              Fixtures.task_large_failure eq_refl eq_refl eq_refl)
    as (t' & Ht' & _ & _ & Hst).
  specialize (Hst _ _ eq_refl eq_refl eq_refl eq_refl eq_refl eq_refl).
  vm_compute in Ht'. injection Ht' as <-. discriminate Hst.
Qed.

(** The state of the counterexample is reached by the program: a task is
    created for two URLs, the unit of the second one is processed first,
    its probe reports 1000 bytes and its download fails, and then the unit
    of the first one completes with its two bytes. *)
Lemma C5_download_failure_run :
  let w1 := (TaskManager.CreateTask Fixtures.env_download_fails 1 NoFault
               [Fixtures.urlA; Fixtures.urlB] Fixtures.empty_world).1 in
  let unitA := {| WorkerPool.File := (1%positive, 0%nat); WorkerPool.TaskID := "task_1" |} in
  let unitB := {| WorkerPool.File := (1%positive, 1%nat); WorkerPool.TaskID := "task_1" |} in
  let w' := WorkerPool.processTask Fixtures.env_download_fails NoFault Fixtures.pool unitA
              (WorkerPool.processTask Fixtures.env_download_fails NoFault Fixtures.pool
                 unitB w1) in
  exists t f0 f1,
    heap w' !! 1%positive = Some t /\ Task.Files t = [f0; f1] /\
    File.Status f0 = domain.StatusCompleted /\ File.Size f0 = 2 /\
    File.Status f1 = domain.StatusFailed /\ File.Size f1 = 1000 /\
    Task.Progress t = 0 /\ Task.Status t = domain.StatusPending.
Proof.
  cbv zeta. eexists _, _, _. split; [vm_compute; reflexivity|].
  split; [reflexivity|]. repeat split.
Qed.

(** C5 (amended): the pass derives the status in the priority order all
    completed, some file downloading, progress above zero, pending, for
    every registered task.  The task of two files, file 0 completed with its
    two bytes and file 1 failed with nothing downloaded, is downloading
    after the pass when the recorded size of file 1 is at most 198.  This
    is the case in the scenario of the specification (a task created for
    URLs A and B; A is probed with 200 and length 2 and downloads; the probe
    of B does not answer 200, so that B keeps size 0): after both units
    have been processed, in either order, file 0 is completed with size 2,
    file 1 is failed and the task is downloading. *)
Theorem C5_status_priority_and_scenario :
  (forall E io wp taskID w q t,
     WorkerPool.tm wp = true ->
     TaskManager.GetTask taskID w = Some q -> heap w !! q = Some t ->
     exists t',
       heap (WorkerPool.updateTaskProgress E io wp taskID w) !! q = Some t' /\
       Task.Files t' = Task.Files t /\
       Task.Status t' = Claims.status_by_priority (Task.Files t) (Task.Progress t') /\
       forall f0 f1,
         Task.Files t = [f0; f1] ->
         File.Status f0 = domain.StatusCompleted ->
         File.Size f0 = 2 -> File.Downloaded f0 = 2 ->
         File.Status f1 = domain.StatusFailed -> File.Downloaded f1 = 0 ->
         Int64.min_int <= File.Size f1 <= 198 ->
         Task.Status t' = domain.StatusDownloading) /\
  (forall E now io0 io1 io2 wp w w1 p A B savedName,
     WorkerPool.tm wp = true ->
     TaskManager.CreateTask E now io0 [A; B] w = (w1, (Some p, None)) ->
     http_Head E A = Some {| StatusCode := 200; ContentLength := 2 |} ->
     download E A (Downloader.ExtractFilename E A) = Some savedName ->
     (forall r, http_Head E B = Some r -> StatusCode r <> 200) ->
     let unitA := {| WorkerPool.File := (p, 0%nat);
                     WorkerPool.TaskID := TaskManager.generateTaskID now |} in
     let unitB := {| WorkerPool.File := (p, 1%nat);
                     WorkerPool.TaskID := TaskManager.generateTaskID now |} in
     Claims.scenario_outcome p
       (WorkerPool.processTask E io2 wp unitB (WorkerPool.processTask E io1 wp unitA w1)) /\
     Claims.scenario_outcome p
       (WorkerPool.processTask E io2 wp unitA (WorkerPool.processTask E io1 wp unitB w1))).
Proof.
  split.
  { intros E io wp taskID w0 q t Htm Hget Hq. exists (WorkerPool.aggregate t).
    rewrite (updateTaskProgress_heap E io wp taskID w0 q t Htm Hget Hq), lookup_insert_eq.
    split; [reflexivity|]. split; [reflexivity|]. split; [apply aggregate_status|].
    intros f0 f1 Hfs Hs0 Hz0 Hd0 Hs1 Hd1 Hz1.
    exact (aggregate_two_and_failed t f0 f1 Hfs Hs0 Hz0 Hd0 Hs1 Hd1 Hz1). }
  intros E now io0 io1 io2 wp w w1 p A B savedName Htm Hcreate HheadA HdlA HheadB unitA unitB.
  destruct (CreateTask_ok _ _ _ _ _ _ _ Hcreate) as [Hp Hreg].
  cbn [map] in Hp.
  set (taskID := TaskManager.generateTaskID now) in *.
  set (fA := File.mk A (TaskManager.extractFilename A) domain.StatusPending 0 0
                     TaskManager.zero_time) in *.
  set (fB := File.mk B (TaskManager.extractFilename B) domain.StatusPending 0 0
                     TaskManager.zero_time) in *.
  set (t0 := Task.mk taskID [A; B] domain.StatusPending [fA; fB] TaskManager.zero_time 0) in *.
  set (fA' := File.mk A savedName domain.StatusCompleted 2 2 TaskManager.zero_time).
  set (fB' := File.with_Status domain.StatusFailed fB).
  pose proof (probe_ok E A 2 HheadA) as HprobeA.
  destruct (probe_bad_status E B HheadB) as [eB HprobeB].
  assert (HdownA : Downloader.DownloadFile E A (Downloader.ExtractFilename E A) = inl savedName)
    by (unfold Downloader.DownloadFile; now rewrite HdlA).
  split.
  - (* A first, then B *)
    rewrite (processTask_succeeds E io1 wp unitA w1 t0 fA 2 savedName
               Hp eq_refl HprobeA HdownA).
    cbn [WorkerPool.File WorkerPool.TaskID unitA fst snd File.URL File.CreatedAt fA].
    fold fA'.
    set (tA := WorkerPool.put_file 0 fA' t0).
    set (wA := with_heap (<[p := tA]> (heap w1)) w1).
    assert (HtA : heap wA !! p = Some tA) by apply lookup_insert_eq.
    assert (Hheap2 := updateTaskProgress_heap E io1 wp taskID wA p tA Htm Hreg HtA).
    set (w2 := WorkerPool.updateTaskProgress E io1 wp taskID wA) in *.
    assert (Hp2 : heap w2 !! p = Some (WorkerPool.aggregate tA))
      by (rewrite Hheap2; apply lookup_insert_eq).
    rewrite (processTask_probe_fails E io2 wp unitB w2 (WorkerPool.aggregate tA)
               fB eB Hp2 eq_refl HprobeB).
    exists (WorkerPool.put_file 1 fB' (WorkerPool.aggregate tA)), fA', fB'.
    cbn [heap with_heap WorkerPool.File unitB fst snd]. rewrite lookup_insert_eq.
    do 5 (split; [reflexivity|]).
    change (Task.Status (WorkerPool.put_file 1 fB' (WorkerPool.aggregate tA)))
      with (Task.Status (WorkerPool.aggregate tA)).
    apply (aggregate_two_of_two tA fA' fB); try reflexivity. now left.
  - (* B first, then A *)
    rewrite (processTask_probe_fails E io1 wp unitB w1 t0 fB eB
               Hp eq_refl HprobeB).
    cbn [WorkerPool.File unitB fst snd]. fold fB'.
    set (tB := WorkerPool.put_file 1 fB' t0).
    set (wB := with_heap (<[p := tB]> (heap w1)) w1).
    assert (HtB : heap wB !! p = Some tB) by apply lookup_insert_eq.
    rewrite (processTask_succeeds E io2 wp unitA wB tB fA 2 savedName
               HtB eq_refl HprobeA HdownA).
    cbn [WorkerPool.File WorkerPool.TaskID unitA fst snd File.URL File.CreatedAt fA].
    fold fA'.
    set (tBA := WorkerPool.put_file 0 fA' tB).
    set (wBA := with_heap (<[p := tBA]> (heap wB)) wB).
    assert (HtBA : heap wBA !! p = Some tBA) by apply lookup_insert_eq.
    unfold Claims.scenario_outcome.
    rewrite (updateTaskProgress_heap E io2 wp taskID wBA p tBA Htm Hreg HtBA).
    exists (WorkerPool.aggregate tBA), fA', fB'.
    rewrite lookup_insert_eq.
    do 5 (split; [reflexivity|]).
    apply (aggregate_two_of_two tBA fA' fB'); try reflexivity. now right.
Qed.

(** C5 (amended) at a concrete input: the two URLs of the fixtures, A
    first, and the pass on a task whose second file failed at the probe. *)
Lemma C5_status_priority_and_scenario_witness :
  let '(w1, _) :=
    TaskManager.CreateTask Fixtures.env 1 NoFault [Fixtures.urlA; Fixtures.urlB]
      Fixtures.empty_world in
  http_Head Fixtures.env Fixtures.urlA = Some {| StatusCode := 200; ContentLength := 2 |} /\
  (forall r, http_Head Fixtures.env Fixtures.urlB = Some r -> StatusCode r <> 200) /\
  Claims.scenario_outcome 1%positive
    (WorkerPool.processTask Fixtures.env NoFault Fixtures.pool
       {| WorkerPool.File := (1%positive, 1%nat); WorkerPool.TaskID := "task_1" |}
       (WorkerPool.processTask Fixtures.env NoFault Fixtures.pool Fixtures.unit_A w1)).
Proof.
  assert (HB : forall r, http_Head Fixtures.env Fixtures.urlB = Some r -> StatusCode r <> 200)
    by (intros r [= <-]; discriminate).
  destruct (TaskManager.CreateTask Fixtures.env 1 NoFault [Fixtures.urlA; Fixtures.urlB]
              Fixtures.empty_world) as [w1 r] eqn:Hcreate.
  split; [reflexivity|]. split; [exact HB|].
  assert (Hr : r = (Some 1%positive, None))
    by (apply (f_equal snd) in Hcreate; vm_compute in Hcreate; congruence).
  subst r.
  exact (proj1 (proj2 C5_status_priority_and_scenario Fixtures.env 1 NoFault NoFault NoFault
                  Fixtures.pool Fixtures.empty_world w1 1%positive
                  Fixtures.urlA Fixtures.urlB "hi.txt"
                  eq_refl Hcreate eq_refl eq_refl HB)).
Defined.

(** ** C6: every file completed *)

(** C6: for a task with at least one file, every file completed with
    Downloaded equal to Size, the pass stores progress 100 and status
    completed, whether the byte branch or the count branch computes the
    progress.  The number of files fits a Go int. *)
Theorem C6_all_completed_gives_100_completed E io wp taskID w p t :
  WorkerPool.tm wp = true ->
  TaskManager.GetTask taskID w = Some p ->
  heap w !! p = Some t ->
  Task.Files t <> [] ->
  Z.of_nat (length (Task.Files t)) <= Int64.max_int ->
  Forall (fun f => File.Status f = domain.StatusCompleted /\
                   File.Downloaded f = File.Size f) (Task.Files t) ->
  exists t', heap (WorkerPool.updateTaskProgress E io wp taskID w) !! p = Some t' /\
             Task.Progress t' = 100 /\ Task.Status t' = domain.StatusCompleted.
Proof.
  intros Htm Hget Hp Hne Hlen Hall.
  exists (WorkerPool.aggregate t). split.
  - rewrite (updateTaskProgress_heap E io wp taskID w p t Htm Hget Hp).
    apply lookup_insert_eq.
  - apply aggregate_all_completed; assumption.
Qed.

(** C6 at a concrete input: two completed files, one of unknown size. *)
Lemma C6_all_completed_witness :
  Task.Files Fixtures.task_done <> [] /\
  Forall (fun f => File.Status f = domain.StatusCompleted /\
                   File.Downloaded f = File.Size f) (Task.Files Fixtures.task_done) /\
  exists t',
    heap (WorkerPool.updateTaskProgress Fixtures.env NoFault Fixtures.pool "task_1"
            (Fixtures.world_with Fixtures.task_done)) !! 1%positive = Some t' /\
    Task.Progress t' = 100 /\ Task.Status t' = domain.StatusCompleted.
Proof.
  assert (H1 : Task.Files Fixtures.task_done <> []) by discriminate.
  assert (H2 : Forall (fun f => File.Status f = domain.StatusCompleted /\
                                File.Downloaded f = File.Size f)
                 (Task.Files Fixtures.task_done))
    by (repeat constructor).
  repeat split; try assumption.
  apply (C6_all_completed_gives_100_completed Fixtures.env NoFault Fixtures.pool "task_1"
           (Fixtures.world_with Fixtures.task_done) 1%positive Fixtures.task_done
           eq_refl eq_refl eq_refl H1 ltac:(vm_compute; discriminate) H2).
Defined.

(** ** C7: recovery at startup *)

(** The registry of [Fixtures.world_shared_ID] is the one [NewTaskManager]
    loads from a state directory that holds the two files. *)
Lemma shared_ID_world_is_loaded :
  TaskManager.NewTaskManager Fixtures.env Fixtures.all_readable
    (DirEntries Fixtures.listing_shared_ID) "state" Fixtures.fs_shared_ID
  = Some Fixtures.world_shared_ID.
Proof. vm_compute. reflexivity. Qed.

(** C7 as stated does not hold: in a registry that holds a completed task
    under its ID and, under another key, an interrupted task with the same
    ID, recovery registers the interrupted task under the ID of the completed
    one and writes it into the file of the completed one. *)
Theorem C7_counterexample : ~ Claims.C7_as_stated.
Proof.
  intros H.
  specialize (H Fixtures.env (fun _ => NoFault) (fun l => l) Fixtures.world_shared_ID
                "task_8" 2%positive Fixtures.task_finished
                (fun l => Permutation_refl l) eq_refl eq_refl).
  cbv zeta in H. destruct H as [_ H].
  destruct (H eq_refl) as (_ & Hget & _).
  vm_compute in Hget. discriminate Hget.
Qed.

(** What recovery leaves in the world of the counterexample: the completed
    object is as it was, but [GetTask] on its ID finds the other object and
    its file holds the other task, reset. *)
Lemma shared_ID_after_recovery :
  let w' := (TaskManager.RecoverIncompleteTasks Fixtures.env (fun _ => NoFault) (fun l => l)
               Fixtures.world_shared_ID).1 in
  heap w' !! 2%positive = Some Fixtures.task_finished /\
  TaskManager.GetTask "task_8" w' = Some 1%positive /\
  files (fs w') !! "state/task_8.json"
  = Some (Doc (TaskManager.reset_task Fixtures.task_copy)).
Proof. vm_compute. repeat split. Qed.

(** C7: [RecoverIncompleteTasks], whatever the order in which the registry
    is ranged over and whatever becomes of the writes, turns every task whose
    status is pending or downloading into a pending task with progress 0 in
    which every file that is not completed is pending with Downloaded 0 and
    every completed file is as it was, and calls the store on the task so
    updated; when the writes made for the task succeed and no other
    incomplete task of the registry is saved under the same path, the file of
    the task holds the updated task afterwards.  A task whose status is
    completed is left as it is and the store is not called for it; [GetTask]
    on its key still finds it when no incomplete task of the registry has
    that key as its ID, and its file is as it was when no incomplete task of
    the registry is saved under the same path.  Both conditions hold in a
    registry that holds every task under its own ID, as [CreateTask] fills
    it, when distinct IDs give distinct paths. *)
Theorem C7_recovery_resets_incomplete_tasks_only E io range w k p t :
  (forall l, range l ≡ₚ l) ->
  TaskManager.GetTask k w = Some p ->
  heap w !! p = Some t ->
  let w' := (TaskManager.RecoverIncompleteTasks E io range w).1 in
  let path := filepath_Join E (stateDir w) (Task.ID t +:+ ".json") in
  (Task.Status t = domain.StatusPending \/ Task.Status t = domain.StatusDownloading ->
   exists t',
     heap w' !! p = Some t' /\
     Task.Status t' = domain.StatusPending /\ Task.Progress t' = 0 /\
     Task.ID t' = Task.ID t /\ Task.URLs t' = Task.URLs t /\
     length (Task.Files t') = length (Task.Files t) /\
     (forall i f, Task.Files t !! i = Some f ->
        Task.Files t' !! i
        = Some (if String.eqb (File.Status f) domain.StatusCompleted then f
                else File.with_Downloaded 0 (File.with_Status domain.StatusPending f))) /\
     Build_SaveCall p t' (TaskStorage.save_result (io k)) ∈ saves w' /\
     ((forall k2, TaskManager.GetTask k2 w = Some p -> io k2 = NoFault) ->
      (forall k2 q tq, TaskManager.GetTask k2 w = Some q -> q <> p ->
         heap w !! q = Some tq -> TaskManager.incomplete tq = true ->
         filepath_Join E (stateDir w) (Task.ID tq +:+ ".json") <> path) ->
      files (fs w') !! path = Some (Doc t')) /\
     (Registry.keys_are_IDs w -> Registry.paths_apart E w -> io k = NoFault ->
      files (fs w') !! path = Some (Doc t'))) /\
  (Task.Status t = domain.StatusCompleted ->
   heap w' !! p = Some t /\
   (forall c, c ∈ saves w' -> sc_ptr c = p -> c ∈ saves w) /\
   ((forall k2 q tq, TaskManager.GetTask k2 w = Some q ->
       heap w !! q = Some tq -> TaskManager.incomplete tq = true ->
       Task.ID tq <> k) ->
    TaskManager.GetTask k w' = Some p) /\
   ((forall k2 q tq, TaskManager.GetTask k2 w = Some q ->
       heap w !! q = Some tq -> TaskManager.incomplete tq = true ->
       filepath_Join E (stateDir w) (Task.ID tq +:+ ".json") <> path) ->
    files (fs w') !! path = files (fs w) !! path) /\
   (Registry.keys_are_IDs w ->
    TaskManager.GetTask k w' = Some p /\
    (Registry.paths_apart E w -> files (fs w') !! path = files (fs w) !! path))).
Proof.
  intros Hperm Hget Hp w' path.
  assert (Hreg : forall k2 q, (k2, q) ∈ range (map_to_list (TaskManager.GetAllTasks w)) ->
            TaskManager.GetTask k2 w = Some q).
  { intros k2 q Hin. rewrite Hperm, GetAllTasks_copy in Hin.
    now apply elem_of_map_to_list in Hin. }
  split.
  - intros Hst.
    assert (Hi : TaskManager.incomplete t = true).
    { unfold TaskManager.incomplete. destruct Hst as [-> | ->]; reflexivity. }
    assert (Hin : (k, p) ∈ range (map_to_list (TaskManager.GetAllTasks w))).
    { rewrite Hperm, GetAllTasks_copy. now apply elem_of_map_to_list. }
    destruct (RecoveryFacts.recover_incomplete_reset E io _ w 0 k p t Hin Hp Hi)
      as [Hheap Hsave].
    exists (TaskManager.reset_task t).
    split; [exact Hheap|]. do 4 (split; [reflexivity|]).
    assert (Hfile : (forall k2, TaskManager.GetTask k2 w = Some p -> io k2 = NoFault) ->
              (forall k2 q tq, TaskManager.GetTask k2 w = Some q -> q <> p ->
                 heap w !! q = Some tq -> TaskManager.incomplete tq = true ->
                 filepath_Join E (stateDir w) (Task.ID tq +:+ ".json") <> path) ->
              files (fs w') !! path = Some (Doc (TaskManager.reset_task t))).
    { intros Hio Hother.
      apply (RecoveryFacts.recover_fold_files_written E io _ w 0 k p t Hin Hp Hi).
      - intros k' Hin'. apply Hio. now apply Hreg.
      - intros k' q tq Hin' Hne Hq Hiq. apply (Hother k' q tq); auto. }
    split; [cbn; apply length_map|]. split; [|split; [exact Hsave|split; [exact Hfile|]]].
    + intros i f Hf. cbn [TaskManager.reset_task Task.Files Task.with_Files].
      rewrite list_lookup_fmap, Hf. cbn. unfold TaskManager.reset_file.
      now destruct (String.eqb (File.Status f) domain.StatusCompleted).
    + intros Hkeys Hapart Hio. apply Hfile.
      * intros k2 Hk2. unfold TaskManager.GetTask in *.
        now rewrite <- (Hkeys k2 p t Hk2 Hp), (Hkeys k p t Hget Hp).
      * intros k2 q tq Hk2 Hne Hq _ Heq. unfold TaskManager.GetTask in *.
        apply Hapart in Heq. apply Hne.
        rewrite (Hkeys k2 q tq Hk2 Hq), (Hkeys k p t Hget Hp) in Heq. congruence.
  - intros Hst.
    destruct (RecoveryFacts.recover_completed_untouched E io
                (range (map_to_list (TaskManager.GetAllTasks w))) w 0 p t Hp Hst)
      as [Hheap Hsaves].
    assert (Hkey : (forall k2 q tq, TaskManager.GetTask k2 w = Some q ->
                heap w !! q = Some tq -> TaskManager.incomplete tq = true ->
                Task.ID tq <> k) ->
             TaskManager.GetTask k w' = Some p).
    { intros Hother. unfold TaskManager.GetTask in Hget |- *.
      unfold w', TaskManager.RecoverIncompleteTasks.
      rewrite RecoveryFacts.recover_fold_registry; [exact Hget|].
      intros k' q tq Hin' Hq Hiq. apply (Hother k' q tq); auto. }
    assert (Hfile : (forall k2 q tq, TaskManager.GetTask k2 w = Some q ->
                heap w !! q = Some tq -> TaskManager.incomplete tq = true ->
                filepath_Join E (stateDir w) (Task.ID tq +:+ ".json") <> path) ->
             files (fs w') !! path = files (fs w) !! path).
    { intros Hother. unfold w', TaskManager.RecoverIncompleteTasks.
      apply RecoveryFacts.recover_fold_files_frame.
      intros k' q tq Hin' Hq Hiq. apply (Hother k' q tq); auto. }
    assert (Hmine : forall k2 q tq, Registry.keys_are_IDs w ->
              TaskManager.GetTask k2 w = Some q -> heap w !! q = Some tq ->
              TaskManager.incomplete tq = true -> Task.ID tq <> k).
    { intros k2 q tq Hkeys Hk2 Hq Hiq Heq. unfold TaskManager.GetTask in *.
      rewrite (Hkeys k2 q tq Hk2 Hq) in Heq. subst k2.
      assert (q = p) by congruence. subst q.
      assert (tq = t) by congruence. subst tq.
      rewrite (RecoveryFacts.completed_not_incomplete t Hst) in Hiq. discriminate. }
    split; [exact Hheap|]. split; [exact Hsaves|]. split; [exact Hkey|].
    split; [exact Hfile|].
    intros Hkeys. split.
    + apply Hkey. intros k2 q tq. now apply Hmine.
    + intros Hapart. apply Hfile. intros k2 q tq Hk2 Hq Hiq Heq.
      apply Hapart in Heq. apply (Hmine k2 q tq Hkeys Hk2 Hq Hiq).
      unfold TaskManager.GetTask in Hget. now rewrite Heq, (Hkeys k p t Hget Hp).
Qed.

(** C7 at a concrete input: an interrupted task and a finished one. *)
Lemma C7_recovery_witness :
  let w' := (TaskManager.RecoverIncompleteTasks Fixtures.env (fun _ => NoFault) reverse
               Fixtures.world_restarted).1 in
  (forall l : list (string * loc), reverse l ≡ₚ l) /\
  (exists t',
     heap w' !! 1%positive = Some t' /\
     Task.Status t' = domain.StatusPending /\ Task.Progress t' = 0 /\
     Build_SaveCall 1%positive t' None ∈ saves w' /\
     files (fs w') !! "state/task_7.json" = Some (Doc t')) /\
  heap w' !! 2%positive = Some Fixtures.task_finished /\
  TaskManager.GetTask "task_8" w' = Some 2%positive /\
  files (fs w') !! "state/task_8.json" = None.
Proof.
  intros w'.
  assert (Hperm : forall l : list (string * loc), reverse l ≡ₚ l)
    by (intros l; apply reverse_Permutation).
  assert (Hreg : forall k2 q tq,
            TaskManager.GetTask k2 Fixtures.world_restarted = Some q ->
            heap Fixtures.world_restarted !! q = Some tq ->
            TaskManager.incomplete tq = true ->
            k2 = "task_7" /\ q = 1%positive /\ tq = Fixtures.task_interrupted).
  { intros k2 q tq Hk Hq Hi.
    unfold TaskManager.GetTask, Fixtures.world_restarted in Hk, Hq. cbn [tasks heap] in Hk, Hq.
    apply lookup_insert_Some in Hk as [[<- <-]|[_ Hk]].
    - vm_compute in Hq. now injection Hq as <-.
    - apply lookup_singleton_Some in Hk as [<- <-].
      vm_compute in Hq. injection Hq as <-. discriminate Hi. }
  split; [exact Hperm|].
  destruct (C7_recovery_resets_incomplete_tasks_only Fixtures.env (fun _ => NoFault) reverse
              Fixtures.world_restarted "task_7" 1%positive Fixtures.task_interrupted
              Hperm eq_refl eq_refl) as [Hinc _].
  destruct (C7_recovery_resets_incomplete_tasks_only Fixtures.env (fun _ => NoFault) reverse
              Fixtures.world_restarted "task_8" 2%positive Fixtures.task_finished
              Hperm eq_refl eq_refl) as [_ Hdone].
  split.
  - destruct (Hinc (or_intror eq_refl)) as (t' & H1 & H2 & H3 & _ & _ & _ & _ & H4 & H5 & _).
    exists t'. repeat split; try assumption.
    apply H5; [reflexivity|].
    intros k2 q tq Hk Hne Hq Hi.
    destruct (Hreg k2 q tq Hk Hq Hi) as (_ & Hq1 & _). contradiction.
  - destruct (Hdone eq_refl) as (H1 & _ & H2 & H3 & _).
    split; [exact H1|]. split.
    + apply H2. intros k2 q tq Hk Hq Hi.
      destruct (Hreg k2 q tq Hk Hq Hi) as (_ & _ & ->). discriminate.
    + change (files (fs w') !! "state/task_8.json"
              = files (fs Fixtures.world_restarted) !! "state/task_8.json").
      apply H3. intros k2 q tq Hk Hq Hi.
      destruct (Hreg k2 q tq Hk Hq Hi) as (_ & _ & ->). vm_compute. discriminate.
Defined.

(** ** C8: the two entry points of the store *)

(** C8: [UpdateTask] and [SaveTask] of the store give the same state and
    the same error for every pointer, fault and state; when no fault occurs
    the file of the task holds the document of the task as it is now,
    whatever the file held before. *)
Theorem C8_UpdateTask_is_SaveTask E io task w :
  TaskStorage.UpdateTask E io task w = TaskStorage.SaveTask E io task w /\
  (TaskStorage.UpdateTask E io task w).2 = (TaskStorage.SaveTask E io task w).2 /\
  fs (TaskStorage.UpdateTask E io task w).1 = fs (TaskStorage.SaveTask E io task w).1 /\
  forall t, heap w !! task = Some t -> io = NoFault ->
    (TaskStorage.UpdateTask E io task w).2 = None /\
    files (fs (TaskStorage.UpdateTask E io task w).1)
      !! filepath_Join E (stateDir w) (Task.ID t +:+ ".json") = Some (Doc t).
Proof.
  unfold TaskStorage.UpdateTask. do 3 (split; [reflexivity|]).
  intros t Ht ->. split.
  - now rewrite (SaveTask_returns E NoFault task w t Ht).
  - now apply SaveTask_written.
Qed.

(** C8 at a concrete input: a write without fault into an empty state
    directory. *)
Lemma C8_UpdateTask_is_SaveTask_witness :
  heap (Fixtures.world_with Fixtures.task_done) !! 1%positive = Some Fixtures.task_done /\
  (TaskStorage.UpdateTask Fixtures.env NoFault 1%positive
     (Fixtures.world_with Fixtures.task_done)).2 = None /\
  files (fs (TaskStorage.UpdateTask Fixtures.env NoFault 1%positive
               (Fixtures.world_with Fixtures.task_done)).1)
    !! "state/task_1.json" = Some (Doc Fixtures.task_done).
Proof.
  split; [reflexivity|].
  exact (proj2 (proj2 (proj2 (C8_UpdateTask_is_SaveTask Fixtures.env NoFault 1%positive
                                (Fixtures.world_with Fixtures.task_done))))
           Fixtures.task_done eq_refl eq_refl).
Defined.

(** ** C9: the size probe fails *)

(** C9: when [GetFileSize] fails for the file of a download unit,
    [processTask] leaves that file failed with its URL, Filename, Size and
    Downloaded as they were; every task object keeps its Progress and
    Status; the registry and the file system are as before and [SaveTask]
    has not been called. *)
Theorem C9_failed_probe_only_marks_file_failed E io wp task w f :
  WorkerPool.file_at (WorkerPool.File task) w = Some f ->
  (exists e, Downloader.GetFileSize E (File.URL f) = inr e) ->
  let w' := WorkerPool.processTask E io wp task w in
  (exists f', WorkerPool.file_at (WorkerPool.File task) w' = Some f' /\
     File.Status f' = domain.StatusFailed /\
     File.Size f' = File.Size f /\
     File.Downloaded f' = File.Downloaded f /\
     File.Filename f' = File.Filename f /\
     File.URL f' = File.URL f) /\
  (forall q t, heap w !! q = Some t ->
     exists t', heap w' !! q = Some t' /\
       Task.Progress t' = Task.Progress t /\ Task.Status t' = Task.Status t) /\
  tasks w' = tasks w /\ fs w' = fs w /\ saves w' = saves w.
Proof.
  intros Hf [e He]. unfold WorkerPool.file_at in Hf.
  destruct (heap w !! (WorkerPool.File task).1) as [t|] eqn:Ht; [|discriminate].
  cbn zeta. rewrite (processTask_probe_fails E io wp task w t f e Ht Hf He).
  split; [|split; [|repeat split]].
  - exists (File.with_Status domain.StatusFailed f).
    unfold WorkerPool.file_at. cbn [heap with_heap]. rewrite lookup_insert_eq.
    split; [|repeat split].
    eapply put_file_lookup. exact Hf.
  - intros q t0 Hq. cbn [heap with_heap].
    destruct (decide ((WorkerPool.File task).1 = q)) as [<-|Hne].
    + rewrite lookup_insert_eq. rewrite Ht in Hq. injection Hq as <-.
      eexists. split; [reflexivity|]. split; reflexivity.
    + rewrite lookup_insert_ne by exact Hne. exists t0. repeat split. exact Hq.
Qed.

(** C9 at a concrete input: the probe of the second file answers 404. *)
Lemma C9_failed_probe_witness :
  WorkerPool.file_at (1%positive, 1%nat) (Fixtures.world_with Fixtures.task_quarter)
  = Some (Fixtures.file Fixtures.urlB domain.StatusPending 30 0) /\
  let w' :=
    WorkerPool.processTask Fixtures.env NoFault Fixtures.pool
      {| WorkerPool.File := (1%positive, 1%nat); WorkerPool.TaskID := "task_1" |}
      (Fixtures.world_with Fixtures.task_quarter) in
  (exists f', WorkerPool.file_at (1%positive, 1%nat) w' = Some f' /\
     File.Status f' = domain.StatusFailed /\
     File.Size f' = 30 /\ File.Downloaded f' = 0 /\
     File.Filename f' = "missing" /\ File.URL f' = Fixtures.urlB) /\
  saves w' = [].
Proof.
  split; [reflexivity|].
  pose proof (C9_failed_probe_only_marks_file_failed Fixtures.env NoFault Fixtures.pool
                {| WorkerPool.File := (1%positive, 1%nat); WorkerPool.TaskID := "task_1" |}
                (Fixtures.world_with Fixtures.task_quarter)
                (Fixtures.file Fixtures.urlB domain.StatusPending 30 0)
                eq_refl (ex_intro _ (ErrBadStatus 404) eq_refl)) as (Hfile & _ & _ & _ & Hsaves).
  split; [exact Hfile|exact Hsaves].
Defined.

(** ** C10: the filename of a URL *)

(** C10: [ExtractFilename] never returns the empty string.  It returns
    ["file_" ++ len(u)] when the URL does not parse, when the parsed path is
    empty and when it ends in a slash ("/" included); otherwise it returns
    the last segment of the parsed path, which is then not empty. *)
Theorem C10_ExtractFilename_last_segment_or_fallback E u :
  Downloader.ExtractFilename E u <> "" /\
  Downloader.ExtractFilename E u
  = match neturl_Parse E u with
    | None => Downloader.fallback_name u
    | Some parsed =>
        if String.eqb (Path parsed) "" || Paths.ends_in_slash (Path parsed)
        then Downloader.fallback_name u
        else Paths.last_segment (Path parsed)
    end /\
  Downloader.fallback_name u = "file_" +:+ pretty (String.length u).
Proof.
  assert (Heq : Downloader.ExtractFilename E u
    = match neturl_Parse E u with
      | None => Downloader.fallback_name u
      | Some parsed =>
          if String.eqb (Path parsed) "" || Paths.ends_in_slash (Path parsed)
          then Downloader.fallback_name u
          else Paths.last_segment (Path parsed)
      end).
  { unfold Downloader.ExtractFilename.
    destruct (neturl_Parse E u) as [[p]|]; [|reflexivity]. cbn [Path].
    rewrite <- PathFacts.last_segment_empty. fold (Paths.last_segment p).
    destruct (String.eqb p "" || String.eqb p "/") eqn:Eguard.
    - apply orb_true_iff in Eguard as [H|H]; apply String.eqb_eq in H; subst p; reflexivity.
    - reflexivity. }
  split; [|split; [exact Heq|reflexivity]].
  rewrite Heq. destruct (neturl_Parse E u) as [[p]|]; [|discriminate]. cbn [Path].
  rewrite <- PathFacts.last_segment_empty.
  destruct (String.eqb (Paths.last_segment p) "") eqn:El; [discriminate|].
  intros H. rewrite H in El. discriminate.
Qed.

(** * Further properties of the code *)

(** ** Strings that encoding/json reads back as written *)

Module JsonFacts.

Lemma Valid_coerce s : json.Valid s = true -> json.coerce s = s.
Proof. unfold json.Valid. apply String.eqb_eq. Qed.

Lemma forallb_map_id {A} (ok : A -> bool) (g : A -> A) (l : list A) :
  (forall a, ok a = true -> g a = a) -> forallb ok l = true -> map g l = l.
Proof.
  intros Hg. induction l as [|a l IH]; cbn; [reflexivity|].
  intros H. apply andb_prop in H as [Ha Hl]. now rewrite (Hg a Ha), (IH Hl).
Qed.

(** A task whose strings are valid UTF-8 is what the decoder makes of the
    document the encoder writes for it. *)
Lemma decoded_round_trips t : json.round_trips t = true -> json.decoded t = t.
Proof.
  unfold json.round_trips, json.decoded. destruct t as [id urls st fl ca pr].
  cbn [Task.ID Task.URLs Task.Status Task.Files Task.CreatedAt Task.Progress].
  intros H. apply andb_prop in H as [H Hf]. apply andb_prop in H as [H Hs].
  apply andb_prop in H as [Hi Hu].
  rewrite (Valid_coerce _ Hi), (Valid_coerce _ Hs).
  rewrite (forallb_map_id json.Valid json.coerce urls Valid_coerce Hu).
  rewrite (forallb_map_id _ json.decoded_file fl) with (2 := Hf); [reflexivity|].
  intros [u n s z d c]. unfold json.decoded_file. cbn.
  intros Ha. apply andb_prop in Ha as [Ha H3]. apply andb_prop in Ha as [H1 H2].
  now rewrite (Valid_coerce _ H1), (Valid_coerce _ H2), (Valid_coerce _ H3).
Qed.

(** A byte that starts no encoding is read back as U+FFFD. *)
Lemma coerce_invalid_byte :
  json.coerce (String (ascii_of_N 255) "a") = json.replacement "a"
  /\ json.Valid (String (ascii_of_N 255) "a") = false.
Proof. split; reflexivity. Qed.

End JsonFacts.

(** ** The reading half of the store *)

Module StorageFacts.
Import TaskStorage.

Lemma ext_scan_json s : ext_scan (s +:+ ".json") = Some ".json"%string.
Proof.
  induction s as [|c s IH]; [reflexivity|].
  change (String c s +:+ ".json") with (String c (s +:+ ".json")).
  change (ext_scan (String c (s +:+ ".json")))
    with (match ext_scan (s +:+ ".json") with
          | Some e => Some e
          | None =>
              if Ascii.eqb c "." then Some (String c (s +:+ ".json"))
              else if Ascii.eqb c "/" then Some EmptyString else None
          end).
  now rewrite IH.
Qed.

Lemma filepath_Ext_json s : filepath_Ext (s +:+ ".json") = ".json"%string.
Proof. unfold filepath_Ext. now rewrite ext_scan_json. Qed.

Lemma ext_scan_suffix path e :
  ext_scan path = Some e -> e <> EmptyString -> exists stem, path = stem +:+ e.
Proof.
  revert e. induction path as [|c rest IH]; intros e H Hne; [discriminate|].
  cbn [ext_scan] in H. destruct (ext_scan rest) as [e'|] eqn:Er.
  - injection H as <-. destruct (IH e' eq_refl Hne) as [stem ->].
    now exists (String c stem).
  - destruct (Ascii.eqb c "."); [injection H as <-; now exists EmptyString|].
    destruct (Ascii.eqb c "/"); [|discriminate].
    injection H as <-. now destruct Hne.
Qed.

Lemma filepath_Ext_stem name :
  filepath_Ext name = ".json"%string -> exists stem, name = stem +:+ ".json".
Proof.
  unfold filepath_Ext. destruct (ext_scan name) as [e|] eqn:Es; cbn; [|discriminate].
  intros ->. now apply ext_scan_suffix.
Qed.

Lemma length_append_json stem :
  String.length (stem +:+ ".json") = (String.length stem + 5)%nat.
Proof.
  induction stem as [|c s IH]; [reflexivity|].
  change (String c s +:+ ".json") with (String c (s +:+ ".json")).
  cbn [String.length]. now rewrite IH.
Qed.

Lemma substring_stem stem rest :
  substring 0 (String.length stem) (stem +:+ rest) = stem.
Proof.
  induction stem as [|c s IH].
  - now destruct rest.
  - change (String c s +:+ rest) with (String c (s +:+ rest)).
    cbn [String.length substring]. now rewrite IH.
Qed.

Lemma drop_json_stem stem : drop_json (stem +:+ ".json") = Some stem.
Proof.
  unfold drop_json. rewrite length_append_json.
  replace (5 <=? String.length stem + 5)%nat with true
    by (symmetry; apply Nat.leb_le; lia).
  replace (String.length stem + 5 - 5)%nat with (String.length stem) by lia.
  now rewrite substring_stem.
Qed.

(** The two ways [LoadTask] can end. *)
Lemma LoadTask_cases E unreadable taskID w :
  let filePath := filepath_Join E (stateDir w) (taskID +:+ ".json") in
  (exists t, unreadable filePath = false /\ files (fs w) !! filePath = Some (Doc t) /\
     LoadTask E unreadable taskID w
     = (with_heap (<[fresh (dom (heap w)) := t]> (heap w)) w, inl (fresh (dom (heap w)))))
  \/ (exists e, LoadTask E unreadable taskID w = (w, inr e)).
Proof.
  intros filePath. unfold LoadTask. fold filePath.
  destruct (unreadable filePath) eqn:Eu; [right; eauto|].
  destruct (files (fs w) !! filePath) as [[t|]|] eqn:Ef; [left|right|right]; eauto.
Qed.

Lemma fresh_heap (h : gmap loc Task.t) : h !! fresh (dom h) = None.
Proof. apply not_elem_of_dom, is_fresh. Qed.

(** What the loop of [LoadAllTasks] keeps true of its world and of the map
    it builds. *)
Record loaded (E : Env) (unreadable : string -> bool) (entries : list DirEntry)
    (w w' : World) (m : gmap string loc) : Prop := {
  loaded_stateDir : stateDir w' = stateDir w;
  loaded_fs : fs w' = fs w;
  loaded_tasks : tasks w' = tasks w;
  loaded_saves : saves w' = saves w;
  loaded_heap : forall p t, heap w !! p = Some t -> heap w' !! p = Some t;
  loaded_entry : forall k p, m !! k = Some p ->
    heap w !! p = None /\
    exists t, heap w' !! p = Some t /\
      {| Name := k +:+ ".json"; IsDir := false |} ∈ entries /\
      unreadable (filepath_Join E (stateDir w) (k +:+ ".json")) = false /\
      files (fs w) !! filepath_Join E (stateDir w) (k +:+ ".json") = Some (Doc t);
  loaded_inj : forall k1 k2 p, m !! k1 = Some p -> m !! k2 = Some p -> k1 = k2
}.

Lemma loaded_start E unreadable entries w : loaded E unreadable entries w w ∅.
Proof. split; try reflexivity; try easy. Qed.

Lemma load_entry_loaded E unreadable entries w w' m entry :
  loaded E unreadable entries w w' m -> entry ∈ entries ->
  exists w'' m', load_entry E unreadable (Some (w', m)) entry = Some (w'', m') /\
                 loaded E unreadable entries w w'' m'.
Proof.
  intros L Hin. unfold load_entry.
  destruct (IsDir entry) eqn:Ed; [eauto|].
  destruct (String.eqb (filepath_Ext (Name entry)) ".json") eqn:Ex; cbn [negb]; [|eauto].
  apply String.eqb_eq in Ex. destruct (filepath_Ext_stem _ Ex) as [stem Hn].
  rewrite Hn, drop_json_stem.
  assert (Hent : {| Name := stem +:+ ".json"; IsDir := false |} ∈ entries).
  { rewrite <- Hn, <- Ed. now destruct entry. }
  destruct (LoadTask_cases E unreadable stem w') as [(t & Hu & Hf & ->)|[e ->]]; [|eauto].
  eexists _, _. split; [reflexivity|].
  destruct L as [Hsd Hfs Htk Hsv Hhp Hen Hinj].
  assert (Hfr : heap w' !! fresh (dom (heap w')) = None) by apply fresh_heap.
  split; cbn; try assumption.
  - intros p t' Hp. rewrite lookup_insert_ne; [now apply Hhp|].
    intros <-. apply Hhp in Hp. congruence.
  - intros k p Hk. destruct (decide (k = stem)) as [->|Hne].
    + rewrite lookup_insert_eq in Hk. injection Hk as <-. split.
      * destruct (heap w !! fresh (dom (heap w'))) as [t'|] eqn:Ew; [|reflexivity].
        apply Hhp in Ew. congruence.
      * exists t. rewrite lookup_insert_eq. rewrite <- Hsd, <- Hfs. auto.
    + rewrite lookup_insert_ne in Hk by congruence.
      destruct (Hen k p Hk) as (Hnone & t' & Hp & Hrest). split; [assumption|].
      exists t'. split; [|assumption].
      rewrite lookup_insert_ne; [assumption|]. intros <-. congruence.
  - intros k1 k2 p H1 H2.
    destruct (decide (k1 = stem)) as [->|N1], (decide (k2 = stem)) as [->|N2];
      [reflexivity| | |].
    + rewrite lookup_insert_eq in H1. rewrite lookup_insert_ne in H2 by congruence.
      injection H1 as <-. destruct (Hen k2 _ H2) as (_ & t' & Hp & _). congruence.
    + rewrite lookup_insert_eq in H2. rewrite lookup_insert_ne in H1 by congruence.
      injection H2 as <-. destruct (Hen k1 _ H1) as (_ & t' & Hp & _). congruence.
    + rewrite lookup_insert_ne in H1, H2 by congruence. eauto.
Qed.

Lemma fold_load_entry_loaded E unreadable entries w l w' m :
  loaded E unreadable entries w w' m -> l ⊆ entries ->
  exists w'' m', fold_left (load_entry E unreadable) l (Some (w', m)) = Some (w'', m') /\
                 loaded E unreadable entries w w'' m'.
Proof.
  revert w' m. induction l as [|entry l IH]; intros w' m L Hsub; [cbn; eauto|].
  destruct (load_entry_loaded E unreadable entries w w' m entry L) as (w1 & m1 & Hstep & L1).
  { apply Hsub. left. }
  cbn [fold_left]. rewrite Hstep.
  apply IH; [assumption|]. intros x Hx. apply Hsub. now right.
Qed.

(** Once a key holds a pointer to [t], the rest of the loop leaves a pointer
    to [t] under it, when the file of the key holds a document of [t]. *)
Lemma fold_load_entry_keeps E unreadable l w' m k t :
  (forall p, m !! k = Some p -> heap w' !! p = Some t) ->
  (unreadable (filepath_Join E (stateDir w') (k +:+ ".json")) = false ->
   forall t', files (fs w') !! filepath_Join E (stateDir w') (k +:+ ".json") = Some (Doc t') ->
     t' = t) ->
  forall w'' m', fold_left (load_entry E unreadable) l (Some (w', m)) = Some (w'', m') ->
  (is_Some (m !! k) -> is_Some (m' !! k)) /\
  (forall p, m' !! k = Some p -> heap w'' !! p = Some t).
Proof.
  revert w' m. induction l as [|entry l IH]; intros w' m Hm Hdoc w'' m' Hfold.
  - cbn in Hfold. injection Hfold as <- <-. auto.
  - cbn [fold_left] in Hfold.
    destruct (load_entry E unreadable (Some (w', m)) entry) as [[w1 m1]|] eqn:Estep.
    2:{ exfalso. clear -Hfold. induction l; cbn in Hfold; [discriminate|auto]. }
    assert (Hstep : stateDir w1 = stateDir w' /\ fs w1 = fs w' /\
                    (is_Some (m !! k) -> is_Some (m1 !! k)) /\
                    (forall p, m1 !! k = Some p -> heap w1 !! p = Some t)).
    { unfold load_entry in Estep.
      destruct (IsDir entry); [injection Estep as <- <-; auto|].
      destruct (negb _); [injection Estep as <- <-; auto|].
      destruct (drop_json (Name entry)) as [taskID|]; [|discriminate].
      destruct (LoadTask_cases E unreadable taskID w') as [(t' & Hu & Hf & Hl)|[e Hl]];
        rewrite Hl in Estep; injection Estep as <- <-; [|auto].
      do 2 (split; [reflexivity|]). cbn. split.
      - intros Hs. destruct (decide (taskID = k)) as [->|Hne].
        + rewrite lookup_insert_eq. eauto.
        + rewrite lookup_insert_ne by assumption. assumption.
      - intros p. destruct (decide (taskID = k)) as [->|Hne].
        + rewrite lookup_insert_eq. intros [= <-]. rewrite lookup_insert_eq.
          f_equal. now apply Hdoc.
        + rewrite lookup_insert_ne by assumption. intros Hp.
          rewrite lookup_insert_ne; [now apply Hm|].
          intros <-. apply Hm in Hp. rewrite fresh_heap in Hp. discriminate. }
    destruct Hstep as (Hsd & Hfs & Hsome & Hptr).
    destruct (IH w1 m1 Hptr) with (w'' := w'') (m' := m') as [H1 H2]; [|assumption|].
    { rewrite Hsd, Hfs. exact Hdoc. }
    split; auto.
Qed.

End StorageFacts.

Module RestartFacts.
Import TaskStorage StorageFacts.

Lemma load_entry_listed E unreadable w' m k t :
  unreadable (filepath_Join E (stateDir w') (k +:+ ".json")) = false ->
  files (fs w') !! filepath_Join E (stateDir w') (k +:+ ".json") = Some (Doc t) ->
  load_entry E unreadable (Some (w', m)) {| Name := k +:+ ".json"; IsDir := false |}
  = Some (with_heap (<[fresh (dom (heap w')) := t]> (heap w')) w',
          <[k := fresh (dom (heap w'))]> m).
Proof.
  intros Hu Hf. unfold load_entry. cbn [IsDir Name].
  rewrite filepath_Ext_json, drop_json_stem. cbn [String.eqb negb].
  replace (String.eqb ".json" ".json") with true by reflexivity. cbn [negb].
  unfold LoadTask. now rewrite Hu, Hf.
Qed.

Lemma LoadAllTasks_listed E unreadable entries w k t :
  {| Name := k +:+ ".json"; IsDir := false |} ∈ entries ->
  unreadable (filepath_Join E (stateDir w) (k +:+ ".json")) = false ->
  files (fs w) !! filepath_Join E (stateDir w) (k +:+ ".json") = Some (Doc t) ->
  exists w' m p,
    LoadAllTasks E unreadable (DirEntries entries) w = Some (w', inl m) /\
    m !! k = Some p /\ heap w' !! p = Some t /\
    loaded E unreadable entries w w' m.
Proof.
  intros Hin Hu Hf.
  destruct (list_elem_of_split _ _ Hin) as (l1 & l2 & Hsplit).
  assert (Hsub : forall x, x ∈ l1 ++ {| Name := k +:+ ".json"; IsDir := false |} :: l2 ->
                           x ∈ entries) by (now rewrite <- Hsplit).
  unfold LoadAllTasks.
  cut (exists w' m p,
         fold_left (load_entry E unreadable)
           (l1 ++ {| Name := k +:+ ".json"; IsDir := false |} :: l2) (Some (w, ∅))
         = Some (w', m) /\
         m !! k = Some p /\ heap w' !! p = Some t /\ loaded E unreadable entries w w' m).
  { rewrite <- Hsplit. intros (w' & m & p & -> & H). eauto. }
  clear Hsplit. rewrite fold_left_app. cbn [fold_left].
  destruct (fold_load_entry_loaded E unreadable entries w l1 w ∅) as (wa & ma & -> & La).
  { apply loaded_start. }
  { intros x Hx. apply Hsub, elem_of_app. now left. }
  assert (Hua : unreadable (filepath_Join E (stateDir wa) (k +:+ ".json")) = false).
  { now rewrite (loaded_stateDir _ _ _ _ _ _ La). }
  assert (Hfa : files (fs wa) !! filepath_Join E (stateDir wa) (k +:+ ".json") = Some (Doc t)).
  { now rewrite (loaded_stateDir _ _ _ _ _ _ La), (loaded_fs _ _ _ _ _ _ La). }
  pose proof (load_entry_listed E unreadable wa ma k t Hua Hfa) as Hstep.
  destruct (load_entry_loaded E unreadable entries w wa ma _ La Hin) as (wb & mb & Hstep' & Lb).
  rewrite Hstep in Hstep'. rewrite Hstep.
  destruct (fold_load_entry_loaded E unreadable entries w l2 wb mb Lb) as (wc & mc & Hfold & Lc).
  { intros x Hx. apply Hsub, elem_of_app. right. now right. }
  injection Hstep' as Hwb Hmb. rewrite Hwb, Hmb, Hfold.
  destruct (fold_load_entry_keeps E unreadable l2 wb mb k t) with (w'' := wc) (m' := mc)
    as [Hsome Hptr].
  - intros p. rewrite <- Hmb, <- Hwb, lookup_insert_eq. intros [= <-].
    cbn. now rewrite lookup_insert_eq.
  - intros _ t'. rewrite (loaded_stateDir _ _ _ _ _ _ Lb), (loaded_fs _ _ _ _ _ _ Lb), Hf.
    congruence.
  - exact Hfold.
  - destruct Hsome as [p Hp]. { rewrite <- Hmb, lookup_insert_eq. eauto. }
    exists wc, mc, p. auto.
Qed.

Lemma CreateTask_world E now io urls w :
  let task :=
    Task.mk (TaskManager.generateTaskID now) urls domain.StatusPending
      (map (fun url => File.mk url (TaskManager.extractFilename url)
                         domain.StatusPending 0 0 TaskManager.zero_time) urls)
      TaskManager.zero_time 0 in
  let p := fresh (dom (heap w)) in
  let w0 := with_tasks (<[TaskManager.generateTaskID now := p]> (tasks w))
              (with_heap (<[p := task]> (heap w)) w) in
  heap w0 !! p = Some task /\
  TaskManager.CreateTask E now io urls w
  = ((SaveTask E io p w0).1,
     match save_result io with
     | Some err => (None, Some err)
     | None => (Some p, None)
     end).
Proof.
  intros task p w0.
  assert (Hp : heap w0 !! p = Some task) by (cbn; apply lookup_insert_eq).
  split; [exact Hp|].
  unfold TaskManager.CreateTask. fold task p w0.
  pose proof (WorldFacts.SaveTask_returns E io p w0 task Hp) as Hr.
  destruct (SaveTask E io p w0) as [w2 r]. cbn in Hr. subst r.
  now destruct (save_result io).
Qed.

End RestartFacts.

(** ** The store: saving, loading, deleting *)

(** X1: a task whose strings are valid UTF-8, so that the document
    [encoding/json] writes for it decodes to the task itself, saved without
    fault and then loaded under its ID comes back as a new object with the
    same contents: [LoadTask] returns a pointer that was not in use, the
    object behind it equals the saved one, and the object that was saved,
    the other objects and the registry are as they were. *)
Theorem SaveTask_then_LoadTask E unreadable p w t :
  heap w !! p = Some t ->
  json.round_trips t = true ->
  unreadable (filepath_Join E (stateDir w) (Task.ID t +:+ ".json")) = false ->
  let w1 := (TaskStorage.SaveTask E NoFault p w).1 in
  let r := TaskStorage.LoadTask E unreadable (Task.ID t) w1 in
  json.decoded t = t /\
  files (fs w1) !! filepath_Join E (stateDir w) (Task.ID t +:+ ".json")
  = Some (Doc (json.decoded t)) /\
  exists q,
    r.2 = inl q /\ q <> p /\ heap w !! q = None /\
    heap r.1 !! q = Some t /\ heap r.1 !! p = Some t /\
    (forall x, x <> q -> heap r.1 !! x = heap w !! x) /\
    tasks r.1 = tasks w /\ fs r.1 = fs w1.
Proof.
  intros Ht Hv Hu w1 r. subst r w1.
  split; [now apply JsonFacts.decoded_round_trips|].
  split.
  { rewrite (JsonFacts.decoded_round_trips t Hv).
    exact (WorldFacts.SaveTask_written E p w t Ht). }
  unfold TaskStorage.SaveTask. rewrite Ht. cbn [fst].
  unfold TaskStorage.LoadTask. cbn [stateDir with_saves with_fs fs files heap].
  rewrite Hu, lookup_insert_eq. cbn [fst snd heap with_heap].
  set (q := fresh (dom (heap w))).
  assert (Hq : heap w !! q = None) by apply StorageFacts.fresh_heap.
  exists q. split; [reflexivity|].
  split; [intros ->; congruence|]. split; [exact Hq|].
  split; [apply lookup_insert_eq|].
  split; [rewrite lookup_insert_ne; [exact Ht|intros ->; congruence]|].
  split; [intros x Hx; now rewrite lookup_insert_ne|].
  split; reflexivity.
Qed.

(** X1 at a concrete input: a task saved into an empty state directory. *)
Lemma SaveTask_then_LoadTask_witness :
  let w := Fixtures.world_with Fixtures.task_done in
  heap w !! 1%positive = Some Fixtures.task_done /\
  json.round_trips Fixtures.task_done = true /\
  let w1 := (TaskStorage.SaveTask Fixtures.env NoFault 1%positive w).1 in
  let r := TaskStorage.LoadTask Fixtures.env (fun _ => false) "task_1" w1 in
  exists q,
    r.2 = inl q /\ q <> 1%positive /\ heap w !! q = None /\
    heap r.1 !! q = Some Fixtures.task_done /\ heap r.1 !! 1%positive = Some Fixtures.task_done /\
    (forall x, x <> q -> heap r.1 !! x = heap w !! x) /\
    tasks r.1 = tasks w /\ fs r.1 = fs w1.
Proof.
  split; [reflexivity|]. split; [reflexivity|].
  exact (proj2 (proj2 (SaveTask_then_LoadTask Fixtures.env (fun _ => false) 1%positive
           (Fixtures.world_with Fixtures.task_done) Fixtures.task_done eq_refl eq_refl eq_refl))).
Defined.

(** X2: a save that fails before the file is opened leaves the files as
    they were, so that [LoadTask] returns for the task what it returned
    before the save, the same pointer or error and behind the pointer the
    same object; a save that fails while writing leaves a file that
    [LoadTask] cannot decode, so that the version saved before is lost as
    well and nothing is loaded. *)
Theorem failed_SaveTask_then_LoadTask E unreadable io p w t :
  heap w !! p = Some t -> io <> NoFault ->
  let w1 := (TaskStorage.SaveTask E io p w).1 in
  let filePath := filepath_Join E (stateDir w) (Task.ID t +:+ ".json") in
  let r1 := TaskStorage.LoadTask E unreadable (Task.ID t) w1 in
  let r := TaskStorage.LoadTask E unreadable (Task.ID t) w in
  r1.2
  = match io with
    | WriteFails =>
        if unreadable filePath then inr TaskStorage.ErrReadTaskFile
        else inr TaskStorage.ErrUnmarshalTask
    | _ => r.2
    end /\
  match io with
  | WriteFails =>
      files (fs w1) !! filePath = Some Truncated /\ heap r1.1 = heap w
  | _ =>
      files (fs w1) = files (fs w) /\ heap r1.1 = heap r.1 /\
      forall q, r1.2 = inl q ->
        exists t0, files (fs w) !! filePath = Some (Doc t0) /\ heap r1.1 !! q = Some t0
  end.
Proof.
  intros Ht Hio w1 filePath r1 r. subst r1 r w1.
  unfold TaskStorage.SaveTask. rewrite Ht.
  unfold TaskStorage.LoadTask. fold filePath.
  destruct io; try congruence; cbn [fst stateDir with_saves with_fs fs files heap];
    fold filePath.
  1-3: destruct (unreadable filePath);
       [|destruct (files (fs w) !! filePath) as [[t0|]|]];
       cbn [fst snd heap with_heap with_saves with_fs fs files];
       (split; [reflexivity|]); (split; [reflexivity|]); (split; [reflexivity|]);
       intros q0 Hq0; try discriminate Hq0;
       injection Hq0 as <-; exists t0; split; [reflexivity|apply lookup_insert_eq].
  rewrite lookup_insert_eq. destruct (unreadable filePath); repeat split.
Qed.

(** X2 at a concrete input: a write that fails midway into an empty state
    directory. *)
Lemma failed_SaveTask_then_LoadTask_witness :
  let w := Fixtures.world_with Fixtures.task_done in
  heap w !! 1%positive = Some Fixtures.task_done /\ WriteFails <> NoFault /\
  (TaskStorage.LoadTask Fixtures.env (fun _ => false) "task_1"
     (TaskStorage.SaveTask Fixtures.env WriteFails 1%positive w).1).2
  = inr TaskStorage.ErrUnmarshalTask.
Proof.
  split; [reflexivity|]. split; [discriminate|].
  refine (proj1 (failed_SaveTask_then_LoadTask Fixtures.env (fun _ => false) WriteFails
            1%positive (Fixtures.world_with Fixtures.task_done) Fixtures.task_done eq_refl _)).
  discriminate.
Defined.

(** X3: [DeleteTask] removes the file of a task and nothing else: it
    returns no error whether or not the file was there, [LoadTask] then
    fails to read the task, a second [DeleteTask] changes nothing, and the
    task objects and the registry are untouched, so that a task deleted
    from the store is still answered from memory. *)
Theorem DeleteTask_then_LoadTask E unreadable taskID w :
  let w1 := (TaskStorage.DeleteTask E RemoveOk taskID w).1 in
  (TaskStorage.DeleteTask E RemoveOk taskID w).2 = None /\
  TaskStorage.LoadTask E unreadable taskID w1 = (w1, inr TaskStorage.ErrReadTaskFile) /\
  TaskStorage.DeleteTask E RemoveOk taskID w1 = (w1, None) /\
  heap w1 = heap w /\ tasks w1 = tasks w /\
  (forall path, path <> filepath_Join E (stateDir w) (taskID +:+ ".json") ->
     files (fs w1) !! path = files (fs w) !! path).
Proof.
  intros w1. subst w1. unfold TaskStorage.DeleteTask, TaskStorage.LoadTask.
  destruct (files (fs w) !! filepath_Join E (stateDir w) (taskID +:+ ".json")) eqn:Ef;
    cbn [fst snd stateDir with_fs fs files heap tasks].
  - rewrite lookup_delete_eq. split; [reflexivity|].
    split; [now destruct (unreadable _)|]. do 3 (split; [reflexivity|]).
    intros path Hp. now rewrite lookup_delete_ne.
  - rewrite Ef. split; [reflexivity|].
    split; [now destruct (unreadable _)|]. do 3 (split; [reflexivity|]). reflexivity.
Qed.

(** X4: [LoadAllTasks] always returns (the slice [name[:len(name)-5]] is
    only taken of names that end in [.json]) and changes neither the files
    nor the registry nor an object that exists.  It reports an error only
    when the directory cannot be read, and a directory that does not exist
    gives the empty map.  Every key of the map it returns is the name of a
    listed regular file without its [.json], whatever ID the document in
    the file carries; the pointer under the key is new, the object behind
    it is what the document decodes to, and no two keys share a pointer. *)
Theorem LoadAllTasks_keys_are_file_stems E unreadable dir w :
  exists w' r,
    TaskStorage.LoadAllTasks E unreadable dir w = Some (w', r) /\
    fs w' = fs w /\ tasks w' = tasks w /\
    (forall p t, heap w !! p = Some t -> heap w' !! p = Some t) /\
    (forall e, r = inr e -> dir = DirUnreadable /\ w' = w) /\
    (forall m, r = inl m ->
       (dir = DirNotExist -> m = ∅ /\ w' = w) /\
       (forall k p, m !! k = Some p ->
          heap w !! p = None /\
          exists entries t,
            dir = DirEntries entries /\
            {| Name := k +:+ ".json"; IsDir := false |} ∈ entries /\
            files (fs w) !! filepath_Join E (stateDir w) (k +:+ ".json") = Some (Doc t) /\
            heap w' !! p = Some t) /\
       (forall k1 k2 p, m !! k1 = Some p -> m !! k2 = Some p -> k1 = k2)).
Proof.
  destruct dir as [| |entries]; cbn [TaskStorage.LoadAllTasks].
  - exists w, (inl ∅). do 4 (split; [auto|]). split; [discriminate|].
    intros m [= <-]. split; [auto|]. split; intros *; now rewrite lookup_empty.
  - exists w, (inr TaskStorage.ErrReadStateDir). do 4 (split; [auto|]).
    split; [auto|discriminate].
  - destruct (StorageFacts.fold_load_entry_loaded E unreadable entries w entries w ∅)
      as (w' & m & -> & L); [apply StorageFacts.loaded_start|done|].
    destruct L as [Hsd Hfs Htk Hsv Hhp Hen Hinj].
    exists w', (inl m). do 4 (split; [auto|]). split; [discriminate|].
    intros m' [= <-]. split; [discriminate|]. split; [|exact Hinj].
    intros k p Hk. destruct (Hen k p Hk) as (Hnone & t & Hp & Hin & _ & Hf).
    split; [exact Hnone|]. exists entries, t. auto.
Qed.

(** X5: every listed regular file [<k>.json] that can be read and holds a
    document is loaded: the map returned by [LoadAllTasks] has the key [k],
    and the object behind its pointer is what the document decodes to. *)
Theorem LoadAllTasks_loads_listed_documents E unreadable entries w k t :
  {| Name := k +:+ ".json"; IsDir := false |} ∈ entries ->
  unreadable (filepath_Join E (stateDir w) (k +:+ ".json")) = false ->
  files (fs w) !! filepath_Join E (stateDir w) (k +:+ ".json") = Some (Doc t) ->
  exists w' m p,
    TaskStorage.LoadAllTasks E unreadable (DirEntries entries) w = Some (w', inl m) /\
    m !! k = Some p /\ heap w' !! p = Some t.
Proof.
  intros Hin Hu Hf.
  destruct (RestartFacts.LoadAllTasks_listed E unreadable entries w k t Hin Hu Hf)
    as (w' & m & p & H1 & H2 & H3 & _).
  exists w', m, p. auto.
Qed.

(** X5 at a concrete input: a state directory that holds the file of one
    saved task beside a directory and a text file. *)
Lemma LoadAllTasks_loads_listed_documents_witness :
  {| Name := "task_1.json"; IsDir := false |} ∈ Fixtures.listing /\
  files (fs Fixtures.world_saved) !! "state/task_1.json"%string = Some (Doc Fixtures.task_done) /\
  exists w' m p,
    TaskStorage.LoadAllTasks Fixtures.env Fixtures.all_readable
      (DirEntries Fixtures.listing) Fixtures.world_saved = Some (w', inl m) /\
    m !! "task_1"%string = Some p /\ heap w' !! p = Some Fixtures.task_done.
Proof.
  split; [do 2 apply list_elem_of_further; apply list_elem_of_here|].
  split; [reflexivity|].
  refine (LoadAllTasks_loads_listed_documents Fixtures.env Fixtures.all_readable
            Fixtures.listing Fixtures.world_saved "task_1" Fixtures.task_done _ eq_refl eq_refl).
  do 2 apply list_elem_of_further; apply list_elem_of_here.
Defined.

(** X6: a task that was created and saved without fault, and whose strings
    are valid UTF-8, survives a restart.  When the new process finds the
    file of the task in the listing of the state directory and can read it,
    [NewTaskManager] returns a registry in which [GetTask] finds, under the
    ID of the task, an object equal to the task as it was created. *)
Theorem created_task_survives_restart E unreadable now urls w entries :
  let id := TaskManager.generateTaskID now in
  let w1 := (TaskManager.CreateTask E now NoFault urls w).1 in
  let task := Task.mk id urls domain.StatusPending
                (map (fun url => File.mk url (TaskManager.extractFilename url)
                                   domain.StatusPending 0 0 TaskManager.zero_time) urls)
                TaskManager.zero_time 0 in
  json.round_trips task = true ->
  {| Name := id +:+ ".json"; IsDir := false |} ∈ entries ->
  unreadable (filepath_Join E (stateDir w) (id +:+ ".json")) = false ->
  json.decoded task = task /\
  exists w2 q,
    TaskManager.NewTaskManager E unreadable (DirEntries entries) (stateDir w1) (fs w1)
    = Some w2 /\
    TaskManager.GetTask id w2 = Some q /\
    heap w2 !! q = Some task.
Proof.
  intros id w1 task0 Hv Hin Hu.
  split; [now apply JsonFacts.decoded_round_trips|].
  clear Hv. subst task0.
  destruct (RestartFacts.CreateTask_world E now NoFault urls w) as [Hp Hc].
  set (task := Task.mk _ _ _ _ _ _) in *.
  set (p := fresh (dom (heap w))) in *.
  set (w0 := with_tasks _ _) in *.
  assert (Hw1 : w1 = (TaskStorage.SaveTask E NoFault p w0).1) by (subst w1; now rewrite Hc).
  assert (Hsd : stateDir w1 = stateDir w).
  { rewrite Hw1. unfold TaskStorage.SaveTask. now rewrite Hp. }
  assert (Hf : files (fs w1) !! filepath_Join E (stateDir w) (id +:+ ".json") = Some (Doc task)).
  { rewrite Hw1. exact (WorldFacts.SaveTask_written E p w0 task Hp). }
  unfold TaskManager.NewTaskManager, TaskManager.loadExistingTasks.
  set (boot := {| heap := ∅; tasks := ∅; stateDir := stateDir w1; fs := fs w1; saves := [] |}).
  destruct (RestartFacts.LoadAllTasks_listed E unreadable entries boot id task Hin)
    as (w' & m & q & -> & Hm & Hq & _).
  - subst boot. cbn [stateDir]. now rewrite Hsd.
  - subst boot. cbn [stateDir fs]. now rewrite Hsd.
  - exists (with_tasks m w'), q. split; [reflexivity|]. split; [exact Hm|exact Hq].
Qed.

(** X6 at a concrete input: one URL, an empty state directory, and a new
    process that finds the file of the task. *)
Lemma created_task_survives_restart_witness :
  let w1 := (TaskManager.CreateTask Fixtures.env 5 NoFault [Fixtures.urlA]
               Fixtures.empty_world).1 in
  json.round_trips (Task.mk "task_5" [Fixtures.urlA] domain.StatusPending
                      [File.mk Fixtures.urlA "hi.txt" domain.StatusPending 0 0 0] 0 0) = true /\
  {| Name := "task_5.json"; IsDir := false |} ∈ [ {| Name := "task_5.json"; IsDir := false |} ] /\
  exists w2 q,
    TaskManager.NewTaskManager Fixtures.env Fixtures.all_readable
      (DirEntries [ {| Name := "task_5.json"; IsDir := false |} ]) (stateDir w1) (fs w1)
    = Some w2 /\
    TaskManager.GetTask "task_5" w2 = Some q /\
    heap w2 !! q
    = Some (Task.mk "task_5" [Fixtures.urlA] domain.StatusPending
              [File.mk Fixtures.urlA "hi.txt" domain.StatusPending 0 0 0] 0 0).
Proof.
  split; [reflexivity|]. split; [apply list_elem_of_here|].
  refine (proj2 (created_task_survives_restart Fixtures.env Fixtures.all_readable 5
            [Fixtures.urlA] Fixtures.empty_world
            [ {| Name := "task_5.json"; IsDir := false |} ] eq_refl _ eq_refl)).
  apply list_elem_of_here.
Defined.

(** ** Facts about names made from URLs and from numbers *)

Module NameFacts.
Import Paths.

Lemma strings_Split_no_sep s sep :
  Forall (fun x => contains_byte sep x = false) (strings_Split s sep).
Proof.
  induction s as [|c s IH]; cbn [strings_Split].
  - now repeat constructor.
  - destruct (Ascii.eqb c sep) eqn:Ec.
    + constructor; [reflexivity|exact IH].
    + destruct (strings_Split s sep) as [|x r]; [now repeat constructor; cbn; rewrite Ec|].
      inversion IH as [|? ? Hx Hr]; subst. constructor; [|exact Hr].
      cbn. now rewrite Ec, Hx.
Qed.

Lemma last_Forall {A} (P : A -> Prop) (l : list A) d :
  Forall P l -> l <> [] -> P (List.last l d).
Proof.
  induction l as [|x l IH]; [congruence|]. intros HF _.
  inversion HF as [|? ? Hx Hl]; subst. destruct l as [|y l]; [exact Hx|].
  change (P (List.last (y :: l) d)). now apply IH.
Qed.

Lemma last_segment_no_slash p : contains_byte "/" (last_segment p) = false.
Proof.
  unfold last_segment.
  apply (last_Forall (fun x => contains_byte "/" x = false)).
  - apply strings_Split_no_sep.
  - apply PathFacts.strings_Split_nonempty.
Qed.

Lemma pretty_N_char_no_slash x : Ascii.eqb (pretty_N_char x) "/" = false.
Proof. unfold pretty_N_char. now repeat case_match. Qed.

Lemma pretty_N_go_no_slash x s :
  contains_byte "/" (pretty_N_go x s) = contains_byte "/" s.
Proof.
  revert s. induction (N.lt_wf_0 x) as [x _ IH]; intros s.
  assert (x = 0 \/ 0 < x)%N as [->|Hx] by lia.
  - now rewrite pretty_N_go_0.
  - rewrite pretty_N_go_step by done. rewrite IH by (now apply N.div_lt).
    cbn [contains_byte]. now rewrite pretty_N_char_no_slash.
Qed.

Lemma pretty_N_go_nonempty x s : s <> EmptyString -> pretty_N_go x s <> EmptyString.
Proof.
  revert s. induction (N.lt_wf_0 x) as [x _ IH]; intros s Hs.
  assert (x = 0 \/ 0 < x)%N as [->|Hx] by lia.
  - now rewrite pretty_N_go_0.
  - rewrite pretty_N_go_step by done. apply IH; [now apply N.div_lt|discriminate].
Qed.

Lemma pretty_nat_no_slash (n : nat) : contains_byte "/" (pretty n) = false.
Proof.
  unfold pretty, pretty_nat, pretty, pretty_N.
  case_decide; [reflexivity|]. apply pretty_N_go_no_slash.
Qed.

Lemma contains_byte_app c s1 s2 :
  contains_byte c (s1 +:+ s2) = contains_byte c s1 || contains_byte c s2.
Proof.
  induction s1 as [|x s1 IH]; [reflexivity|].
  change (String x s1 +:+ s2) with (String x (s1 +:+ s2)).
  cbn [contains_byte]. now rewrite IH, orb_assoc.
Qed.

Lemma fallback_name_is_a_name u :
  Downloader.fallback_name u <> EmptyString /\
  contains_byte "/" (Downloader.fallback_name u) = false.
Proof.
  unfold Downloader.fallback_name. split; [discriminate|].
  rewrite contains_byte_app, pretty_nat_no_slash. reflexivity.
Qed.

Lemma generateTaskID_inj a b :
  TaskManager.generateTaskID a = TaskManager.generateTaskID b -> a = b.
Proof.
  unfold TaskManager.generateTaskID. intros H.
  change ("task_" +:+ pretty a)
    with (String "t" (String "a" (String "s" (String "k" (String "_" (pretty a)))))) in H.
  change ("task_" +:+ pretty b)
    with (String "t" (String "a" (String "s" (String "k" (String "_" (pretty b)))))) in H.
  injection H as H. now apply (inj pretty).
Qed.

End NameFacts.

(** ** Facts about the registry under creation and recovery *)

Module RegistryFacts.
Import TaskManager Registry.

Lemma CreateTask_effect E now io urls w :
  let task :=
    Task.mk (generateTaskID now) urls domain.StatusPending
      (map (fun url => File.mk url (extractFilename url)
                         domain.StatusPending 0 0 zero_time) urls) zero_time 0 in
  let p := fresh (dom (heap w)) in
  heap w !! p = None /\
  heap (CreateTask E now io urls w).1 = <[p := task]> (heap w) /\
  tasks (CreateTask E now io urls w).1 = <[generateTaskID now := p]> (tasks w).
Proof.
  intros task p. split; [apply StorageFacts.fresh_heap|].
  destruct (RestartFacts.CreateTask_world E now io urls w) as [_ ->]. cbn [fst].
  now rewrite WorldFacts.SaveTask_heap, WorldFacts.SaveTask_tasks.
Qed.

Lemma after_recovery_idem t : after_recovery (after_recovery t) = after_recovery t.
Proof.
  unfold after_recovery. destruct (incomplete t) eqn:Ei.
  - now rewrite RecoveryFacts.incomplete_reset, RecoveryFacts.reset_task_idem.
  - now rewrite Ei.
Qed.

Lemma after_recovery_ID t : Task.ID (after_recovery t) = Task.ID t.
Proof. unfold after_recovery. now destruct (incomplete t). Qed.

Lemma incomplete_after_recovery t : incomplete (after_recovery t) = incomplete t.
Proof.
  unfold after_recovery. destruct (incomplete t) eqn:Ei; [|exact Ei].
  apply RecoveryFacts.incomplete_reset.
Qed.

Lemma recover_fold_heap E io order w n p :
  heap (fold_left (recover_one E io) order (w, n)).1 !! p
  = if bool_decide (p ∈ order.*2) then after_recovery <$> heap w !! p else heap w !! p.
Proof.
  revert w n. induction order as [|[k p0] order IH]; intros w n.
  - cbn. rewrite bool_decide_eq_false_2; [reflexivity|]. apply not_elem_of_nil.
  - cbn [fold_left].
    pose proof (RecoveryFacts.recover_one_heap E io w n k p0) as Hh.
    destruct (recover_one E io (w, n) (k, p0)) as [w1 n1]. cbn [fst] in Hh.
    rewrite IH, Hh. cbn [fmap list_fmap snd].
    destruct (decide (p = p0)) as [->|Hne].
    + rewrite lookup_alter_eq.
      rewrite (bool_decide_eq_true_2 (p0 ∈ p0 :: order.*2)) by apply list_elem_of_here.
      destruct (bool_decide (p0 ∈ order.*2)); [|reflexivity].
      destruct (heap w !! p0); cbn; [|reflexivity]. now rewrite after_recovery_idem.
    + rewrite lookup_alter_ne by congruence.
      destruct (bool_decide (p ∈ order.*2)) eqn:Eb.
      * apply bool_decide_eq_true_1 in Eb.
        rewrite bool_decide_eq_true_2; [reflexivity|]. now apply list_elem_of_further.
      * apply bool_decide_eq_false_1 in Eb.
        rewrite bool_decide_eq_false_2; [reflexivity|].
        rewrite elem_of_cons. intros [?|?]; congruence.
Qed.

Lemma recover_one_tasks E io w n k p :
  tasks (recover_one E io (w, n) (k, p)).1
  = match heap w !! p with
    | Some t => if incomplete t then <[Task.ID t := p]> (tasks w) else tasks w
    | None => tasks w
    end.
Proof.
  unfold recover_one. destruct (heap w !! p) as [t|] eqn:Ep; [|reflexivity].
  destruct (incomplete t); [|reflexivity].
  set (w1 := with_heap _ w).
  assert (H1 : heap w1 !! p = Some (reset_task t)) by (cbn; apply lookup_insert_eq).
  pose proof (WorldFacts.UpdateTask_tasks E (io k) p w1 _ H1) as Ht.
  destruct (UpdateTask E (io k) p w1) as [w2 [e|]]; exact Ht.
Qed.

Lemma recover_fold_registered E io order w n q :
  registered q (fold_left (recover_one E io) order (w, n)).1 ->
  registered q w \/ q ∈ order.*2.
Proof.
  revert w n. induction order as [|[k p] order IH]; intros w n; [now left|].
  cbn [fold_left].
  pose proof (recover_one_tasks E io w n k p) as Ht.
  destruct (recover_one E io (w, n) (k, p)) as [w1 n1]. cbn [fst] in Ht.
  intros Hq. destruct (IH w1 n1 Hq) as [[k' Hk']|Hin].
  2:{ right. cbn. now apply list_elem_of_further. }
  rewrite Ht in Hk'.
  destruct (heap w !! p) as [t|]; [|left; now exists k'].
  destruct (incomplete t); [|left; now exists k'].
  destruct (decide (k' = Task.ID t)) as [->|Hne].
  - rewrite lookup_insert_eq in Hk'. injection Hk' as <-. right. cbn. apply list_elem_of_here.
  - rewrite lookup_insert_ne in Hk' by congruence. left. now exists k'.
Qed.

Section Recovery.
Variables (E : Env) (io : string -> SaveFault).
Variable range : list (string * loc) -> list (string * loc).
Hypothesis range_perm : forall l, range l ≡ₚ l.
Variable w : World.

Let w' := (RecoverIncompleteTasks E io range w).1.

Lemma in_range_registered q :
  q ∈ (range (map_to_list (GetAllTasks w))).*2 <-> registered q w.
Proof.
  rewrite range_perm, WorldFacts.GetAllTasks_copy, list_elem_of_fmap. split.
  - intros ([k p] & -> & Hin). exists k. now apply elem_of_map_to_list.
  - intros [k Hk]. exists (k, q). split; [reflexivity|]. now apply elem_of_map_to_list.
Qed.

Lemma Recover_heap q :
  registered q w -> heap w' !! q = after_recovery <$> heap w !! q.
Proof.
  intros Hq. subst w'. unfold RecoverIncompleteTasks. rewrite recover_fold_heap.
  rewrite bool_decide_eq_true_2; [reflexivity|]. now apply in_range_registered.
Qed.

Lemma Recover_heap_other q :
  ~ registered q w -> heap w' !! q = heap w !! q.
Proof.
  intros Hq. subst w'. unfold RecoverIncompleteTasks. rewrite recover_fold_heap.
  rewrite bool_decide_eq_false_2; [reflexivity|]. now rewrite in_range_registered.
Qed.

Lemma Recover_registered q : registered q w' -> registered q w.
Proof.
  intros Hq. subst w'. unfold RecoverIncompleteTasks in Hq.
  apply recover_fold_registered in Hq as [Hq|Hq]; [exact Hq|].
  now apply in_range_registered.
Qed.

End Recovery.

Lemma GetIncompleteTasks_fold w l acc p :
  p ∈ fold_left
        (fun (result : list loc) (entry : string * loc) =>
           match heap w !! entry.2 with
           | Some t => if incomplete t then result ++ [entry.2] else result
           | None => result
           end) l acc
  <-> p ∈ acc \/ exists k t, (k, p) ∈ l /\ heap w !! p = Some t /\ incomplete t = true.
Proof.
  revert acc. induction l as [|[k0 p0] l IH]; intros acc; cbn [fold_left].
  - split; [now left|]. intros [H|(k & t & H & _)]; [exact H|]. now apply elem_of_nil in H.
  - rewrite IH. cbn [snd]. split.
    + intros [Hacc|(k & t & Hin & Hp & Hi)].
      * destruct (heap w !! p0) as [t|] eqn:Ep; [|now left].
        destruct (incomplete t) eqn:Ei; [|now left].
        apply elem_of_app in Hacc as [H|H]; [now left|].
        apply list_elem_of_singleton in H as ->. right. exists k0, t.
        split; [apply list_elem_of_here|auto].
      * right. exists k, t. split; [now apply list_elem_of_further|auto].
    + intros [Hacc|(k & t & Hin & Hp & Hi)].
      * left. destruct (heap w !! p0) as [t|]; [|exact Hacc].
        destruct (incomplete t); [|exact Hacc]. apply elem_of_app. now left.
      * apply elem_of_cons in Hin as [[= -> ->]|Hin].
        -- left. rewrite Hp, Hi. apply elem_of_app. right. apply list_elem_of_here.
        -- right. eauto.
Qed.

Lemma elem_of_GetIncompleteTasks range w p :
  (forall l, range l ≡ₚ l) ->
  p ∈ GetIncompleteTasks range w
  <-> exists k t, tasks w !! k = Some p /\ heap w !! p = Some t /\ incomplete t = true.
Proof.
  intros Hperm. unfold GetIncompleteTasks. rewrite GetIncompleteTasks_fold. split.
  - intros [H|(k & t & Hin & Hp & Hi)]; [now apply elem_of_nil in H|].
    rewrite Hperm in Hin. apply elem_of_map_to_list in Hin. eauto.
  - intros (k & t & Hk & Hp & Hi). right. exists k, t.
    split; [|auto]. rewrite Hperm. now apply elem_of_map_to_list.
Qed.

(** Recovery of a registry whose keys are the IDs of its tasks. *)
Lemma recover_fold_keys E io order w n :
  keys_are_IDs w -> (forall k p, (k, p) ∈ order -> tasks w !! k = Some p) ->
  let w' := (fold_left (recover_one E io) order (w, n)).1 in
  tasks w' = tasks w /\ keys_are_IDs w'.
Proof.
  revert w n. induction order as [|[k p] order IH]; intros w n Hkeys Hord; [now split|].
  cbn [fold_left].
  pose proof (recover_one_tasks E io w n k p) as Ht.
  pose proof (RecoveryFacts.recover_one_heap E io w n k p) as Hh.
  destruct (recover_one E io (w, n) (k, p)) as [w1 n1]. cbn [fst] in Ht, Hh.
  assert (Hkp : tasks w !! k = Some p) by (apply Hord, list_elem_of_here).
  assert (Ht1 : tasks w1 = tasks w).
  { rewrite Ht. destruct (heap w !! p) as [t|] eqn:Ep; [|reflexivity].
    destruct (incomplete t); [|reflexivity].
    rewrite (Hkeys k p t Hkp Ep). now apply insert_id. }
  assert (Hkeys1 : keys_are_IDs w1).
  { intros k' p' t'. rewrite Ht1, Hh. intros Hk' Hp'.
    destruct (decide (p' = p)) as [->|Hne].
    - rewrite lookup_alter_eq in Hp'. destruct (heap w !! p) as [t|] eqn:Ep; [|discriminate].
      injection Hp' as <-. rewrite after_recovery_ID. now apply (Hkeys k' p t).
    - rewrite lookup_alter_ne in Hp' by congruence. now apply (Hkeys k' p' t'). }
  destruct (IH w1 n1 Hkeys1) as [H1 H2].
  { intros k' p' Hin. rewrite Ht1. apply Hord. now apply list_elem_of_further. }
  split; [now rewrite H1|exact H2].
Qed.

(** What [GetIncompleteTasks] finds after a recovery. *)
Lemma incomplete_after_Recover E io range range' w p :
  (forall l, range l ≡ₚ l) -> (forall l, range' l ≡ₚ l) ->
  let w' := (TaskManager.RecoverIncompleteTasks E io range w).1 in
  p ∈ TaskManager.GetIncompleteTasks range' w' ->
  exists t t',
    heap w !! p = Some t /\ TaskManager.incomplete t = true /\
    heap w' !! p = Some t' /\
    Task.ID t' = Task.ID t /\
    Task.Status t' = domain.StatusPending /\ Task.Progress t' = 0 /\
    length (Task.Files t') = length (Task.Files t) /\
    Forall (fun f => File.Status f = domain.StatusCompleted \/
                     (File.Status f = domain.StatusPending /\ File.Downloaded f = 0))
      (Task.Files t').
Proof.
  intros Hperm Hperm' w' Hin.
  apply (elem_of_GetIncompleteTasks range' w' p Hperm') in Hin
    as (k & t' & Hk & Hp' & Hi').
  assert (Hreg : Registry.registered p w).
  { apply (Recover_registered E io range Hperm w). now exists k. }
  pose proof (Recover_heap E io range Hperm w p Hreg) as Hh.
  fold w' in Hh. rewrite Hp' in Hh.
  destruct (heap w !! p) as [t|] eqn:Ep; [|discriminate]. injection Hh as ->.
  rewrite incomplete_after_recovery in Hi'.
  exists t, (TaskManager.after_recovery t). split; [reflexivity|]. split; [exact Hi'|].
  split; [exact Hp'|]. unfold TaskManager.after_recovery. rewrite Hi'.
  do 3 (split; [reflexivity|]). split; [cbn; apply length_map|].
  cbn [TaskManager.reset_task Task.Files Task.with_Files].
  apply Forall_fmap, Forall_forall. intros f _. cbn. unfold TaskManager.reset_file.
  destruct (String.eqb_spec (File.Status f) domain.StatusCompleted) as [He|Hne]; cbn.
  - now left.
  - right. now split.
Qed.

Lemma world_restarted_keys : keys_are_IDs Fixtures.world_restarted.
Proof.
  intros k p t Hk Hp. unfold Fixtures.world_restarted in Hk, Hp. cbn [tasks heap] in Hk, Hp.
  apply lookup_insert_Some in Hk as [[<- <-]|[_ Hk]].
  - vm_compute in Hp. now injection Hp as <-.
  - apply lookup_singleton_Some in Hk as [<- <-].
    vm_compute in Hp. now injection Hp as <-.
Qed.

End RegistryFacts.

(** ** The registry: creation *)

(** X7: [CreateTask], whether or not its save succeeds, puts the new task
    into an object that was not in use: the generated ID, the URLs, status
    pending, progress 0 and one pending file per URL, named by
    [extractFilename], with Size 0 and Downloaded 0.  It registers the
    object under the generated ID, and leaves every object that existed and
    every other key of the registry as they were. *)
Theorem CreateTask_keeps_other_tasks E now io urls w :
  let w' := (TaskManager.CreateTask E now io urls w).1 in
  exists p,
    heap w !! p = None /\
    heap w' !! p
    = Some (Task.mk (TaskManager.generateTaskID now) urls domain.StatusPending
              (map (fun url => File.mk url (TaskManager.extractFilename url)
                                 domain.StatusPending 0 0 TaskManager.zero_time) urls)
              TaskManager.zero_time 0) /\
    TaskManager.GetTask (TaskManager.generateTaskID now) w' = Some p /\
    (forall q t, heap w !! q = Some t -> heap w' !! q = Some t) /\
    (forall q, q <> p -> heap w' !! q = heap w !! q) /\
    (forall k, k <> TaskManager.generateTaskID now ->
       TaskManager.GetTask k w' = TaskManager.GetTask k w).
Proof.
  intros w'. subst w'.
  destruct (RegistryFacts.CreateTask_effect E now io urls w) as (Hp & Hh & Ht).
  exists (fresh (dom (heap w))). unfold TaskManager.GetTask. rewrite Hh, Ht.
  split; [exact Hp|]. split; [apply lookup_insert_eq|].
  split; [apply lookup_insert_eq|]. split; [|split].
  - intros q t Hq. rewrite lookup_insert_ne; [exact Hq|]. intros <-. congruence.
  - intros q Hq. now rewrite lookup_insert_ne.
  - intros k Hk. now rewrite lookup_insert_ne.
Qed.

(** X8: the ID of a task is the reading of the nanosecond clock, so two
    tasks created at different readings are both found under their IDs, and
    of two tasks created at the same reading only the second is: the first
    one keeps its object, but its ID now leads to the second. *)
Theorem CreateTask_twice E now1 now2 io1 io2 urls1 urls2 w :
  let w1 := (TaskManager.CreateTask E now1 io1 urls1 w).1 in
  let w2 := (TaskManager.CreateTask E now2 io2 urls2 w1).1 in
  exists p1 p2 t1 t2,
    p1 <> p2 /\
    heap w2 !! p1 = Some t1 /\ Task.URLs t1 = urls1 /\
    heap w2 !! p2 = Some t2 /\ Task.URLs t2 = urls2 /\
    TaskManager.GetTask (TaskManager.generateTaskID now2) w2 = Some p2 /\
    TaskManager.GetTask (TaskManager.generateTaskID now1) w2
    = Some (if now1 =? now2 then p2 else p1).
Proof.
  intros w1 w2. subst w2 w1.
  destruct (RegistryFacts.CreateTask_effect E now1 io1 urls1 w) as (Hp1 & Hh1 & Ht1).
  set (w1 := (TaskManager.CreateTask E now1 io1 urls1 w).1) in *.
  destruct (RegistryFacts.CreateTask_effect E now2 io2 urls2 w1) as (Hp2 & Hh2 & Ht2).
  set (w2 := (TaskManager.CreateTask E now2 io2 urls2 w1).1) in *.
  set (p1 := fresh (dom (heap w))) in *. set (p2 := fresh (dom (heap w1))) in *.
  assert (Hne : p1 <> p2).
  { intros Heq. rewrite <- Heq, Hh1, lookup_insert_eq in Hp2. discriminate. }
  eexists p1, p2, _, _. split; [exact Hne|].
  unfold TaskManager.GetTask. rewrite Hh2, Ht2, Hh1, Ht1.
  split; [rewrite lookup_insert_ne by congruence; apply lookup_insert_eq|].
  split; [reflexivity|]. split; [apply lookup_insert_eq|]. split; [reflexivity|].
  split; [apply lookup_insert_eq|].
  destruct (Z.eqb_spec now1 now2) as [->|Hn].
  - apply lookup_insert_eq.
  - rewrite lookup_insert_ne; [apply lookup_insert_eq|].
    intros Heq. apply NameFacts.generateTaskID_inj in Heq. congruence.
Qed.

(** ** Names made from URLs *)

(** X9: the name [extractFilename] gives to the file of a URL is a single
    path element, never empty and without a slash: it is [unknown_file] for
    the empty URL and for a URL that ends in a slash, and otherwise what
    follows the last slash of the URL, query and fragment included. *)
Theorem extractFilename_is_a_path_element url :
  TaskManager.extractFilename url <> EmptyString /\
  Paths.contains_byte "/" (TaskManager.extractFilename url) = false /\
  TaskManager.extractFilename url
  = if String.eqb url "" || Paths.ends_in_slash url then "unknown_file"%string
    else Paths.last_segment url.
Proof.
  unfold TaskManager.extractFilename.
  fold (Paths.last_segment url).
  replace (0 <? length (strings_Split url "/"))%nat with true.
  2:{ symmetry. apply Nat.ltb_lt.
      pose proof (PathFacts.strings_Split_nonempty url "/").
      destruct (strings_Split url "/"); [congruence|cbn; lia]. }
  rewrite <- PathFacts.last_segment_empty.
  destruct (String.eqb_spec (Paths.last_segment url) "") as [He|Hne].
  - split; [discriminate|]. split; reflexivity.
  - split; [exact Hne|]. split; [apply NameFacts.last_segment_no_slash|reflexivity].
Qed.

(** X10: the name [ExtractFilename] proposes for a download is a single
    path element, never empty and without a slash, whatever the URL and
    whatever the URL parser answers. *)
Theorem ExtractFilename_is_a_path_element E u :
  Downloader.ExtractFilename E u <> EmptyString /\
  Paths.contains_byte "/" (Downloader.ExtractFilename E u) = false.
Proof.
  unfold Downloader.ExtractFilename.
  destruct (neturl_Parse E u) as [parsed|]; [|apply NameFacts.fallback_name_is_a_name].
  destruct (String.eqb (Path parsed) "" || String.eqb (Path parsed) "/");
    [apply NameFacts.fallback_name_is_a_name|].
  fold (Paths.last_segment (Path parsed)).
  destruct (String.eqb_spec (Paths.last_segment (Path parsed)) "") as [He|Hne];
    [apply NameFacts.fallback_name_is_a_name|].
  split; [exact Hne|apply NameFacts.last_segment_no_slash].
Qed.

(** ** The registry: recovery *)

(** X11: after [RecoverIncompleteTasks], every task that
    [GetIncompleteTasks] returns was incomplete before the recovery and has
    been reset by it: its status is pending, its progress 0, and each of
    its files is either completed or pending with nothing downloaded.  No
    file is left downloading or failed. *)
Theorem GetIncompleteTasks_after_recovery E io range range' w p :
  (forall l, range l ≡ₚ l) -> (forall l, range' l ≡ₚ l) ->
  let w' := (TaskManager.RecoverIncompleteTasks E io range w).1 in
  p ∈ TaskManager.GetIncompleteTasks range' w' ->
  exists t t',
    heap w !! p = Some t /\ TaskManager.incomplete t = true /\
    heap w' !! p = Some t' /\
    Task.ID t' = Task.ID t /\
    Task.Status t' = domain.StatusPending /\ Task.Progress t' = 0 /\
    length (Task.Files t') = length (Task.Files t) /\
    Forall (fun f => File.Status f = domain.StatusCompleted \/
                     (File.Status f = domain.StatusPending /\ File.Downloaded f = 0))
      (Task.Files t').
Proof. exact (RegistryFacts.incomplete_after_Recover E io range range' w p). Qed.

(** X11 at a concrete input: the registry after a restart, with one
    interrupted and one finished task. *)
Lemma GetIncompleteTasks_after_recovery_witness :
  let w' := (TaskManager.RecoverIncompleteTasks Fixtures.env (fun _ => NoFault) reverse
               Fixtures.world_restarted).1 in
  (forall l : list (string * loc), reverse l ≡ₚ l) /\
  1%positive ∈ TaskManager.GetIncompleteTasks reverse w' /\
  exists t',
    heap w' !! 1%positive = Some t' /\
    Task.Status t' = domain.StatusPending /\ Task.Progress t' = 0 /\
    Forall (fun f => File.Status f = domain.StatusCompleted \/
                     (File.Status f = domain.StatusPending /\ File.Downloaded f = 0))
      (Task.Files t').
Proof.
  intros w'.
  assert (Hperm : forall l : list (string * loc), reverse l ≡ₚ l)
    by (intros l; apply reverse_Permutation).
  assert (Hin : 1%positive ∈ TaskManager.GetIncompleteTasks reverse w')
    by (vm_compute; apply list_elem_of_here).
  split; [exact Hperm|]. split; [exact Hin|].
  destruct (GetIncompleteTasks_after_recovery Fixtures.env (fun _ => NoFault) reverse reverse
              Fixtures.world_restarted 1%positive Hperm Hperm Hin)
    as (t & t' & _ & _ & H1 & _ & H2 & H3 & _ & H4).
  exists t'. auto.
Defined.

(** X12: recovery is idempotent on the task objects: a second
    [RecoverIncompleteTasks], whatever the order of its loop and whatever
    becomes of its writes, leaves every task object as the first one left
    it. *)
Theorem recovery_twice_changes_no_task E io1 io2 range1 range2 w :
  (forall l, range1 l ≡ₚ l) -> (forall l, range2 l ≡ₚ l) ->
  let w1 := (TaskManager.RecoverIncompleteTasks E io1 range1 w).1 in
  let w2 := (TaskManager.RecoverIncompleteTasks E io2 range2 w1).1 in
  heap w2 = heap w1.
Proof.
  intros H1 H2 w1 w2. apply map_eq. intros q.
  subst w2. unfold TaskManager.RecoverIncompleteTasks at 1.
  rewrite RegistryFacts.recover_fold_heap.
  destruct (bool_decide _) eqn:Eb; [|reflexivity].
  apply bool_decide_eq_true_1 in Eb.
  apply (RegistryFacts.in_range_registered range2 H2 w1) in Eb.
  apply (RegistryFacts.Recover_registered E io1 range1 H1 w) in Eb.
  subst w1. rewrite (RegistryFacts.Recover_heap E io1 range1 H1 w q Eb).
  destruct (heap w !! q); cbn; [|reflexivity].
  now rewrite RegistryFacts.after_recovery_idem.
Qed.

(** X12 at a concrete input: the registry after a restart, recovered twice
    in opposite orders, the writes of the second recovery failing. *)
Lemma recovery_twice_changes_no_task_witness :
  (forall l : list (string * loc), reverse l ≡ₚ l) /\
  (forall l : list (string * loc), (fun x => x) l ≡ₚ l) /\
  let w1 := (TaskManager.RecoverIncompleteTasks Fixtures.env (fun _ => NoFault) reverse
               Fixtures.world_restarted).1 in
  heap (TaskManager.RecoverIncompleteTasks Fixtures.env (fun _ => WriteFails) (fun x => x) w1).1
  = heap w1.
Proof.
  assert (Hperm : forall l : list (string * loc), reverse l ≡ₚ l)
    by (intros l; apply reverse_Permutation).
  assert (Hid : forall l : list (string * loc), (fun x => x) l ≡ₚ l) by reflexivity.
  split; [exact Hperm|]. split; [exact Hid|].
  exact (recovery_twice_changes_no_task Fixtures.env (fun _ => NoFault) (fun _ => WriteFails)
           reverse (fun x => x) Fixtures.world_restarted Hperm Hid).
Defined.

(** X13: in a registry whose keys are the IDs of its tasks, recovery
    changes no key and no pointer, and [GetIncompleteTasks] returns the
    same tasks after it as before it. *)
Theorem recovery_keeps_the_registry E io range range' w :
  (forall l, range l ≡ₚ l) -> (forall l, range' l ≡ₚ l) ->
  Registry.keys_are_IDs w ->
  let w' := (TaskManager.RecoverIncompleteTasks E io range w).1 in
  tasks w' = tasks w /\ Registry.keys_are_IDs w' /\
  forall p, p ∈ TaskManager.GetIncompleteTasks range' w'
            <-> p ∈ TaskManager.GetIncompleteTasks range' w.
Proof.
  intros Hperm Hperm' Hkeys w'.
  destruct (RegistryFacts.recover_fold_keys E io
              (range (map_to_list (TaskManager.GetAllTasks w))) w 0 Hkeys) as [Ht Hk].
  { intros k p Hin. rewrite Hperm, WorldFacts.GetAllTasks_copy in Hin.
    now apply elem_of_map_to_list. }
  fold (TaskManager.RecoverIncompleteTasks E io range w) in Ht, Hk. fold w' in Ht, Hk.
  split; [exact Ht|]. split; [exact Hk|]. intros p.
  rewrite !RegistryFacts.elem_of_GetIncompleteTasks by exact Hperm'.
  rewrite Ht. split.
  - intros (k & t' & Hkp & Hp' & Hi').
    pose proof (RegistryFacts.Recover_heap E io range Hperm w p (ex_intro _ k Hkp)) as Hh.
    fold w' in Hh. rewrite Hp' in Hh.
    destruct (heap w !! p) as [t|]; [|discriminate]. injection Hh as ->.
    rewrite RegistryFacts.incomplete_after_recovery in Hi'. eauto.
  - intros (k & t & Hkp & Hp & Hi).
    pose proof (RegistryFacts.Recover_heap E io range Hperm w p (ex_intro _ k Hkp)) as Hh.
    fold w' in Hh. rewrite Hp in Hh. exists k, (TaskManager.after_recovery t).
    split; [exact Hkp|]. split; [exact Hh|].
    now rewrite RegistryFacts.incomplete_after_recovery.
Qed.

(** X13 at a concrete input: the registry after a restart. *)
Lemma recovery_keeps_the_registry_witness :
  let w' := (TaskManager.RecoverIncompleteTasks Fixtures.env (fun _ => NoFault) reverse
               Fixtures.world_restarted).1 in
  (forall l : list (string * loc), reverse l ≡ₚ l) /\
  Registry.keys_are_IDs Fixtures.world_restarted /\
  tasks w' = tasks Fixtures.world_restarted /\
  (1%positive ∈ TaskManager.GetIncompleteTasks reverse w'
   <-> 1%positive ∈ TaskManager.GetIncompleteTasks reverse Fixtures.world_restarted).
Proof.
  intros w'.
  assert (Hperm : forall l : list (string * loc), reverse l ≡ₚ l)
    by (intros l; apply reverse_Permutation).
  split; [exact Hperm|]. split; [exact RegistryFacts.world_restarted_keys|].
  destruct (recovery_keeps_the_registry Fixtures.env (fun _ => NoFault) reverse reverse
              Fixtures.world_restarted Hperm Hperm RegistryFacts.world_restarted_keys)
    as (H1 & _ & H2).
  split; [exact H1|exact (H2 1%positive)].
Defined.

(** ** Facts about the queue of the pool *)

Module QueueFacts.
Import WorkerPool.

Lemma with_buf_same wp : with_buf (buf (taskChan wp)) wp = wp.
Proof. now destruct wp as [? [? ? ?] ? ? ?]. Qed.

Lemma with_buf_with_buf l1 l2 wp : with_buf l1 (with_buf l2 wp) = with_buf l1 wp.
Proof. reflexivity. Qed.

Lemma with_buf_empty wp : buf (taskChan wp) = [] -> with_buf [] wp = wp.
Proof. intros <-. apply with_buf_same. Qed.

(** What one [AddTask] can do to the pool. *)
Lemma AddTask_cases pick task wp :
  (AddTask pick task wp = (Enqueued, with_buf (buf (taskChan wp) ++ [task]) wp) /\
   closed (taskChan wp) = false /\
   (length (buf (taskChan wp)) < cap (taskChan wp))%nat)
  \/ (exists o, o <> Enqueued /\ AddTask pick task wp = (o, wp)).
Proof.
  unfold AddTask.
  destruct (ready_cases wp !! (pick mod length (ready_cases wp))%nat) as [[|]|] eqn:El.
  - destruct (closed (taskChan wp)) eqn:Ec.
    + right. exists Panicked. now split.
    + left. split; [|split; [reflexivity|]].
      * unfold with_buf. now rewrite Ec.
      * apply list_elem_of_lookup_2 in El. unfold ready_cases, send_ready in El.
        rewrite Ec in El. cbn [orb] in El.
        destruct (length (buf (taskChan wp)) <? cap (taskChan wp))%nat eqn:Er;
          [now apply Nat.ltb_lt|].
        cbn [app] in El. destruct (ctx_done wp).
        -- apply list_elem_of_singleton in El. discriminate.
        -- now apply elem_of_nil in El.
  - right. exists Rejected. now split.
  - right. exists Dropped. now split.
Qed.

Lemma add_each_nil pick i wp : add_each pick i [] wp = ([], wp).
Proof. reflexivity. Qed.

(** What a loop of [AddTask] can do to the pool: units are appended in the
    order of the list, none twice, and never beyond the capacity. *)
Lemma add_each_pool pick i units wp :
  exists sent,
    (add_each pick i units wp).2 = with_buf (buf (taskChan wp) ++ sent) wp /\
    sent `sublist_of` units /\
    ((length (buf (taskChan wp)) <= cap (taskChan wp))%nat ->
     (length (buf (taskChan wp) ++ sent) <= cap (taskChan wp))%nat) /\
    (sent <> [] -> closed (taskChan wp) = false).
Proof.
  revert i wp. induction units as [|u units IH]; intros i wp.
  - exists []. rewrite app_nil_r, with_buf_same. cbn [add_each snd].
    split; [reflexivity|]. split; [constructor|]. split; [auto|congruence].
  - cbn [add_each].
    destruct (AddTask_cases (pick i) u wp) as [(Ha & Hc & Hlt)|(o & Ho & Ha)]; rewrite Ha.
    + destruct (IH (S i) (with_buf (buf (taskChan wp) ++ [u]) wp)) as (sent & Hs & Hsub & Hcap & _).
      destruct (add_each pick (S i) units _) as [os wp'']. cbn [snd] in *.
      exists (u :: sent). split.
      { rewrite Hs. unfold with_buf. cbn. now rewrite <- app_assoc. }
      split; [now apply sublist_skip|]. split; [|auto].
      intros _. cbn [with_buf taskChan buf cap] in Hcap.
      rewrite <- app_assoc in Hcap. apply Hcap. rewrite length_app. cbn. lia.
    + destruct o; [congruence| | |].
      * destruct (IH (S i) wp) as (sent & Hs & Hsub & Hcap & Hcl).
        destruct (add_each pick (S i) units wp) as [os wp'']. cbn [snd] in *.
        exists sent. split; [exact Hs|]. split; [now apply sublist_cons|]. now split.
      * destruct (IH (S i) wp) as (sent & Hs & Hsub & Hcap & Hcl).
        destruct (add_each pick (S i) units wp) as [os wp'']. cbn [snd] in *.
        exists sent. split; [exact Hs|]. split; [now apply sublist_cons|]. now split.
      * exists []. cbn [snd]. rewrite app_nil_r, with_buf_same.
        split; [reflexivity|]. split; [apply sublist_nil_l|]. now split.
Qed.

(** On a pool that is neither cancelled nor stopped the loop fills the
    room the buffer has and drops the rest. *)
Lemma add_each_running pick i units wp :
  ctx_done wp = false -> closed (taskChan wp) = false ->
  let room := (cap (taskChan wp) - length (buf (taskChan wp)))%nat in
  add_each pick i units wp
  = (replicate (length units `min` room) Enqueued
       ++ replicate (length units - room) Dropped,
     with_buf (buf (taskChan wp) ++ take room units) wp).
Proof.
  revert i wp. induction units as [|u units IH]; intros i wp Hd Hc room.
  - cbn. now rewrite take_nil, app_nil_r, with_buf_same.
  - cbn [add_each]. rewrite (AddTaskFacts.AddTask_running _ _ _ Hd Hc).
    destruct (length (buf (taskChan wp)) <? cap (taskChan wp))%nat eqn:Er.
    + apply Nat.ltb_lt in Er.
      fold (with_buf (buf (taskChan wp) ++ [u]) wp).
      replace (Build_t (workers wp)
                 (Build_Chan (buf (taskChan wp) ++ [u]) (cap (taskChan wp)) false)
                 (ctx_done wp) (tm wp) (once wp))
        with (with_buf (buf (taskChan wp) ++ [u]) wp)
        by (unfold with_buf; now rewrite Hc).
      rewrite IH by (cbn; assumption).
      cbn [with_buf taskChan buf cap]. rewrite length_app. cbn [length].
      destruct room as [|room'] eqn:Eroom; [subst room; lia|].
      replace (cap (taskChan wp) - (length (buf (taskChan wp)) + 1))%nat with room'
        by (subst room; lia).
      cbn [take length Nat.min Nat.sub replicate app]. rewrite <- app_assoc. cbn [app].
      reflexivity.
    + apply Nat.ltb_ge in Er.
      assert (Hroom : room = 0%nat) by (subst room; lia).
      rewrite IH by assumption. fold room. rewrite Hroom.
      rewrite !Nat.min_0_r, !Nat.sub_0_r, !take_0. cbn [replicate app length]. reflexivity.
Qed.

(** The units [ResumeTasks] makes. *)
Lemma elem_of_resume_units u tasks w :
  u ∈ resume_units tasks w <->
  exists t f,
    (File u).1 ∈ tasks /\ heap w !! (File u).1 = Some t /\
    Task.Files t !! (File u).2 = Some f /\
    String.eqb (File.Status f) domain.StatusCompleted = false /\
    TaskID u = Task.ID t.
Proof.
  unfold resume_units. rewrite list_elem_of_In, in_flat_map. split.
  - intros (p & Hp & Hu). apply list_elem_of_In in Hp.
    destruct (heap w !! p) as [t|] eqn:Ep; [|destruct Hu].
    apply in_flat_map in Hu as (i & _ & Hu).
    destruct (Task.Files t !! i) as [f|] eqn:Ef; [|destruct Hu].
    destruct (String.eqb (File.Status f) domain.StatusCompleted) eqn:Es; [destruct Hu|].
    cbn in Hu. destruct Hu as [<-|[]]. cbn. exists t, f. auto.
  - intros (t & f & Hp & Ht & Hf & Hs & Hid). exists (File u).1.
    split; [now apply list_elem_of_In|]. rewrite Ht. apply in_flat_map.
    exists (File u).2. split.
    + apply in_seq. apply lookup_lt_Some in Hf. lia.
    + rewrite Hf, Hs. cbn. left. destruct u as [[p i] id]. cbn in *. now subst.
Qed.

Lemma files_units_length taskID files w t :
  heap w !! files = Some t ->
  length (files_units taskID files w) = length (Task.Files t).
Proof. intros H. unfold files_units. now rewrite H, length_map, length_seq. Qed.

Lemma files_units_lookup taskID files w t i :
  heap w !! files = Some t -> (i < length (Task.Files t))%nat ->
  files_units taskID files w !! i = Some {| File := (files, i); TaskID := taskID |}.
Proof.
  intros H Hi. unfold files_units. rewrite H, list_lookup_fmap, lookup_seq_lt by exact Hi.
  reflexivity.
Qed.

(** A run in which no worker receives is the loop run alone. *)
Lemma add_each_among_idle E io takes pick i units wp w :
  (forall j, takes j = 0%nat) ->
  add_each_among E io takes pick i units wp w = (add_each pick i units wp, w).
Proof.
  intros Hidle. revert i wp. induction units as [|u units IH]; intros i wp; [reflexivity|].
  cbn [add_each_among add_each]. rewrite Hidle, take_0, drop_0, with_buf_same.
  cbn [process_each].
  destruct (AddTask (pick i) u wp) as [[| | |] wp']; try reflexivity;
    rewrite IH; now destruct (add_each pick (S i) units wp').
Qed.

(** Whatever the workers receive meanwhile, a pool that is neither cancelled
    nor stopped answers every unit by queueing or dropping it. *)
Lemma add_each_among_running E io takes pick i units wp w :
  ctx_done wp = false -> closed (taskChan wp) = false ->
  let r := add_each_among E io takes pick i units wp w in
  length r.1.1 = length units /\
  Forall (fun o => o = Enqueued \/ o = Dropped) r.1.1 /\
  panicked r.1.1 = false.
Proof.
  revert i wp w. induction units as [|u units IH]; intros i wp w Hd Hc r; subst r.
  - cbn. split; [reflexivity|]. split; [constructor|reflexivity].
  - cbn [add_each_among].
    set (wp0 := with_buf (drop (takes i) (buf (taskChan wp))) wp).
    set (w0 := process_each E io 0 wp (take (takes i) (buf (taskChan wp))) w).
    assert (Hd0 : ctx_done wp0 = false) by exact Hd.
    assert (Hc0 : closed (taskChan wp0) = false) by exact Hc.
    rewrite (AddTaskFacts.AddTask_running (pick i) u wp0 Hd0 Hc0).
    destruct (length (buf (taskChan wp0)) <? cap (taskChan wp0))%nat.
    + set (wp1 := Build_t _ _ _ _ _).
      destruct (IH (S i) wp1 w0 Hd0 eq_refl) as (H1 & H2 & H3).
      destruct (add_each_among E io takes pick (S i) units wp1 w0) as [[os wp2] w2].
      cbn [fst snd length] in *. split; [now rewrite H1|].
      split; [constructor; [now left|exact H2]|exact H3].
    + destruct (IH (S i) wp0 w0 Hd0 Hc0) as (H1 & H2 & H3).
      destruct (add_each_among E io takes pick (S i) units wp0 w0) as [[os wp2] w2].
      cbn [fst snd length] in *. split; [now rewrite H1|].
      split; [constructor; [now right|exact H2]|exact H3].
Qed.

End QueueFacts.

(** ** Facts about one worker *)

Module WorkerFacts.
Import WorkerPool QueueFacts.

Lemma processTask_tm E io wp1 wp2 task w :
  tm wp1 = tm wp2 -> processTask E io wp1 task w = processTask E io wp2 task w.
Proof. intros H. unfold processTask, updateTaskProgress. now rewrite H. Qed.

Lemma process_each_tm E io i wp1 wp2 units w :
  tm wp1 = tm wp2 -> process_each E io i wp1 units w = process_each E io i wp2 units w.
Proof.
  intros H. revert i w. induction units as [|u units IH]; intros i w; [reflexivity|].
  cbn [process_each]. now rewrite IH, (processTask_tm E (io i) wp1 wp2 u w H).
Qed.

Lemma process_each_app E io i wp l1 l2 w :
  process_each E io i wp (l1 ++ l2) w
  = process_each E io (i + length l1) wp l2 (process_each E io i wp l1 w).
Proof.
  revert i w. induction l1 as [|u l1 IH]; intros i w.
  - cbn. now rewrite Nat.add_0_r.
  - cbn [app process_each length]. rewrite IH. f_equal. lia.
Qed.

(** A worker of a pool that is neither cancelled nor stopped takes the
    units in the order of the buffer and then waits. *)
Lemma worker_running E io pick fuel i wp w :
  ctx_done wp = false -> closed (taskChan wp) = false ->
  (length (buf (taskChan wp)) < fuel)%nat ->
  worker E io pick fuel i wp w
  = Waiting (with_buf [] wp) (process_each E io i wp (buf (taskChan wp)) w).
Proof.
  revert i wp w. induction fuel as [|fuel IH]; intros i wp w Hd Hc Hlen; [lia|].
  cbn [worker]. unfold worker_iteration, worker_cases, receive_ready.
  destruct (buf (taskChan wp)) as [|u rest] eqn:Eb.
  - rewrite Hd, Hc. cbn. rewrite <- Eb. now rewrite with_buf_same.
  - change (Build_t (workers wp)
              (Build_Chan rest (cap (taskChan wp)) (closed (taskChan wp)))
              (ctx_done wp) (tm wp) (once wp)) with (with_buf rest wp).
    rewrite Hd, Hc. cbn [orb length Nat.ltb Nat.leb app]. rewrite Nat.mod_1_r.
    cbn [lookup list_lookup].
    rewrite IH; [|exact Hd|exact Hc|cbn in *; lia].
    cbn [with_buf taskChan buf process_each].
    now rewrite (process_each_tm E io (S i) (with_buf rest wp) wp) by reflexivity.
Qed.

(** A worker of a stopped pool returns after it has processed some prefix
    of the buffer, the whole of it when it returns because the channel is
    closed. *)
Lemma worker_stopped E io pick fuel i wp w :
  ctx_done wp = true -> closed (taskChan wp) = true ->
  (length (buf (taskChan wp)) < fuel)%nat ->
  exists why k,
    (k <= length (buf (taskChan wp)))%nat /\
    worker E io pick fuel i wp w
    = Exited why (with_buf (drop k (buf (taskChan wp))) wp)
        (process_each E io i wp (take k (buf (taskChan wp))) w) /\
    (why = ChannelClosed -> k = length (buf (taskChan wp))).
Proof.
  revert i wp w. induction fuel as [|fuel IH]; intros i wp w Hd Hc Hlen; [lia|].
  cbn [worker]. unfold worker_iteration, worker_cases, receive_ready.
  assert (Hpick : (pick i mod 2 = 0 \/ pick i mod 2 = 1)%nat).
  { pose proof (Nat.mod_upper_bound (pick i) 2). lia. }
  destruct (buf (taskChan wp)) as [|u rest] eqn:Eb.
  - rewrite Hd, Hc. cbn [orb app length].
    destruct Hpick as [-> | ->]; cbn [lookup list_lookup].
    + exists ChannelClosed, 0%nat. cbn. rewrite <- Eb, with_buf_same. auto.
    + exists ContextCancelled, 0%nat. cbn. rewrite <- Eb, with_buf_same.
      split; [lia|]. split; [reflexivity|discriminate].
  - change (Build_t (workers wp)
              (Build_Chan rest (cap (taskChan wp)) (closed (taskChan wp)))
              (ctx_done wp) (tm wp) (once wp)) with (with_buf rest wp).
    rewrite Hd, Hc. cbn [orb app length].
    destruct Hpick as [-> | ->]; cbn [lookup list_lookup].
    + destruct (IH (S i) (with_buf rest wp) (processTask E (io i) wp u w))
        as (why & k & Hk & Hw & Hwhy); [exact Hd|exact Hc|cbn in *; lia|].
      cbn [with_buf taskChan buf] in Hk, Hw, Hwhy.
      exists why, (S k). split; [cbn; lia|]. split.
      * rewrite Hw. cbn [drop take process_each]. f_equal.
        apply (process_each_tm E io (S i) (with_buf rest wp) wp). reflexivity.
      * intros Hc'. cbn. now rewrite Hwhy.
    + exists ContextCancelled, 0%nat. cbn [drop take process_each].
      rewrite <- Eb, with_buf_same. split; [lia|]. split; [reflexivity|discriminate].
Qed.

(** In a pool whose context is cancelled the [select] can pick the
    cancellation, whatever the buffer holds. *)
Lemma worker_cancelled_first E io pick fuel i wp w :
  ctx_done wp = true -> pick i = 1%nat ->
  worker E io pick (S fuel) i wp w = Exited ContextCancelled wp w.
Proof.
  intros Hd Hp. cbn [worker]. unfold worker_iteration, worker_cases. rewrite Hd, Hp.
  now destruct (receive_ready (taskChan wp)).
Qed.

End WorkerFacts.

(** ** The pool: submitting units *)

(** X14: on a pool that is neither cancelled nor stopped, [ProcessFiles]
    answers every file of the slice by queueing it or by dropping it,
    whatever the [select]s pick and whatever the workers receive from the
    queue meanwhile.  When no worker receives while the loop runs, the run
    is that of the loop alone, and it enqueues the files in index order for
    as long as the buffer has room and drops every file after that: of [n]
    files and room for [r] units, the first [min n r] are queued behind the
    units already there and the other [n - r] are dropped without an
    error. *)
Theorem ProcessFiles_fills_the_queue_and_drops_the_rest E io takes pick taskID files w wp t :
  WorkerPool.ctx_done wp = false ->
  WorkerPool.closed (WorkerPool.taskChan wp) = false ->
  heap w !! files = Some t ->
  let n := length (Task.Files t) in
  let room := (WorkerPool.cap (WorkerPool.taskChan wp)
               - length (WorkerPool.buf (WorkerPool.taskChan wp)))%nat in
  let r := WorkerPool.ProcessFiles_among E io takes pick taskID files w wp in
  length r.1.1 = n /\
  Forall (fun o => o = WorkerPool.Enqueued \/ o = WorkerPool.Dropped) r.1.1 /\
  ((forall i, takes i = 0%nat) ->
   r = (WorkerPool.ProcessFiles pick taskID files w wp, w) /\
   r.1.1 = replicate (n `min` room) WorkerPool.Enqueued
           ++ replicate (n - room) WorkerPool.Dropped /\
   r.1.2 = WorkerPool.with_buf
             (WorkerPool.buf (WorkerPool.taskChan wp)
              ++ map (fun i => {| WorkerPool.File := (files, i); WorkerPool.TaskID := taskID |})
                   (seq 0 (n `min` room))) wp).
Proof.
  intros Hd Hc Ht n room r. subst r. unfold WorkerPool.ProcessFiles_among.
  destruct (QueueFacts.add_each_among_running E io takes pick 0
              (WorkerPool.files_units taskID files w) wp w Hd Hc) as (Hlen & Hall & _).
  rewrite (QueueFacts.files_units_length taskID files w t Ht) in Hlen.
  split; [exact Hlen|]. split; [exact Hall|].
  intros Hidle. rewrite (QueueFacts.add_each_among_idle E io takes pick 0 _ wp w Hidle).
  unfold WorkerPool.ProcessFiles. split; [reflexivity|]. cbn [fst snd].
  rewrite (QueueFacts.add_each_running pick 0 _ wp Hd Hc). fold room.
  rewrite (QueueFacts.files_units_length taskID files w t Ht). fold n.
  split; [reflexivity|]. cbn [snd]. f_equal. f_equal.
  unfold WorkerPool.files_units. rewrite Ht. fold n.
  change (map ?f ?l) with (f <$> l).
  rewrite <- fmap_take, take_seq. now rewrite Nat.min_comm.
Qed.

(** X14 at a concrete input: a task with three files offered to a pool of
    one worker, whose buffer has room for two units, in a run in which no
    worker receives. *)
Lemma ProcessFiles_fills_the_queue_and_drops_the_rest_witness :
  let r := WorkerPool.ProcessFiles_among Fixtures.env (fun _ => NoFault) (fun _ => 0%nat)
             (fun _ => 0%nat) "task_7" 1%positive Fixtures.world_restarted Fixtures.pool in
  heap Fixtures.world_restarted !! 1%positive = Some Fixtures.task_interrupted /\
  r.1.1 = [WorkerPool.Enqueued; WorkerPool.Enqueued; WorkerPool.Dropped] /\
  WorkerPool.buf (WorkerPool.taskChan r.1.2)
  = [ {| WorkerPool.File := (1%positive, 0%nat); WorkerPool.TaskID := "task_7" |};
      {| WorkerPool.File := (1%positive, 1%nat); WorkerPool.TaskID := "task_7" |} ].
Proof.
  intros r. split; [reflexivity|].
  destruct (ProcessFiles_fills_the_queue_and_drops_the_rest Fixtures.env (fun _ => NoFault)
              (fun _ => 0%nat) (fun _ => 0%nat) "task_7"
              1%positive Fixtures.world_restarted Fixtures.pool Fixtures.task_interrupted
              eq_refl eq_refl eq_refl) as (_ & _ & H).
  destruct (H (fun _ => eq_refl)) as (_ & H1 & H2).
  split; [exact H1|]. fold r in H2. now rewrite H2.
Defined.

(** X15: whatever the state of the pool and whatever the [select]s pick,
    [ProcessFiles] and [ResumeTasks] only append to the queue: the units
    that were queued stay in their order, the new ones are some of the
    offered units in the order they were offered, each at most once, and a
    queue that was within its capacity stays within it.  Nothing else of
    the pool changes. *)
Theorem submissions_only_append_within_capacity pick taskID files tasks w wp :
  (length (WorkerPool.buf (WorkerPool.taskChan wp))
   <= WorkerPool.cap (WorkerPool.taskChan wp))%nat ->
  (exists sent,
     (WorkerPool.ProcessFiles pick taskID files w wp).2
     = WorkerPool.with_buf (WorkerPool.buf (WorkerPool.taskChan wp) ++ sent) wp /\
     sent `sublist_of` WorkerPool.files_units taskID files w /\
     (length (WorkerPool.buf (WorkerPool.taskChan wp) ++ sent)
      <= WorkerPool.cap (WorkerPool.taskChan wp))%nat) /\
  (exists sent,
     (WorkerPool.ResumeTasks pick tasks w wp).2
     = WorkerPool.with_buf (WorkerPool.buf (WorkerPool.taskChan wp) ++ sent) wp /\
     sent `sublist_of` WorkerPool.resume_units tasks w /\
     (length (WorkerPool.buf (WorkerPool.taskChan wp) ++ sent)
      <= WorkerPool.cap (WorkerPool.taskChan wp))%nat).
Proof.
  intros Hcap. unfold WorkerPool.ProcessFiles, WorkerPool.ResumeTasks. split.
  - destruct (QueueFacts.add_each_pool pick 0 (WorkerPool.files_units taskID files w) wp)
      as (sent & H1 & H2 & H3 & _).
    exists sent. auto.
  - destruct (QueueFacts.add_each_pool pick 0 (WorkerPool.resume_units tasks w) wp)
      as (sent & H1 & H2 & H3 & _).
    exists sent. auto.
Qed.

(** X15 at a concrete input: the pool of one worker, empty. *)
Lemma submissions_only_append_within_capacity_witness :
  (length (WorkerPool.buf (WorkerPool.taskChan Fixtures.pool))
   <= WorkerPool.cap (WorkerPool.taskChan Fixtures.pool))%nat /\
  exists sent,
    (WorkerPool.ResumeTasks (fun _ => 0%nat) [1%positive] Fixtures.world_restarted
       Fixtures.pool).2
    = WorkerPool.with_buf (WorkerPool.buf (WorkerPool.taskChan Fixtures.pool) ++ sent)
        Fixtures.pool /\
    (length (WorkerPool.buf (WorkerPool.taskChan Fixtures.pool) ++ sent)
     <= WorkerPool.cap (WorkerPool.taskChan Fixtures.pool))%nat.
Proof.
  assert (H : (length (WorkerPool.buf (WorkerPool.taskChan Fixtures.pool))
               <= WorkerPool.cap (WorkerPool.taskChan Fixtures.pool))%nat)
    by (vm_compute; lia).
  split; [exact H|].
  destruct (submissions_only_append_within_capacity (fun _ => 0%nat) "task_7" 1%positive
              [1%positive] Fixtures.world_restarted Fixtures.pool H)
    as [_ (sent & H1 & _ & H3)].
  exists sent. auto.
Defined.

(** X16: [ResumeTasks] never submits a completed file: every unit it adds
    to the queue points at a file of one of the given tasks whose status
    is not completed, and carries the ID of that task. *)
Theorem ResumeTasks_submits_unfinished_files_only pick tasks w wp u :
  u ∈ WorkerPool.buf (WorkerPool.taskChan (WorkerPool.ResumeTasks pick tasks w wp).2) ->
  u ∈ WorkerPool.buf (WorkerPool.taskChan wp) \/
  exists t f,
    (WorkerPool.File u).1 ∈ tasks /\
    heap w !! (WorkerPool.File u).1 = Some t /\
    Task.Files t !! (WorkerPool.File u).2 = Some f /\
    File.Status f <> domain.StatusCompleted /\
    WorkerPool.TaskID u = Task.ID t.
Proof.
  unfold WorkerPool.ResumeTasks.
  destruct (QueueFacts.add_each_pool pick 0 (WorkerPool.resume_units tasks w) wp)
    as (sent & -> & Hsub & _).
  cbn [WorkerPool.with_buf WorkerPool.taskChan WorkerPool.buf].
  rewrite elem_of_app. intros [H|H]; [now left|right].
  apply (elem_of_sublist _ _ _ H) in Hsub.
  apply QueueFacts.elem_of_resume_units in Hsub as (t & f & H1 & H2 & H3 & H4 & H5).
  exists t, f. do 3 (split; [assumption|]). split; [|assumption].
  now apply String.eqb_neq.
Qed.

(** X16 at a concrete input: the interrupted task of the restarted
    registry, whose first file is completed. *)
Lemma ResumeTasks_submits_unfinished_files_only_witness :
  let u := {| WorkerPool.File := (1%positive, 1%nat); WorkerPool.TaskID := "task_7" |} in
  u ∈ WorkerPool.buf
        (WorkerPool.taskChan
           (WorkerPool.ResumeTasks (fun _ => 0%nat) [1%positive] Fixtures.world_restarted
              Fixtures.pool).2) /\
  exists f,
    Task.Files Fixtures.task_interrupted !! 1%nat = Some f /\
    File.Status f <> domain.StatusCompleted.
Proof.
  intros u.
  assert (Hin : u ∈ WorkerPool.buf
                      (WorkerPool.taskChan
                         (WorkerPool.ResumeTasks (fun _ => 0%nat) [1%positive]
                            Fixtures.world_restarted Fixtures.pool).2))
    by (vm_compute; apply list_elem_of_here).
  split; [exact Hin|].
  destruct (ResumeTasks_submits_unfinished_files_only (fun _ => 0%nat) [1%positive]
              Fixtures.world_restarted Fixtures.pool u Hin)
    as [Hold|(t & f & _ & Ht & Hf & Hs & _)].
  - vm_compute in Hold. now apply elem_of_nil in Hold.
  - change (heap Fixtures.world_restarted !! 1%positive = Some t) in Ht.
    change (Some Fixtures.task_interrupted = Some t) in Ht. injection Ht as <-.
    exists f. split; assumption.
Defined.

(** X17: recovery followed by [ResumeTasks(GetIncompleteTasks())]: every
    unit that is added to the queue points at a pending file, with nothing
    downloaded, of a task that is registered, pending and at progress 0,
    and carries the ID of that task. *)
Theorem resumed_units_are_pending_files E io range range' pick w wp u :
  (forall l, range l ≡ₚ l) -> (forall l, range' l ≡ₚ l) ->
  let w' := (TaskManager.RecoverIncompleteTasks E io range w).1 in
  let wp' := (WorkerPool.ResumeTasks pick (TaskManager.GetIncompleteTasks range' w') w' wp).2 in
  u ∈ WorkerPool.buf (WorkerPool.taskChan wp') ->
  u ∈ WorkerPool.buf (WorkerPool.taskChan wp) \/
  exists t' f,
    Registry.registered (WorkerPool.File u).1 w' /\
    heap w' !! (WorkerPool.File u).1 = Some t' /\
    Task.Status t' = domain.StatusPending /\ Task.Progress t' = 0 /\
    Task.Files t' !! (WorkerPool.File u).2 = Some f /\
    File.Status f = domain.StatusPending /\ File.Downloaded f = 0 /\
    WorkerPool.TaskID u = Task.ID t'.
Proof.
  intros Hperm Hperm' w' wp' Hin. subst wp'. unfold WorkerPool.ResumeTasks in Hin.
  destruct (QueueFacts.add_each_pool pick 0
              (WorkerPool.resume_units (TaskManager.GetIncompleteTasks range' w') w') wp)
    as (sent & Heq & Hsub & _).
  rewrite Heq in Hin. cbn [WorkerPool.with_buf WorkerPool.taskChan WorkerPool.buf] in Hin.
  apply elem_of_app in Hin as [H|H]; [now left|right].
  apply (elem_of_sublist _ _ _ H) in Hsub.
  apply QueueFacts.elem_of_resume_units in Hsub as (t' & f & H1 & H2 & H3 & H4 & H5).
  destruct (RegistryFacts.incomplete_after_Recover E io range range' w _ Hperm Hperm' H1)
    as (t & t'' & _ & _ & Ht'' & _ & Hst & Hpr & _ & Hfiles).
  fold w' in Ht''. rewrite H2 in Ht''. injection Ht'' as <-.
  apply (RegistryFacts.elem_of_GetIncompleteTasks range' w' _ Hperm') in H1
    as (k & _ & Hk & _).
  exists t', f. split; [now exists k|]. do 4 (split; [assumption|]).
  rewrite Forall_forall in Hfiles.
  destruct (Hfiles f) as [Hc|[Hp Hd]].
  - now apply list_elem_of_lookup_2 in H3.
  - rewrite Hc in H4. discriminate.
  - auto.
Qed.

(** X17 at a concrete input: the registry after a restart, recovered and
    resumed on the empty pool of one worker. *)
Lemma resumed_units_are_pending_files_witness :
  let w' := (TaskManager.RecoverIncompleteTasks Fixtures.env (fun _ => NoFault) reverse
               Fixtures.world_restarted).1 in
  let wp' := (WorkerPool.ResumeTasks (fun _ => 0%nat)
                (TaskManager.GetIncompleteTasks reverse w') w' Fixtures.pool).2 in
  let u := {| WorkerPool.File := (1%positive, 1%nat); WorkerPool.TaskID := "task_7" |} in
  (forall l : list (string * loc), reverse l ≡ₚ l) /\
  u ∈ WorkerPool.buf (WorkerPool.taskChan wp') /\
  exists t' f,
    heap w' !! 1%positive = Some t' /\ Task.Files t' !! 1%nat = Some f /\
    File.Status f = domain.StatusPending /\ File.Downloaded f = 0.
Proof.
  intros w' wp' u.
  assert (Hperm : forall l : list (string * loc), reverse l ≡ₚ l)
    by (intros l; apply reverse_Permutation).
  assert (Hin : u ∈ WorkerPool.buf (WorkerPool.taskChan wp'))
    by (vm_compute; apply list_elem_of_here).
  split; [exact Hperm|]. split; [exact Hin|].
  destruct (resumed_units_are_pending_files Fixtures.env (fun _ => NoFault) reverse reverse
              (fun _ => 0%nat) Fixtures.world_restarted Fixtures.pool u Hperm Hperm Hin)
    as [Hold|(t' & f & _ & Ht & _ & _ & Hf & Hs & Hd & _)].
  - vm_compute in Hold. now apply elem_of_nil in Hold.
  - exists t', f. auto.
Defined.

(** ** The pool: one worker *)

(** X18: a worker of a pool that is neither cancelled nor stopped, left
    alone with the queue, processes the queued units one by one in the
    order in which they were queued, each once, and then waits with the
    queue empty; it does not return. *)
Theorem worker_processes_the_queue_in_order E io pick fuel i wp w :
  WorkerPool.ctx_done wp = false ->
  WorkerPool.closed (WorkerPool.taskChan wp) = false ->
  (length (WorkerPool.buf (WorkerPool.taskChan wp)) < fuel)%nat ->
  WorkerPool.worker E io pick fuel i wp w
  = WorkerPool.Waiting (WorkerPool.with_buf [] wp)
      (WorkerPool.process_each E io i wp (WorkerPool.buf (WorkerPool.taskChan wp)) w).
Proof. exact (WorkerFacts.worker_running E io pick fuel i wp w). Qed.

(** X18 at a concrete input: one queued unit whose download succeeds. *)
Lemma worker_processes_the_queue_in_order_witness :
  let wp := WorkerPool.with_buf [Fixtures.unit_A] Fixtures.pool in
  let w := Fixtures.world_with Fixtures.task_quarter in
  WorkerPool.ctx_done wp = false /\
  (length (WorkerPool.buf (WorkerPool.taskChan wp)) < 2)%nat /\
  WorkerPool.worker Fixtures.env (fun _ => NoFault) (fun _ => 0%nat) 2 0 wp w
  = WorkerPool.Waiting Fixtures.pool
      (WorkerPool.processTask Fixtures.env NoFault wp Fixtures.unit_A w).
Proof.
  intros wp w. split; [reflexivity|]. split; [cbn; lia|].
  refine (worker_processes_the_queue_in_order Fixtures.env (fun _ => NoFault)
            (fun _ => 0%nat) 2 0 wp w eq_refl eq_refl _).
  cbn; lia.
Defined.

(** X19: [Stop] lets every worker return, and does not drain the queue.
    After [Stop], which a second [Stop] does not change, a worker returns
    within one turn more than the queue has units, whatever its [select]s
    pick: it has then processed some first units of the queue in order, all
    of them when it returns because the channel is closed, and it never
    waits.  Its [select] can pick the cancellation at once, and the worker
    then returns with every queued unit unprocessed. *)
Theorem worker_returns_after_Stop E io pick fuel i wp w :
  WorkerPool.once wp = false ->
  (length (WorkerPool.buf (WorkerPool.taskChan wp)) < fuel)%nat ->
  WorkerPool.Stop (WorkerPool.Stop wp) = WorkerPool.Stop wp /\
  exists why k,
    (k <= length (WorkerPool.buf (WorkerPool.taskChan wp)))%nat /\
    WorkerPool.worker E io pick fuel i (WorkerPool.Stop wp) w
    = WorkerPool.Exited why
        (WorkerPool.with_buf (drop k (WorkerPool.buf (WorkerPool.taskChan wp)))
           (WorkerPool.Stop wp))
        (WorkerPool.process_each E io i wp
           (take k (WorkerPool.buf (WorkerPool.taskChan wp))) w) /\
    (why = WorkerPool.ChannelClosed ->
     k = length (WorkerPool.buf (WorkerPool.taskChan wp))) /\
    (pick i = 1%nat -> why = WorkerPool.ContextCancelled /\ k = 0%nat).
Proof.
  intros Honce Hlen. split; [unfold WorkerPool.Stop; now rewrite Honce|].
  assert (Hb : WorkerPool.buf (WorkerPool.taskChan (WorkerPool.Stop wp))
               = WorkerPool.buf (WorkerPool.taskChan wp)).
  { unfold WorkerPool.Stop. now rewrite Honce. }
  destruct (WorkerFacts.worker_stopped E io pick fuel i (WorkerPool.Stop wp) w)
    as (why & k & Hk & Hw & Hwhy).
  - reflexivity.
  - unfold WorkerPool.Stop. now rewrite Honce.
  - now rewrite Hb.
  - rewrite Hb in Hk, Hw, Hwhy.
    assert (Heq : WorkerPool.worker E io pick fuel i (WorkerPool.Stop wp) w
                  = WorkerPool.Exited why
                      (WorkerPool.with_buf (drop k (WorkerPool.buf (WorkerPool.taskChan wp)))
                         (WorkerPool.Stop wp))
                      (WorkerPool.process_each E io i wp
                         (take k (WorkerPool.buf (WorkerPool.taskChan wp))) w)).
    { rewrite Hw. f_equal. now apply WorkerFacts.process_each_tm. }
    exists why, k. split; [exact Hk|]. split; [exact Heq|]. split; [exact Hwhy|].
    intros Hp. destruct fuel as [|fuel]; [lia|].
    rewrite (WorkerFacts.worker_cancelled_first E io pick fuel i (WorkerPool.Stop wp) w
               eq_refl Hp) in Heq.
    split; [congruence|].
    apply (f_equal (fun r => match r with
                             | WorkerPool.Exited _ x _ =>
                                 length (WorkerPool.buf (WorkerPool.taskChan x))
                             | _ => 0%nat
                             end)) in Heq.
    cbn [WorkerPool.with_buf WorkerPool.taskChan WorkerPool.buf] in Heq.
    rewrite Hb, length_drop in Heq. lia.
Qed.

(** X19 at a concrete input: a pool stopped with one unit in its queue, and
    a worker whose [select] picks the receive first. *)
Lemma worker_returns_after_Stop_witness :
  let wp := WorkerPool.with_buf [Fixtures.unit_A] Fixtures.pool in
  WorkerPool.once wp = false /\
  (length (WorkerPool.buf (WorkerPool.taskChan wp)) < 3)%nat /\
  exists why wp' w',
    WorkerPool.worker Fixtures.env (fun _ => NoFault) (fun _ => 0%nat) 3 0
      (WorkerPool.Stop wp) (Fixtures.world_with Fixtures.task_quarter)
    = WorkerPool.Exited why wp' w'.
Proof.
  intros wp. split; [reflexivity|].
  assert (Hlen : (length (WorkerPool.buf (WorkerPool.taskChan wp)) < 3)%nat) by (cbn; lia).
  split; [exact Hlen|].
  destruct (worker_returns_after_Stop Fixtures.env (fun _ => NoFault) (fun _ => 0%nat) 3 0
              wp (Fixtures.world_with Fixtures.task_quarter) eq_refl Hlen)
    as [_ (why & k & _ & Hw & _ & _)].
  eexists why, _, _. exact Hw.
Defined.

(** X20: the files of a task submitted by [ProcessFiles] to a pool that is
    neither cancelled nor stopped and whose queue is empty, and then taken
    by one worker: the worker processes the first files of the task, as
    many as the queue has room for, in index order, and waits. *)
Theorem worker_processes_the_files_of_ProcessFiles E io pick pick' taskID files w wp t fuel :
  WorkerPool.ctx_done wp = false ->
  WorkerPool.closed (WorkerPool.taskChan wp) = false ->
  WorkerPool.buf (WorkerPool.taskChan wp) = [] ->
  heap w !! files = Some t ->
  (length (Task.Files t) < fuel)%nat ->
  let wp1 := (WorkerPool.ProcessFiles pick taskID files w wp).2 in
  WorkerPool.worker E io pick' fuel 0 wp1 w
  = WorkerPool.Waiting wp
      (WorkerPool.process_each E io 0 wp
         (take (WorkerPool.cap (WorkerPool.taskChan wp))
            (WorkerPool.files_units taskID files w)) w).
Proof.
  intros Hd Hc Hb Ht Hfuel wp1. subst wp1. unfold WorkerPool.ProcessFiles.
  rewrite (QueueFacts.add_each_running pick 0 _ wp Hd Hc). cbn [snd].
  rewrite Hb. cbn [length app]. rewrite Nat.sub_0_r.
  set (l := take _ _).
  rewrite WorkerFacts.worker_running.
  - rewrite QueueFacts.with_buf_with_buf, (QueueFacts.with_buf_empty wp Hb).
    f_equal. now apply WorkerFacts.process_each_tm.
  - exact Hd.
  - exact Hc.
  - cbn [WorkerPool.with_buf WorkerPool.taskChan WorkerPool.buf]. subst l.
    rewrite length_take, (QueueFacts.files_units_length taskID files w t Ht). lia.
Qed.

(** X20 at a concrete input: a task with two files on the empty pool of
    one worker. *)
Lemma worker_processes_the_files_of_ProcessFiles_witness :
  let w := Fixtures.world_with Fixtures.task_quarter in
  let wp1 := (WorkerPool.ProcessFiles (fun _ => 0%nat) "task_1" 1%positive w Fixtures.pool).2 in
  heap w !! 1%positive = Some Fixtures.task_quarter /\
  WorkerPool.worker Fixtures.env (fun _ => NoFault) (fun _ => 0%nat) 3 0 wp1 w
  = WorkerPool.Waiting Fixtures.pool
      (WorkerPool.process_each Fixtures.env (fun _ => NoFault) 0 Fixtures.pool
         [ {| WorkerPool.File := (1%positive, 0%nat); WorkerPool.TaskID := "task_1" |};
           {| WorkerPool.File := (1%positive, 1%nat); WorkerPool.TaskID := "task_1" |} ] w).
Proof.
  intros w wp1. split; [reflexivity|].
  refine (worker_processes_the_files_of_ProcessFiles Fixtures.env (fun _ => NoFault)
            (fun _ => 0%nat) (fun _ => 0%nat) "task_1" 1%positive w Fixtures.pool
            Fixtures.task_quarter 3 eq_refl eq_refl eq_refl eq_refl _).
  cbn; lia.
Defined.

(** ** Facts about one unit of work *)

Module ProcessFacts.
Import WorkerPool WorldFacts PointerFacts.

Lemma aggregate_ID t : Task.ID (aggregate t) = Task.ID t.
Proof. reflexivity. Qed.

Lemma aggregate_Files t : Task.Files (aggregate t) = Task.Files t.
Proof. reflexivity. Qed.

(** The pass on a registered task, as one call of the store. *)
Lemma updateTaskProgress_world E io wp taskID w p t :
  tm wp = true ->
  TaskManager.GetTask taskID w = Some p ->
  heap w !! p = Some t ->
  updateTaskProgress E io wp taskID w
  = (TaskStorage.SaveTask E io p
       (with_tasks (<[Task.ID t := p]> (tasks w))
          (with_heap (<[p := aggregate t]> (heap w)) w))).1.
Proof.
  intros Htm Hget Hp. unfold updateTaskProgress. rewrite Htm, Hget, Hp. cbn [negb].
  unfold TaskManager.UpdateTask. cbn [heap with_heap]. rewrite lookup_insert_eq.
  reflexivity.
Qed.

Lemma updateTaskProgress_skipped E io wp taskID w :
  tm wp = false \/ TaskManager.GetTask taskID w = None ->
  updateTaskProgress E io wp taskID w = w.
Proof.
  intros [H|H]; unfold updateTaskProgress; rewrite H; [reflexivity|].
  now destruct (negb (tm wp)).
Qed.

(** [processTask] when the probe succeeds and the download fails. *)
Lemma processTask_download_fails_eq E io wp task w t f size e :
  heap w !! (File task).1 = Some t ->
  Task.Files t !! (File task).2 = Some f ->
  Downloader.GetFileSize E (File.URL f) = inl size ->
  Downloader.DownloadFile E (File.URL f) (Downloader.ExtractFilename E (File.URL f))
  = inr e ->
  processTask E io wp task w
  = with_heap
      (<[(File task).1 :=
           put_file (File task).2
             (File.mk (File.URL f) (File.Filename f) domain.StatusFailed size
                (File.Downloaded f) (File.CreatedAt f)) t]> (heap w)) w.
Proof.
  intros Ht Hf Hprobe Hdl. unfold processTask.
  rewrite (file_at_eq _ _ t Ht), Hf, Hprobe, Hdl.
  set (p := File task) in *.
  rewrite (update_file_eq p _ w t f Ht Hf).
  set (f1 := File.with_Status domain.StatusDownloading f).
  set (w1 := with_heap (<[p.1 := put_file p.2 f1 t]> (heap w)) w).
  assert (Ht1 : heap w1 !! p.1 = Some (put_file p.2 f1 t)) by apply lookup_insert_eq.
  assert (Hf1 : Task.Files (put_file p.2 f1 t) !! p.2 = Some f1)
    by (eapply put_file_lookup; exact Hf).
  rewrite (update_file_eq p _ w1 _ f1 Ht1 Hf1).
  set (f2 := File.with_Size size f1).
  set (w2 := with_heap (<[p.1 := put_file p.2 f2 (put_file p.2 f1 t)]> (heap w1)) w1).
  assert (Ht2 : heap w2 !! p.1 = Some (put_file p.2 f2 (put_file p.2 f1 t)))
    by apply lookup_insert_eq.
  assert (Hf2 : Task.Files (put_file p.2 f2 (put_file p.2 f1 t)) !! p.2 = Some f2)
    by (eapply put_file_lookup; exact Hf1).
  rewrite (update_file_eq p _ w2 _ f2 Ht2 Hf2).
  unfold w2, w1. cbn [heap with_heap].
  rewrite !insert_insert_eq, !put_file_put_file. reflexivity.
Qed.

End ProcessFacts.

(** ** Facts about the status and the progress of a task *)

Module AggregateMore.
Import WorkerPool ScanFacts.

Lemma percent_zero t : 0 < t <= Int64.max_int -> percent 0 t = 0.
Proof.
  intros [Ht Htmax]. unfold percent.
  assert (Ht63 : t < 2 ^ 63) by (unfold Int64.max_int in Htmax; lia).
  destruct (Float64Facts.of_int64_pos t ltac:(lia)) as (mt & et & Et & _).
  rewrite Et. reflexivity.
Qed.

Lemma fold_scan_downloaded_zero fs a :
  Forall (fun f => File.Downloaded f = 0) fs -> downloaded a = 0 ->
  downloaded (fold_left scan_step fs a) = 0.
Proof.
  revert a. induction fs as [|f fs IH]; intros a HF Ha; [exact Ha|].
  inversion HF as [|? ? Hf Hfs]; subst. cbn [fold_left]. apply IH; [exact Hfs|].
  cbn [scan_step downloaded]. now rewrite Ha, Hf.
Qed.

Lemma forallb_completed_false fs :
  fs <> [] -> Forall (fun f => File.Status f = domain.StatusFailed) fs ->
  forallb is_completed fs = false /\ existsb is_downloading fs = false /\
  count_completed fs = 0.
Proof.
  intros Hne HF.
  assert (Hc : forall f, File.Status f = domain.StatusFailed -> is_completed f = false)
    by (intros f Hf; unfold is_completed; now rewrite Hf).
  assert (Hd : forall f, File.Status f = domain.StatusFailed -> is_downloading f = false)
    by (intros f Hf; unfold is_downloading; now rewrite Hf).
  split; [|split].
  - destruct fs as [|f fs]; [congruence|]. inversion HF; subst. cbn. now rewrite Hc.
  - clear Hne. induction HF as [|f fs Hf _ IH]; [reflexivity|]. cbn. now rewrite Hd.
  - unfold count_completed. rewrite fold_count_completed.
    replace (filter (fun f => is_completed f = true) fs) with (@nil File.t); [reflexivity|].
    clear Hne. induction HF as [|f fs Hf _ IH]; [reflexivity|].
    rewrite filter_cons_False; [exact IH|]. rewrite (Hc f Hf). discriminate.
Qed.

End AggregateMore.

(** ** One unit of work *)

(** X22: when the size probe of a unit succeeds and its download fails,
    [processTask] leaves the file failed with the probed size recorded and
    its name and downloaded count as they were; every other file, the
    status and the progress of the task, the registry, the state directory
    and the store are untouched: the failure is neither aggregated nor
    saved. *)
Theorem processTask_download_fails E io wp task w t f size e :
  heap w !! (WorkerPool.File task).1 = Some t ->
  Task.Files t !! (WorkerPool.File task).2 = Some f ->
  Downloader.GetFileSize E (File.URL f) = inl size ->
  Downloader.DownloadFile E (File.URL f) (Downloader.ExtractFilename E (File.URL f))
  = inr e ->
  let w' := WorkerPool.processTask E io wp task w in
  exists t',
    heap w' = <[(WorkerPool.File task).1 := t']> (heap w) /\
    Task.Files t'
    = <[(WorkerPool.File task).2 :=
          File.mk (File.URL f) (File.Filename f) domain.StatusFailed size
            (File.Downloaded f) (File.CreatedAt f)]> (Task.Files t) /\
    Task.Status t' = Task.Status t /\ Task.Progress t' = Task.Progress t /\
    tasks w' = tasks w /\ fs w' = fs w /\ saves w' = saves w.
Proof.
  intros Ht Hf Hprobe Hdl w'. subst w'.
  rewrite (ProcessFacts.processTask_download_fails_eq E io wp task w t f size e Ht Hf Hprobe Hdl).
  eexists. split; [reflexivity|]. repeat split; reflexivity.
Qed.

(** X22 at a concrete input: a URL whose probe answers 200 and whose
    download fails. *)
Lemma processTask_download_fails_witness :
  let E := {| filepath_Join := Fixtures.join;
              neturl_Parse := fun u => Some {| Path := Fixtures.plain_path u |};
              http_Head := fun _ => Some {| StatusCode := 200; ContentLength := 7 |};
              download := fun _ _ => None |} in
  let w := Fixtures.world_with Fixtures.task_quarter in
  let w' := WorkerPool.processTask E NoFault Fixtures.pool
              {| WorkerPool.File := (1%positive, 1%nat); WorkerPool.TaskID := "task_1" |} w in
  heap w !! 1%positive = Some Fixtures.task_quarter /\
  exists t',
    heap w' = <[1%positive := t']> (heap w) /\
    Task.Files t'
    = [ Fixtures.file Fixtures.urlA domain.StatusCompleted 10 10;
        File.mk Fixtures.urlB "missing" domain.StatusFailed 7 0 0 ] /\
    Task.Status t' = domain.StatusDownloading /\ saves w' = [].
Proof.
  intros E w w'. split; [reflexivity|].
  destruct (processTask_download_fails E NoFault Fixtures.pool
              {| WorkerPool.File := (1%positive, 1%nat); WorkerPool.TaskID := "task_1" |} w
              Fixtures.task_quarter (Fixtures.file Fixtures.urlB domain.StatusPending 30 0)
              7 ErrDownload eq_refl eq_refl eq_refl eq_refl)
    as (t' & H1 & H2 & H3 & _ & _ & _ & H7).
  exists t'. split; [exact H1|]. split; [exact H2|]. split; [exact H3|exact H7].
Defined.

(** X23: a unit whose task ID is not in the registry, or a pool without a
    task manager: a successful download completes the file, with the
    probed size as its size and its downloaded count and with the saved
    name, and nothing is aggregated or saved. *)
Theorem processTask_without_a_registered_task E io wp task w t f size savedName :
  heap w !! (WorkerPool.File task).1 = Some t ->
  Task.Files t !! (WorkerPool.File task).2 = Some f ->
  Downloader.GetFileSize E (File.URL f) = inl size ->
  Downloader.DownloadFile E (File.URL f) (Downloader.ExtractFilename E (File.URL f))
  = inl savedName ->
  WorkerPool.tm wp = false \/ TaskManager.GetTask (WorkerPool.TaskID task) w = None ->
  WorkerPool.processTask E io wp task w
  = with_heap
      (<[(WorkerPool.File task).1 :=
           WorkerPool.put_file (WorkerPool.File task).2
             (File.mk (File.URL f) savedName domain.StatusCompleted size size
                (File.CreatedAt f)) t]> (heap w)) w.
Proof.
  intros Ht Hf Hprobe Hdl Hskip.
  rewrite (PointerFacts.processTask_succeeds E io wp task w t f size savedName
             Ht Hf Hprobe Hdl).
  apply ProcessFacts.updateTaskProgress_skipped.
  destruct Hskip as [H|H]; [now left|now right].
Qed.

(** X23 at a concrete input: a unit that names a task the registry does
    not hold. *)
Lemma processTask_without_a_registered_task_witness :
  let w := Fixtures.world_with Fixtures.task_quarter in
  let task := {| WorkerPool.File := (1%positive, 0%nat); WorkerPool.TaskID := "task_9" |} in
  TaskManager.GetTask "task_9" w = None /\
  exists t',
    heap (WorkerPool.processTask Fixtures.env NoFault Fixtures.pool task w) !! 1%positive
    = Some t' /\
    Task.Status t' = Task.Status Fixtures.task_quarter /\
    saves (WorkerPool.processTask Fixtures.env NoFault Fixtures.pool task w) = [].
Proof.
  intros w task. split; [reflexivity|].
  rewrite (processTask_without_a_registered_task Fixtures.env NoFault Fixtures.pool task w
             Fixtures.task_quarter (Fixtures.file Fixtures.urlA domain.StatusCompleted 10 10)
             2 "hi.txt" eq_refl eq_refl eq_refl eq_refl (or_intror eq_refl)).
  eexists. split; [apply lookup_insert_eq|]. split; reflexivity.
Defined.

(** X24: a successful download of a file of a registered task is
    aggregated and handed to the store at once: after [processTask] the
    task object is the aggregate of the task with the file completed, the
    store has been called once more, on that state, the task is registered
    under its ID, and when the write succeeds the file of the task holds
    that state. *)
Theorem completed_download_is_aggregated_and_saved E io wp task w t f size savedName :
  WorkerPool.tm wp = true ->
  heap w !! (WorkerPool.File task).1 = Some t ->
  Task.Files t !! (WorkerPool.File task).2 = Some f ->
  TaskManager.GetTask (WorkerPool.TaskID task) w = Some (WorkerPool.File task).1 ->
  Downloader.GetFileSize E (File.URL f) = inl size ->
  Downloader.DownloadFile E (File.URL f) (Downloader.ExtractFilename E (File.URL f))
  = inl savedName ->
  let p := (WorkerPool.File task).1 in
  let w' := WorkerPool.processTask E io wp task w in
  let t' :=
    WorkerPool.aggregate
      (WorkerPool.put_file (WorkerPool.File task).2
         (File.mk (File.URL f) savedName domain.StatusCompleted size size
            (File.CreatedAt f)) t) in
  heap w' = <[p := t']> (heap w) /\
  saves w' = Build_SaveCall p t' (TaskStorage.save_result io) :: saves w /\
  TaskManager.GetTask (Task.ID t) w' = Some p /\
  (io = NoFault ->
   files (fs w') !! filepath_Join E (stateDir w) (Task.ID t +:+ ".json") = Some (Doc t')).
Proof.
  intros Htm Ht Hf Hget Hprobe Hdl p w' t'. subst w'.
  rewrite (PointerFacts.processTask_succeeds E io wp task w t f size savedName
             Ht Hf Hprobe Hdl).
  fold p in Ht, Hget |- *.
  set (t1 := WorkerPool.put_file _ _ t) in *.
  set (w1 := with_heap (<[p := t1]> (heap w)) w).
  assert (H1 : heap w1 !! p = Some t1) by apply lookup_insert_eq.
  rewrite (ProcessFacts.updateTaskProgress_world E io wp _ w1 p t1 Htm Hget H1).
  fold t'. set (w2 := with_tasks _ _).
  assert (H2 : heap w2 !! p = Some t') by (cbn; apply lookup_insert_eq).
  split; [|split; [|split]].
  - rewrite WorldFacts.SaveTask_heap. cbn. apply insert_insert_eq.
  - now rewrite (WorldFacts.SaveTask_saves E io p w2 t' H2).
  - unfold TaskManager.GetTask. rewrite WorldFacts.SaveTask_tasks. cbn.
    apply lookup_insert_eq.
  - intros ->. exact (WorldFacts.SaveTask_written E p w2 t' H2).
Qed.

(** X24 at a concrete input: the second file of a task of two files, whose
    first file is completed. *)
Lemma completed_download_is_aggregated_and_saved_witness :
  let E := {| filepath_Join := Fixtures.join;
              neturl_Parse := fun u => Some {| Path := Fixtures.plain_path u |};
              http_Head := fun _ => Some {| StatusCode := 200; ContentLength := 30 |};
              download := fun _ name => Some name |} in
  let w := Fixtures.world_with Fixtures.task_quarter in
  let w' := WorkerPool.processTask E NoFault Fixtures.pool
              {| WorkerPool.File := (1%positive, 1%nat); WorkerPool.TaskID := "task_1" |} w in
  TaskManager.GetTask "task_1" w = Some 1%positive /\
  exists t',
    heap w' !! 1%positive = Some t' /\
    Task.Status t' = domain.StatusCompleted /\ Task.Progress t' = 100 /\
    files (fs w') !! "state/task_1.json"%string = Some (Doc t').
Proof.
  intros E w w'. split; [reflexivity|].
  destruct (completed_download_is_aggregated_and_saved E NoFault Fixtures.pool
              {| WorkerPool.File := (1%positive, 1%nat); WorkerPool.TaskID := "task_1" |} w
              Fixtures.task_quarter (Fixtures.file Fixtures.urlB domain.StatusPending 30 0)
              30 "missing" eq_refl eq_refl eq_refl eq_refl eq_refl eq_refl)
    as (H1 & _ & _ & H4).
  eexists. split; [|split; [|split]].
  - fold w' in H1. rewrite H1. apply lookup_insert_eq.
  - reflexivity.
  - reflexivity.
  - exact (H4 eq_refl).
Defined.

(** ** The aggregation pass, further *)

(** X25: the aggregation pass is idempotent: run on a task it has just
    been run on, it changes nothing. *)
Theorem aggregate_is_idempotent t :
  WorkerPool.aggregate (WorkerPool.aggregate t) = WorkerPool.aggregate t.
Proof.
  unfold WorkerPool.aggregate at 1.
  rewrite !ProcessFacts.aggregate_Files.
  unfold WorkerPool.aggregate.
  cbn [Task.with_Status Task.with_Progress Task.ID Task.URLs Task.Files Task.CreatedAt
       Task.Progress Task.Status].
  destruct (0 <? WorkerPool.totalSize (WorkerPool.scan (Task.Files t))); [reflexivity|].
  destruct (0 <? Z.of_nat (length (Task.Files t))); reflexivity.
Qed.

(** X26: the aggregation pass touches only the status and the progress of
    a task, and the status it stores is never failed: it is completed
    exactly when every file is completed, and otherwise downloading or
    pending, whatever the files' own statuses are. *)
Theorem aggregate_never_reports_failed t :
  let t' := WorkerPool.aggregate t in
  Task.ID t' = Task.ID t /\ Task.URLs t' = Task.URLs t /\
  Task.Files t' = Task.Files t /\ Task.CreatedAt t' = Task.CreatedAt t /\
  Task.Status t' <> domain.StatusFailed /\
  (Task.Status t' = domain.StatusCompleted
   <-> Forall (fun f => File.Status f = domain.StatusCompleted) (Task.Files t)) /\
  (Task.Status t' = domain.StatusCompleted \/
   Task.Status t' = domain.StatusDownloading \/
   Task.Status t' = domain.StatusPending).
Proof.
  intros t'. do 4 (split; [reflexivity|]). subst t'.
  rewrite AggregateFacts.aggregate_status. unfold Claims.status_by_priority.
  assert (Hall : forallb WorkerPool.is_completed (Task.Files t) = true
                 <-> Forall (fun f => File.Status f = domain.StatusCompleted) (Task.Files t)).
  { rewrite forallb_forall, Forall_forall. unfold WorkerPool.is_completed.
    split; intros H f Hf.
    - apply String.eqb_eq, H. now apply list_elem_of_In.
    - apply String.eqb_eq, H. now apply list_elem_of_In. }
  destruct (forallb WorkerPool.is_completed (Task.Files t)) eqn:Ec.
  - split; [discriminate|]. split; [|now left]. split; [intros _; now apply Hall|reflexivity].
  - assert (Hn : ~ Forall (fun f => File.Status f = domain.StatusCompleted) (Task.Files t)).
    { intros H. apply Hall in H. discriminate. }
    destruct (existsb WorkerPool.is_downloading (Task.Files t)).
    + split; [discriminate|]. split; [split; [discriminate|contradiction]|]. right. now left.
    + destruct (0 <? Task.Progress (WorkerPool.aggregate t)).
      * split; [discriminate|]. split; [split; [discriminate|contradiction]|]. right. now left.
      * split; [discriminate|]. split; [split; [discriminate|contradiction]|]. right. now right.
Qed.

(** X27: a task every file of which has failed with nothing downloaded is
    reported, after the pass, as pending with progress 0, whatever the
    sizes of the files. *)
Theorem all_failed_task_is_reported_pending t :
  Task.Files t <> [] ->
  Z.of_nat (length (Task.Files t)) <= Int64.max_int ->
  Forall (fun f => File.Status f = domain.StatusFailed /\ File.Downloaded f = 0)
    (Task.Files t) ->
  Task.Status (WorkerPool.aggregate t) = domain.StatusPending /\
  Task.Progress (WorkerPool.aggregate t) = 0.
Proof.
  intros Hne Hlen HF.
  assert (HFs : Forall (fun f => File.Status f = domain.StatusFailed) (Task.Files t))
    by (eapply Forall_impl; [exact HF|]; now intros f [? _]).
  assert (HFd : Forall (fun f => File.Downloaded f = 0) (Task.Files t))
    by (eapply Forall_impl; [exact HF|]; now intros f [_ ?]).
  destruct (AggregateMore.forallb_completed_false _ Hne HFs) as (Hc & Hd & Hcount).
  assert (Hdl : WorkerPool.downloaded (WorkerPool.scan (Task.Files t)) = 0)
    by (apply AggregateMore.fold_scan_downloaded_zero; [exact HFd|reflexivity]).
  assert (Hprog : Task.Progress (WorkerPool.aggregate t) = 0).
  { unfold WorkerPool.aggregate.
    cbn [Task.with_Status Task.with_Progress Task.Progress].
    destruct (Z.ltb_spec 0 (WorkerPool.totalSize (WorkerPool.scan (Task.Files t)))) as [Hpos|_].
    - rewrite Hdl. apply AggregateMore.percent_zero.
      pose proof (ScanFacts.scan_totalSize_range (Task.Files t)). lia.
    - destruct (Z.ltb_spec 0 (Z.of_nat (length (Task.Files t)))) as [Hn|Hn].
      + rewrite Hcount. apply AggregateMore.percent_zero. lia.
      + destruct (Task.Files t); [congruence|cbn in Hn; lia]. }
  split; [|exact Hprog].
  rewrite AggregateFacts.aggregate_status. unfold Claims.status_by_priority.
  now rewrite Hc, Hd, Hprog.
Qed.

(** X27 at a concrete input: a task of two files, both failed. *)
Lemma all_failed_task_is_reported_pending_witness :
  let t := Task.mk "task_3" [Fixtures.urlB; Fixtures.urlB] domain.StatusDownloading
             [Fixtures.file Fixtures.urlB domain.StatusFailed 5 0;
              Fixtures.file Fixtures.urlB domain.StatusFailed (-1) 0] 0 50 in
  Task.Files t <> [] /\
  Task.Status (WorkerPool.aggregate t) = domain.StatusPending /\
  Task.Progress (WorkerPool.aggregate t) = 0.
Proof.
  intros t. split; [discriminate|].
  refine (all_failed_task_is_reported_pending t _ _ _).
  - discriminate.
  - vm_compute. discriminate.
  - repeat constructor.
Defined.

(** ** Facts about the handlers and the shutdown *)

Module HandlerFacts.
Import WorkerPool.

Lemma panicked_app l1 l2 : panicked (l1 ++ l2) = panicked l1 || panicked l2.
Proof. unfold panicked. apply existsb_app. Qed.

Lemma panicked_replicate n o : o <> Panicked -> panicked (replicate n o) = false.
Proof.
  intros Ho. induction n as [|n IH]; [reflexivity|].
  cbn [replicate]. unfold panicked in *. cbn [existsb]. rewrite IH.
  now destruct o.
Qed.

Lemma ProcessFiles_running_no_panic pick taskID files w wp :
  ctx_done wp = false -> closed (taskChan wp) = false ->
  panicked (ProcessFiles pick taskID files w wp).1 = false.
Proof.
  intros Hd Hc. unfold ProcessFiles.
  rewrite (QueueFacts.add_each_running pick 0 _ wp Hd Hc). cbn [fst].
  now rewrite panicked_app, !panicked_replicate.
Qed.

(** With a worker that receives one unit before the third [AddTask], the
    queue of the pool of one worker takes all three files of a task: the
    counts of a run are those of the loop run alone only when no worker
    receives meanwhile. *)
Lemma ProcessFiles_among_receiving_worker :
  let takes := fun i : nat => if (i =? 2)%nat then 1%nat else 0%nat in
  (ProcessFiles_among Fixtures.env (fun _ => NoFault) takes (fun _ => 0%nat) "task_7"
     1%positive Fixtures.world_restarted Fixtures.pool).1.1
  = [Enqueued; Enqueued; Enqueued]
  /\ (ProcessFiles (fun _ => 0%nat) "task_7" 1%positive Fixtures.world_restarted
        Fixtures.pool).1
     = [Enqueued; Enqueued; Dropped].
Proof. split; reflexivity. Qed.

(** The handler beside workers that do not receive while it runs is the
    handler run alone. *)
Lemma CreateTask_among_idle E now io wio takes pick req wp w :
  (forall pool, wp = Some pool -> forall j, takes j = 0%nat) ->
  TaskHandler.CreateTask_among E now io wio takes pick req wp w
  = TaskHandler.CreateTask E now io pick req wp w.
Proof.
  intros Hidle. unfold TaskHandler.CreateTask_among, TaskHandler.CreateTask.
  destruct req as [urls|]; [|reflexivity].
  destruct (length urls =? 0)%nat; [reflexivity|].
  destruct (TaskManager.CreateTask E now io urls w) as [w' [[task|] [err|]]]; try reflexivity.
  destruct (heap w' !! task) as [t|]; [|reflexivity].
  destruct wp as [pool|]; [|reflexivity].
  unfold ProcessFiles_among, ProcessFiles.
  rewrite (QueueFacts.add_each_among_idle E wio takes pick 0 _ pool w' (Hidle pool eq_refl)).
  now destruct (add_each pick 0 (files_units (Task.ID t) task w') pool) as [outcomes pool'].
Qed.

(** Whatever the workers receive meanwhile, the loop of the handler does not
    panic on a pool that is neither cancelled nor stopped. *)
Lemma ProcessFiles_among_no_panic E io takes pick taskID files w wp :
  ctx_done wp = false -> closed (taskChan wp) = false ->
  panicked (ProcessFiles_among E io takes pick taskID files w wp).1.1 = false.
Proof.
  intros Hd Hc. unfold ProcessFiles_among.
  now destruct (QueueFacts.add_each_among_running E io takes pick 0
                  (files_units taskID files w) wp w Hd Hc) as (_ & _ & H).
Qed.

End HandlerFacts.

Module ShutdownFacts.
Import GracefulShutdown.







End ShutdownFacts.

(** ** The HTTP handlers *)

(** X28: a request with at least one URL, saved without fault, on a handler
    without a pool or with a pool that is neither cancelled nor stopped:
    [CreateTask] answers 200 with the generated ID, whatever the workers of
    the pool receive meanwhile.  When the handler has no pool, or no worker
    receives a unit while the handler runs, the run is that of the handler
    alone, and [GetTaskStatus] for the ID, served before a worker has
    received a unit, answers 200 with status pending, progress 0 and one
    pending file per URL, in the order of the URLs; the first files, as
    many as the queue had room for, are queued and the others are not. *)
Theorem created_task_is_answered_by_GetTaskStatus E now wio takes pick urls wp w :
  urls <> [] ->
  (forall pool, wp = Some pool ->
     WorkerPool.ctx_done pool = false /\
     WorkerPool.closed (WorkerPool.taskChan pool) = false) ->
  let id := TaskManager.generateTaskID now in
  let r := TaskHandler.CreateTask_among E now NoFault wio takes pick (Some urls) wp w in
  r.2 = TaskHandler.Answers 200 (TaskHandler.CreateTaskResponse id) /\
  ((forall pool, wp = Some pool -> forall i, takes i = 0%nat) ->
   r = TaskHandler.CreateTask E now NoFault pick (Some urls) wp w /\
   TaskHandler.GetTaskStatus id r.1.1
   = TaskHandler.Answers 200
       (TaskHandler.TaskStatusResponse id domain.StatusPending 0
          (map (fun url => File.mk url (TaskManager.extractFilename url)
                             domain.StatusPending 0 0 TaskManager.zero_time) urls)) /\
   (wp = None -> r.1.2 = None) /\
   (forall pool, wp = Some pool ->
      exists p,
        TaskManager.GetTask id r.1.1 = Some p /\
        let room := (WorkerPool.cap (WorkerPool.taskChan pool)
                     - length (WorkerPool.buf (WorkerPool.taskChan pool)))%nat in
        r.1.2
        = Some (WorkerPool.with_buf
                  (WorkerPool.buf (WorkerPool.taskChan pool)
                   ++ map (fun i => {| WorkerPool.File := (p, i); WorkerPool.TaskID := id |})
                        (seq 0 (length urls `min` room))) pool))).
Proof.
  intros Hne Hpool id r. split.
  { subst r. unfold TaskHandler.CreateTask_among.
    replace (length urls =? 0)%nat with false
      by (symmetry; apply Nat.eqb_neq; destruct urls; [congruence|discriminate]).
    destruct (RestartFacts.CreateTask_world E now NoFault urls w) as [Hp0 Hc].
    destruct (RegistryFacts.CreateTask_effect E now NoFault urls w) as (_ & Hh & _).
    set (task := Task.mk _ _ _ _ _ _) in *.
    set (p := fresh (dom (heap w))) in *.
    set (w0 := with_tasks _ _) in *.
    rewrite Hc in Hh |- *. cbn [fst TaskStorage.save_result] in Hh |- *.
    set (w1 := (TaskStorage.SaveTask E NoFault p w0).1) in *.
    assert (Hp1 : heap w1 !! p = Some task) by (rewrite Hh; apply lookup_insert_eq).
    rewrite Hp1. destruct wp as [pool|]; [|reflexivity].
    destruct (Hpool pool eq_refl) as [Hd Hcl].
    pose proof (HandlerFacts.ProcessFiles_among_no_panic E wio takes pick (Task.ID task) p
                  w1 pool Hd Hcl) as Hnp.
    destruct (WorkerPool.ProcessFiles_among E wio takes pick (Task.ID task) p w1 pool)
      as [[outcomes pool'] w2].
    cbn [fst] in Hnp. now rewrite Hnp. }
  intros Hidle.
  assert (Hr : r = TaskHandler.CreateTask E now NoFault pick (Some urls) wp w)
    by (subst r; now apply HandlerFacts.CreateTask_among_idle).
  split; [exact Hr|]. rewrite Hr. clear Hr r Hidle.
  unfold TaskHandler.CreateTask.
  replace (length urls =? 0)%nat with false
    by (symmetry; apply Nat.eqb_neq; destruct urls; [congruence|discriminate]).
  destruct (RestartFacts.CreateTask_world E now NoFault urls w) as [Hp0 Hc].
  destruct (RegistryFacts.CreateTask_effect E now NoFault urls w) as (_ & Hh & Ht).
  set (task := Task.mk _ _ _ _ _ _) in *.
  set (p := fresh (dom (heap w))) in *.
  set (w0 := with_tasks _ _) in *.
  rewrite Hc in Hh, Ht |- *. cbn [fst TaskStorage.save_result] in Hh, Ht |- *.
  set (w1 := (TaskStorage.SaveTask E NoFault p w0).1) in *.
  assert (Hp1 : heap w1 !! p = Some task) by (rewrite Hh; apply lookup_insert_eq).
  assert (Hget : TaskManager.GetTask id w1 = Some p).
  { unfold TaskManager.GetTask. rewrite Ht. apply lookup_insert_eq. }
  assert (Hstatus : TaskHandler.GetTaskStatus id w1
                    = TaskHandler.Answers 200
                        (TaskHandler.TaskStatusResponse id domain.StatusPending 0
                           (Task.Files task))).
  { unfold TaskHandler.GetTaskStatus. now rewrite Hget, Hp1. }
  rewrite Hp1. destruct wp as [pool|].
  - destruct (Hpool pool eq_refl) as [Hd Hcl].
    pose proof (HandlerFacts.ProcessFiles_running_no_panic pick (Task.ID task) p w1 pool Hd Hcl)
      as Hnp.
    pose proof (QueueFacts.add_each_running pick 0
                  (WorkerPool.files_units (Task.ID task) p w1) pool Hd Hcl) as Hrun.
    fold (WorkerPool.ProcessFiles pick (Task.ID task) p w1 pool) in Hrun.
    destruct (WorkerPool.ProcessFiles pick (Task.ID task) p w1 pool) as [outcomes pool'].
    cbn [fst] in Hnp. rewrite Hnp. cbn [fst snd].
    split; [exact Hstatus|]. split; [discriminate|].
    intros pool0 [= <-]. exists p. split; [exact Hget|]. cbn zeta.
    injection Hrun as _ ->. f_equal. f_equal. f_equal.
    unfold WorkerPool.files_units. rewrite Hp1.
    change (map ?f ?l) with (f <$> l).
    rewrite <- fmap_take, take_seq. cbn [Task.Files task]. unfold task. cbn [Task.Files].
    rewrite length_map. now rewrite Nat.min_comm.
  - cbn [fst snd]. split; [exact Hstatus|].
    split; [reflexivity|discriminate].
Qed.

(** X28 at a concrete input: three URLs on the empty pool of one worker,
    whose queue has room for two, in a run in which no worker receives. *)
Lemma created_task_is_answered_by_GetTaskStatus_witness :
  let urls := [Fixtures.urlA; Fixtures.urlB; Fixtures.urlB] in
  let r := TaskHandler.CreateTask_among Fixtures.env 5 NoFault (fun _ => NoFault)
             (fun _ => 0%nat) (fun _ => 0%nat) (Some urls)
             (Some Fixtures.pool) Fixtures.empty_world in
  urls <> [] /\
  r.2 = TaskHandler.Answers 200 (TaskHandler.CreateTaskResponse "task_5") /\
  exists p,
    TaskManager.GetTask "task_5" r.1.1 = Some p /\
    option_map (fun pool => WorkerPool.buf (WorkerPool.taskChan pool)) r.1.2
    = Some [ {| WorkerPool.File := (p, 0%nat); WorkerPool.TaskID := "task_5" |};
             {| WorkerPool.File := (p, 1%nat); WorkerPool.TaskID := "task_5" |} ].
Proof.
  intros urls r. split; [discriminate|].
  destruct (created_task_is_answered_by_GetTaskStatus Fixtures.env 5 (fun _ => NoFault)
              (fun _ => 0%nat) (fun _ => 0%nat) urls
              (Some Fixtures.pool) Fixtures.empty_world) as (H1 & H2).
  - discriminate.
  - intros pool [= <-]. split; reflexivity.
  - split; [exact H1|].
    destruct (H2 (fun _ _ _ => eq_refl)) as (_ & _ & _ & H4).
    destruct (H4 Fixtures.pool eq_refl) as (p & Hp & Hq).
    exists p. split; [exact Hp|]. fold r in Hq. now rewrite Hq.
Defined.

(** X29: a request that [CreateTask] does not answer with 200 submits
    nothing to the pool.  It is answered 400 when the body does not decode
    or holds no URL, and then nothing at all has changed; it is answered
    500 when the save of the new task failed, and then the task is
    registered all the same, under its ID, though none of its files will be
    downloaded. *)
Theorem failed_request_submits_nothing E now io pick req wp w code body :
  let r := TaskHandler.CreateTask E now io pick req wp w in
  r.2 = TaskHandler.Answers code body -> code <> 200 ->
  r.1.2 = wp /\
  ((code = 400 /\ (req = None \/ req = Some []) /\ r.1.1 = w) \/
   (code = 500 /\ io <> NoFault /\
    exists urls p, req = Some urls /\ urls <> [] /\
      TaskManager.GetTask (TaskManager.generateTaskID now) r.1.1 = Some p /\
      heap w !! p = None)).
Proof.
  intros r Hr Hcode. subst r. unfold TaskHandler.CreateTask in *.
  destruct req as [urls|].
  2:{ injection Hr as <- _. split; [reflexivity|]. left. auto. }
  destruct urls as [|u urls].
  { injection Hr as <- _. split; [reflexivity|]. left. auto. }
  cbn [length Nat.eqb] in Hr |- *.
  destruct (RestartFacts.CreateTask_world E now io (u :: urls) w) as [Hp0 Hc].
  destruct (RegistryFacts.CreateTask_effect E now io (u :: urls) w) as (Hfresh & Hh & Ht).
  set (task := Task.mk _ _ _ _ _ _) in *.
  set (p := fresh (dom (heap w))) in *.
  rewrite Hc in Hh, Ht, Hr |- *. cbn [fst] in Hh, Ht, Hr |- *.
  destruct (TaskStorage.save_result io) as [err|] eqn:Eio.
  - injection Hr as <- _. cbn [fst snd]. split; [reflexivity|]. right.
    split; [reflexivity|]. split; [intros ->; discriminate|].
    exists (u :: urls), p. split; [reflexivity|]. split; [discriminate|].
    split; [|exact Hfresh]. unfold TaskManager.GetTask. rewrite Ht. apply lookup_insert_eq.
  - exfalso. rewrite Hh, lookup_insert_eq in Hr. destruct wp as [pool|].
    + destruct (WorkerPool.ProcessFiles pick (Task.ID task) p _ pool) as [outcomes pool'].
      destruct (WorkerPool.panicked outcomes); [discriminate|]. injection Hr as <- _. lia.
    + injection Hr as <- _. lia.
Qed.

(** X29 at a concrete input: a request whose task cannot be saved. *)
Lemma failed_request_submits_nothing_witness :
  let r := TaskHandler.CreateTask Fixtures.env 5 MkdirFails (fun _ => 0%nat)
             (Some [Fixtures.urlA]) (Some Fixtures.pool) Fixtures.empty_world in
  r.2 = TaskHandler.Answers 500 (TaskHandler.Text "Failed to create task") /\
  r.1.2 = Some Fixtures.pool /\
  exists p, TaskManager.GetTask "task_5" r.1.1 = Some p.
Proof.
  intros r. split; [reflexivity|].
  destruct (failed_request_submits_nothing Fixtures.env 5 MkdirFails (fun _ => 0%nat)
              (Some [Fixtures.urlA]) (Some Fixtures.pool) Fixtures.empty_world 500
              (TaskHandler.Text "Failed to create task") eq_refl)
    as [H1 [(H & _)|(_ & _ & urls & p & _ & _ & Hp & _)]].
  - discriminate.
  - discriminate.
  - split; [exact H1|]. exists p. exact Hp.
Defined.

(** ** The shutdown *)



(** ** The configuration *)

Module ConfigFacts.
Import config.

Lemma existsb_eqb_elem_of s l : existsb (String.eqb s) l = true -> s ∈ l.
Proof.
  intros H. apply existsb_exists in H as (x & Hin & Heq).
  apply String.eqb_eq in Heq as ->. now apply list_elem_of_In.
Qed.

Lemma validateConfig_None c :
  validateConfig c = None ->
  1 <= Port (Server c) <= 65535 /\ 1 <= Count (Worker c) /\
  Level (Logging c) ∈ validLogLevels /\ Format (Logging c) ∈ validLogFormats.
Proof.
  unfold validateConfig.
  destruct (Z.leb_spec (Port (Server c)) 0); [discriminate|].
  destruct (Z.ltb_spec 65535 (Port (Server c))); [discriminate|]. cbn [orb].
  destruct (Z.leb_spec (Count (Worker c)) 0); [discriminate|].
  destruct (existsb (String.eqb (Level (Logging c))) validLogLevels) eqn:El; [|discriminate].
  destruct (existsb (String.eqb (Format (Logging c))) validLogFormats) eqn:Ef; [|discriminate].
  intros _. repeat split; try lia; now apply existsb_eqb_elem_of.
Qed.

Lemma loadFromEnv_Port H c :
  Port (Server (loadFromEnv H c))
  = if negb (String.eqb (os_Getenv H "SERVER_PORT") "")
    then match strconv_Atoi (os_Getenv H "SERVER_PORT") with
         | Some p => p
         | None => Port (Server c)
         end
    else Port (Server c).
Proof. unfold loadFromEnv. repeat case_match; reflexivity. Qed.

Lemma loadFromEnv_Count H c :
  Count (Worker (loadFromEnv H c))
  = if negb (String.eqb (os_Getenv H "WORKER_COUNT") "")
    then match strconv_Atoi (os_Getenv H "WORKER_COUNT") with
         | Some n => if 0 <? n then n else Count (Worker c)
         | None => Count (Worker c)
         end
    else Count (Worker c).
Proof. unfold loadFromEnv. repeat case_match; reflexivity. Qed.

Lemma LoadConfig_inl H c :
  LoadConfig H = inl c ->
  validateConfig c = None /\
  exists c0, c = loadFromEnv H c0 /\
    (config_yaml H = NoFile -> c0 = DefaultConfig) /\
    (forall overlay, config_yaml H = FileParsed overlay -> c0 = overlay DefaultConfig) /\
    config_yaml H <> FileUnreadable /\ config_yaml H <> FileUnparsable.
Proof.
  unfold LoadConfig. destruct (config_yaml H) as [| | |overlay]; try discriminate.
  - destruct (validateConfig (loadFromEnv H DefaultConfig)) eqn:Ev; [discriminate|].
    intros [= <-]. split; [exact Ev|]. exists DefaultConfig.
    repeat split; try discriminate; auto.
  - destruct (validateConfig (loadFromEnv H (overlay DefaultConfig))) eqn:Ev; [discriminate|].
    intros [= <-]. split; [exact Ev|]. exists (overlay DefaultConfig).
    repeat split; try discriminate; auto. now intros ? [= <-].
Qed.

End ConfigFacts.

(** X21: a configuration that [LoadConfig] returns is valid: its port is
    between 1 and 65535, its worker count is at least 1, and its log level
    and log format are among the known ones.  The environment has the last
    word: a [SERVER_PORT] that parses is the port, whatever [config.yaml]
    says, and a [WORKER_COUNT] that parses is the worker count when it is
    positive.  A [WORKER_COUNT] that does not parse, or parses to a number
    that is not positive, is ignored: the worker count is then the one of
    [config.yaml], or the default when there is no such file or the file
    does not name it; so is the port when [SERVER_PORT] does not parse.
    [config.yaml], when it exists, has been read and parsed. *)
Theorem LoadConfig_returns_a_valid_configuration H c :
  config.LoadConfig H = inl c ->
  1 <= config.Port (config.Server c) <= 65535 /\
  1 <= config.Count (config.Worker c) /\
  config.Level (config.Logging c) ∈ config.validLogLevels /\
  config.Format (config.Logging c) ∈ config.validLogFormats /\
  (forall p, config.strconv_Atoi (config.os_Getenv H "SERVER_PORT") = Some p ->
     config.Port (config.Server c) = p) /\
  (forall n, config.strconv_Atoi (config.os_Getenv H "WORKER_COUNT") = Some n ->
     0 < n -> config.Count (config.Worker c) = n) /\
  config.config_yaml H <> config.FileUnreadable /\
  config.config_yaml H <> config.FileUnparsable /\
  exists c0,
    match config.config_yaml H with
    | config.NoFile => c0 = config.DefaultConfig
    | config.FileParsed overlay => c0 = overlay config.DefaultConfig
    | _ => False
    end /\
    (config.strconv_Atoi (config.os_Getenv H "WORKER_COUNT") = None ->
     config.Count (config.Worker c) = config.Count (config.Worker c0)) /\
    (forall n, config.strconv_Atoi (config.os_Getenv H "WORKER_COUNT") = Some n ->
       n <= 0 -> config.Count (config.Worker c) = config.Count (config.Worker c0)) /\
    (config.strconv_Atoi (config.os_Getenv H "SERVER_PORT") = None ->
     config.Port (config.Server c) = config.Port (config.Server c0)).
Proof.
  intros Hload.
  destruct (ConfigFacts.LoadConfig_inl H c Hload) as (Hv & c0 & -> & Hn & Hp & Hy1 & Hy2).
  destruct (ConfigFacts.validateConfig_None _ Hv) as (H1 & H2 & H3 & H4).
  do 4 (split; [assumption|]). split; [|split; [|split; [|split]]]; try assumption.
  - intros p Hp'. rewrite ConfigFacts.loadFromEnv_Port, Hp'.
    destruct (String.eqb_spec (config.os_Getenv H "SERVER_PORT") "") as [He|_];
      [|reflexivity].
    rewrite He in Hp'. discriminate.
  - intros n Hn' Hpos. rewrite ConfigFacts.loadFromEnv_Count, Hn'.
    destruct (String.eqb_spec (config.os_Getenv H "WORKER_COUNT") "") as [He|_].
    + rewrite He in Hn'. discriminate.
    + cbn [negb]. now apply Z.ltb_lt in Hpos as ->.
  - exists c0. split; [|split; [|split]].
    + destruct (config.config_yaml H) as [| | |overlay]; try congruence.
      * now apply Hn.
      * now apply Hp.
    + intros Hnone. rewrite ConfigFacts.loadFromEnv_Count, Hnone.
      now destruct (negb _).
    + intros n Hsome Hle. rewrite ConfigFacts.loadFromEnv_Count, Hsome.
      destruct (negb _); [|reflexivity].
      destruct (Z.ltb_spec 0 n); [lia|reflexivity].
    + intros Hnone. rewrite ConfigFacts.loadFromEnv_Port, Hnone.
      now destruct (negb _).
Qed.

(** X21 at a concrete input: no [config.yaml], and an environment that sets
    the port to 9090, the worker count to 0 and the log level to [WARN]. *)
Lemma LoadConfig_returns_a_valid_configuration_witness :
  config.LoadConfig Fixtures.host
  = inl {| config.Server := {| config.Port := 9090 |};
           config.Worker := {| config.Count := 3 |};
           config.Logging := {| config.Level := "warn"; config.Format := "json";
                                config.DebugMode := false |} |} /\
  1 <= 9090 <= 65535 /\ "warn"%string ∈ config.validLogLevels.
Proof.
  assert (Hl : config.LoadConfig Fixtures.host
               = inl {| config.Server := {| config.Port := 9090 |};
                        config.Worker := {| config.Count := 3 |};
                        config.Logging := {| config.Level := "warn"; config.Format := "json";
                                             config.DebugMode := false |} |})
    by reflexivity.
  split; [exact Hl|].
  destruct (LoadConfig_returns_a_valid_configuration Fixtures.host _ Hl)
    as (H1 & _ & H3 & _).
  split; [exact H1|exact H3].
Defined.
